(** * Copy/Paste Nodes: the JSON exchange engine ([copy_paste_nodes/json_nodes.py])

    A shallow embedding of the serializer, the deserializer, the schema
    validator and the compact printer, together with the properties the
    design document states about them. *)

From Stdlib Require Import String Ascii List ZArith Lia Bool DecimalString.
From Stdlib Require Import Floats.SpecFloat.
Import ListNotations.

Open Scope list_scope.
Open Scope string_scope.

(** Nested induction principles for the document and schema types. *)
Scheme All for list.
Scheme All for prod.

(** ** Python values and exceptions *)

(** The exceptions the engine raises or lets through. *)
Inductive exn : Type :=
| TypeError (msg : string)
| KeyError (key : string)
| ValueError (msg : string)
| IndexError (msg : string)
| AttributeError (msg : string)
| RuntimeError (msg : string)
| MemoryError.

Inductive result (A : Type) : Type :=
| Ok (a : A)
| Raise (e : exn).
Arguments Ok {A} a.
Arguments Raise {A} e.

Definition bind {A B : Type} (r : result A) (k : A -> result B) : result B :=
  match r with
  | Ok a => k a
  | Raise e => Raise e
  end.

Declare Scope py_scope.
Delimit Scope py_scope with py.
Notation "x <- r ;; k" := (bind r (fun x => k))
  (at level 61, r at next level, right associativity) : py_scope.
Notation "r ;;; k" := (bind r (fun _ => k))
  (at level 61, right associativity) : py_scope.
Open Scope py_scope.

(** Python floats are IEEE 754 doubles; [spec_float] is the Standard
    Library's pure model of them. *)
Definition pyfloat : Type := spec_float.

(** The values a document is built from.  A [dict] keeps its insertion
    order; documents only have string keys. *)
Inductive pyval : Type :=
| PNone
| PBool (b : bool)
| PInt (z : Z)
| PFloat (f : pyfloat)
| PStr (s : string)
| PList (items : list pyval)
| PTuple (items : list pyval)
| PDict (entries : list (string * pyval)).

Definition pydict : Type := list (string * pyval).

(** [key in d] and [d[key]] / [d.get(key)]. *)
Fixpoint dict_get {V : Type} (d : list (string * V)) (key : string) : option V :=
  match d with
  | [] => None
  | (k, v) :: rest => if String.eqb k key then Some v else dict_get rest key
  end.

Definition dict_has {V : Type} (d : list (string * V)) (key : string) : bool :=
  match dict_get d key with Some _ => true | None => false end.

(** [d[key] = v]: an existing key keeps its position. *)
Fixpoint dict_set {V : Type} (d : list (string * V)) (key : string) (v : V)
  : list (string * V) :=
  match d with
  | [] => [(key, v)]
  | (k, w) :: rest =>
      if String.eqb k key then (k, v) :: rest else (k, w) :: dict_set rest key v
  end.

(** [type(obj).__name__]. *)
Definition type_name_of (obj : pyval) : string :=
  match obj with
  | PNone => "NoneType"
  | PBool _ => "bool"
  | PInt _ => "int"
  | PFloat _ => "float"
  | PStr _ => "str"
  | PList _ => "list"
  | PTuple _ => "tuple"
  | PDict _ => "dict"
  end.

Definition str_of_nat (n : nat) : string := NilZero.string_of_uint (Nat.to_uint n).
Definition str_of_Z (z : Z) : string := NilZero.string_of_int (Z.to_int z).

(** ** The declarative schema *)

Definition JSON_SCHEMA_VERSION : Z := 2.

(** The kind tokens a schema names ([int], [str], [bool], [float]). *)
Inductive pytype : Type := Tint | Tstr | Tbool | Tfloat.

Definition pytype_name (t : pytype) : string :=
  match t with
  | Tint => "int"
  | Tstr => "str"
  | Tbool => "bool"
  | Tfloat => "float"
  end.

(** [isinstance(obj, t)]: [bool] is a subclass of [int]. *)
Definition isinstance (obj : pyval) (t : pytype) : bool :=
  match t, obj with
  | Tint, PInt _ => true
  | Tint, PBool _ => true
  | Tstr, PStr _ => true
  | Tbool, PBool _ => true
  | Tfloat, PFloat _ => true
  | _, _ => false
  end.

(** A key of a fixed-shape mapping: a plain string, or [Optional(key)]. *)
Inductive skey : Type :=
| Required (key : string)
| Optional (key : string).

Definition skey_name (k : skey) : string :=
  match k with Required s => s | Optional s => s end.

Inductive schema : Type :=
| SType (t : pytype)
| SList (elems : list schema)
| SDict (fields : list (skey * schema))
| STuple (elems : list schema)
| SMapOf (value_schema : schema).

Definition _NODES_SCHEMA : schema :=
  SList [
    SDict [
      (Required "bl_idname", SType Tstr);
      (Required "props", SDict [(Required "name", SType Tstr)]);
      (Optional "node_tree", SType Tstr);
      (Optional "parent", SType Tstr);
      (Optional "paired_output", SType Tstr);
      (Optional "inputs",
        SMapOf (SDict [(Optional "hide", SType Tbool);
                       (Optional "links", SList [STuple [SType Tstr; SType Tint]])]));
      (Optional "outputs", SMapOf (SDict [(Optional "hide", SType Tbool)]))
    ]
  ].

Definition SCHEMA : schema :=
  SDict [
    (Required "version", SType Tint);
    (Required "type", SType Tstr);
    (Required "app_version", STuple [SType Tint; SType Tint; SType Tint]);
    (Required "nodes", _NODES_SCHEMA);
    (Optional "node_trees",
      SMapOf (SDict [
        (Required "nodes", _NODES_SCHEMA);
        (Required "interface",
          SDict [(Optional "items_tree", SList [SDict [(Optional "in_out", SType Tstr)]])]);
        (Optional "props", SDict [])
      ]))
  ].

(** [validate_schema(obj, schema, path)]: [Ok tt] on return, the raised
    [TypeError] otherwise.  The last [raise] of the source (a schema that is
    none of the five shapes) has no counterpart: [schema] has no such value. *)
Fixpoint validate_schema (obj : pyval) (sch : schema) (path : string) {struct sch}
  : result unit :=
  match sch with
  | SType t =>
      if isinstance obj t then Ok tt
      else Raise (TypeError (path ++ " expected " ++ pytype_name t ++ ", got "
                               ++ type_name_of obj))
  | SList elems =>
      match obj with
      | PList items =>
          match elems with
          | [] => Ok tt
          | s0 :: _ =>
              (fix each (i : nat) (items : list pyval) : result unit :=
                 match items with
                 | [] => Ok tt
                 | item :: rest =>
                     validate_schema item s0 (path ++ "[" ++ str_of_nat i ++ "]") ;;;
                     each (S i) rest
                 end) 0%nat items
          end
      | _ => Raise (TypeError (path ++ " expected list, got " ++ type_name_of obj))
      end
  | SDict fields =>
      match obj with
      | PDict d =>
          (fix each (fields : list (skey * schema)) : result unit :=
             match fields with
             | [] => Ok tt
             | (Optional key_name, subschema) :: rest =>
                 match dict_get d key_name with
                 | Some v =>
                     validate_schema v subschema (path ++ "." ++ key_name) ;;;
                     each rest
                 | None => each rest
                 end
             | (Required key, subschema) :: rest =>
                 match dict_get d key with
                 | None =>
                     Raise (TypeError (path ++ " missing required key '" ++ key ++ "'"))
                 | Some v =>
                     validate_schema v subschema (path ++ "." ++ key) ;;;
                     each rest
                 end
             end) fields
      | _ => Raise (TypeError (path ++ " expected dict, got " ++ type_name_of obj))
      end
  | STuple elems =>
      let check (items : list pyval) : result unit :=
        if negb (Nat.eqb (length items) (length elems)) then
          Raise (TypeError (path ++ " expected tuple/list of length "
                              ++ str_of_nat (length elems) ++ ", got length "
                              ++ str_of_nat (length items)))
        else
          (fix each (i : nat) (items : list pyval) (elems : list schema) {struct elems}
              : result unit :=
             match items, elems with
             | item :: items', subschema :: elems' =>
                 validate_schema item subschema (path ++ "[" ++ str_of_nat i ++ "]") ;;;
                 each (S i) items' elems'
             | _, _ => Ok tt
             end) 0%nat items elems
      in
      match obj with
      | PTuple items => check items
      | PList items => check items
      | _ => Raise (TypeError (path ++ " expected tuple/list of length "
                                 ++ str_of_nat (length elems) ++ ", got "
                                 ++ type_name_of obj))
      end
  | SMapOf value_schema =>
      match obj with
      | PDict d =>
          (fix each (d : list (string * pyval)) : result unit :=
             match d with
             | [] => Ok tt
             | (k, v) :: rest =>
                 validate_schema v value_schema (path ++ "." ++ k) ;;;
                 each rest
             end) d
      | _ => Raise (TypeError (path ++ " expected dict, got " ++ type_name_of obj))
      end
  end.


(** *** What the validator is meant to report

    A location inside a document is a sequence of steps from the root; the
    validator prints it as [root.nodes[0].props]. *)
Inductive step : Type :=
| Key (k : string)
| Idx (i : nat).

Definition step_str (s : step) : string :=
  match s with
  | Key k => "." ++ k
  | Idx i => "[" ++ str_of_nat i ++ "]"
  end.

Fixpoint path_str (root : string) (p : list step) : string :=
  match p with
  | [] => root
  | s :: p' => path_str (root ++ step_str s) p'
  end.

Inductive violation : Type :=
| WrongKind (expected got : string)
| MissingKey (key : string)
| WrongLength (expected got : nat).

Definition describe (v : violation) : string :=
  match v with
  | WrongKind expected got => " expected " ++ expected ++ ", got " ++ got
  | MissingKey key => " missing required key '" ++ key ++ "'"
  | WrongLength expected got =>
      " expected tuple/list of length " ++ str_of_nat expected
        ++ ", got length " ++ str_of_nat got
  end.

Definition is_list (obj : pyval) : bool :=
  match obj with PList _ => true | _ => false end.
Definition is_dict (obj : pyval) : bool :=
  match obj with PDict _ => true | _ => false end.

(** The items of a tuple or a list. *)
Definition seq_items (obj : pyval) : option (list pyval) :=
  match obj with
  | PList items => Some items
  | PTuple items => Some items
  | _ => None
  end.

(** [offends obj sch p v]: following [sch] and [obj] in lockstep along [p]
    one reaches a value whose kind disagrees with the schema, a mapping that
    lacks a required key, or a tuple of the wrong length. *)
Inductive offends : pyval -> schema -> list step -> violation -> Prop :=
| off_kind obj t :
    isinstance obj t = false ->
    offends obj (SType t) [] (WrongKind (pytype_name t) (type_name_of obj))
| off_not_list obj elems :
    is_list obj = false ->
    offends obj (SList elems) [] (WrongKind "list" (type_name_of obj))
| off_list_item items s0 elems i item p v :
    nth_error items i = Some item ->
    offends item s0 p v ->
    offends (PList items) (SList (s0 :: elems)) (Idx i :: p) v
| off_not_dict obj fields :
    is_dict obj = false ->
    offends obj (SDict fields) [] (WrongKind "dict" (type_name_of obj))
| off_missing d fields key subschema :
    In (Required key, subschema) fields ->
    dict_get d key = None ->
    offends (PDict d) (SDict fields) [] (MissingKey key)
| off_field d fields k subschema x p v :
    In (k, subschema) fields ->
    dict_get d (skey_name k) = Some x ->
    offends x subschema p v ->
    offends (PDict d) (SDict fields) (Key (skey_name k) :: p) v
| off_not_seq obj elems :
    seq_items obj = None ->
    offends obj (STuple elems) []
      (WrongKind ("tuple/list of length " ++ str_of_nat (length elems)) (type_name_of obj))
| off_length obj items elems :
    seq_items obj = Some items ->
    length items <> length elems ->
    offends obj (STuple elems) [] (WrongLength (length elems) (length items))
| off_tuple_item obj items elems i item subschema p v :
    seq_items obj = Some items ->
    length items = length elems ->
    nth_error items i = Some item ->
    nth_error elems i = Some subschema ->
    offends item subschema p v ->
    offends obj (STuple elems) (Idx i :: p) v
| off_not_map obj value_schema :
    is_dict obj = false ->
    offends obj (SMapOf value_schema) [] (WrongKind "dict" (type_name_of obj))
| off_map_value d value_schema k x p v :
    In (k, x) d ->
    offends x value_schema p v ->
    offends (PDict d) (SMapOf value_schema) (Key k :: p) v.

(** The keys a fixed-shape mapping schema mentions. *)
Definition field_names (fields : list (skey * schema)) : list string :=
  map (fun f => skey_name (fst f)) fields.

(** [adds_unknown_keys sch obj obj']: [obj'] is [obj] with keys added that
    the schema does not mention, at any depth the schema describes.  Under a
    homogeneous mapping ([MapOf]) every key is covered by the schema, so the
    key sets agree there. *)
Fixpoint adds_unknown_keys (sch : schema) (obj obj' : pyval) {struct sch} : Prop :=
  obj' = obj \/
  match sch with
  | SType _ => False
  | SList elems =>
      match elems with
      | [] => False
      | s0 :: _ =>
          exists items items',
            obj = PList items /\ obj' = PList items' /\
            Forall2 (adds_unknown_keys s0) items items'
      end
  | SDict fields =>
      exists d d',
        obj = PDict d /\ obj' = PDict d' /\
        (forall k x, dict_get d k = Some x -> ~ In k (field_names fields) ->
                     dict_get d' k = Some x) /\
        (forall k, dict_get d k = None -> In k (field_names fields) ->
                   dict_get d' k = None) /\
        (fix each (fields : list (skey * schema)) : Prop :=
           match fields with
           | [] => True
           | (k, subschema) :: rest =>
               (forall x, dict_get d (skey_name k) = Some x ->
                          exists x', dict_get d' (skey_name k) = Some x' /\
                                     adds_unknown_keys subschema x x') /\
               each rest
           end) fields
  | STuple elems =>
      exists items items',
        seq_items obj = Some items /\ seq_items obj' = Some items' /\
        (fix each (elems : list schema) (items items' : list pyval) : Prop :=
           match elems, items, items' with
           | [], [], [] => True
           | subschema :: elems', x :: xs, x' :: xs' =>
               adds_unknown_keys subschema x x' /\ each elems' xs xs'
           | _, _, _ => False
           end) elems items items'
  | SMapOf value_schema =>
      exists d d',
        obj = PDict d /\ obj' = PDict d' /\
        Forall2 (fun e e' => fst e' = fst e /\
                             adds_unknown_keys value_schema (snd e) (snd e')) d d'
  end.

(** Sample documents: one Math node; the same with [props.name] missing; and
    the first with keys a later engine might add. *)
Definition doc_math : pyval :=
  PDict [("version", PInt 2); ("type", PStr "SHADER");
         ("app_version", PList [PInt 4; PInt 2; PInt 0]);
         ("nodes", PList [PDict [("bl_idname", PStr "ShaderNodeMath");
                                 ("props", PDict [("name", PStr "Math")])]])].

Definition doc_missing_name : pyval :=
  PDict [("version", PInt 2); ("type", PStr "SHADER");
         ("app_version", PList [PInt 4; PInt 2; PInt 0]);
         ("nodes", PList [PDict [("bl_idname", PStr "ShaderNodeMath");
                                 ("props", PDict [])]])].

Definition doc_math_extra : pyval :=
  PDict [("version", PInt 2); ("type", PStr "SHADER");
         ("app_version", PList [PInt 4; PInt 2; PInt 0]);
         ("generator", PStr "a later engine");
         ("nodes", PList [PDict [("bl_idname", PStr "ShaderNodeMath");
                                 ("props", PDict [("name", PStr "Math");
                                                  ("operation", PStr "ADD")]);
                                 ("annotations", PList [PInt 1])]])].

(** ** The compact printer ([dumps_compact]) *)

Definition dquote : string := String (ascii_of_nat 34) "".
Definition backslash : string := String (ascii_of_nat 92) "".

(** [sep.join(items)]. *)
Fixpoint join (sep : string) (items : list string) : string :=
  match items with
  | [] => ""
  | [x] => x
  | x :: rest => x ++ sep ++ join sep rest
  end.

(** [" " * n]. *)
Fixpoint spaces (n : nat) : string :=
  match n with
  | O => ""
  | S n' => " " ++ spaces n'
  end.

Definition hex_digit (n : nat) : string :=
  String (nth n (list_ascii_of_string "0123456789abcdef") "0"%char) "".

(** One character as [json.dumps] writes it inside a string (with the
    default [ensure_ascii]): the short escapes, [\u00xx] for whatever is not
    printable ASCII, the character itself otherwise.  A [string] here is a
    sequence of code points below 256. *)
Definition escape_char (c : ascii) : string :=
  let n := nat_of_ascii c in
  if Nat.eqb n 34 then backslash ++ dquote
  else if Nat.eqb n 92 then backslash ++ backslash
  else if Nat.eqb n 10 then backslash ++ "n"
  else if Nat.eqb n 13 then backslash ++ "r"
  else if Nat.eqb n 9 then backslash ++ "t"
  else if Nat.eqb n 8 then backslash ++ "b"
  else if Nat.eqb n 12 then backslash ++ "f"
  else if (Nat.ltb n 32 || Nat.ltb 126 n)%bool then
    backslash ++ "u00" ++ hex_digit (n / 16) ++ hex_digit (n mod 16)
  else String c "".

Fixpoint escape_chars (s : string) : string :=
  match s with
  | EmptyString => ""
  | String c rest => escape_char c ++ escape_chars rest
  end.

(** [json.dumps(s)] for a string. *)
Definition json_string (s : string) : string := dquote ++ escape_chars s ++ dquote.

Section Printer.

(** [float.__repr__] on a finite float, as [json.dumps] uses it. *)
Variable float_repr : pyfloat -> string.

Definition json_float (f : pyfloat) : string :=
  match f with
  | S754_nan => "NaN"
  | S754_infinity false => "Infinity"
  | S754_infinity true => "-Infinity"
  | _ => float_repr f
  end.

(** [json.dumps(x)] with the default separators. *)
Fixpoint json_dumps (x : pyval) : string :=
  match x with
  | PNone => "null"
  | PBool true => "true"
  | PBool false => "false"
  | PInt z => str_of_Z z
  | PFloat f => json_float f
  | PStr s => json_string s
  | PList items | PTuple items =>
      "[" ++ join ", " (map json_dumps items) ++ "]"
  | PDict entries =>
      "{" ++ join ", " (map (fun kv => (json_string (fst kv) ++ ": "
                                            ++ json_dumps (snd kv))%string)
                            entries) ++ "}"
  end.

(** The inner [render(x, level)] of [dumps_compact]. *)
Fixpoint render (indent max_inline : nat) (x : pyval) (level : nat) : string :=
  let space := spaces (indent * level) in
  let space_inner := spaces (indent * (level + 1)) in
  match x with
  | PDict entries =>
      match entries with
      | [] => "{}"
      | _ =>
          let items :=
            map (fun kv => (dquote ++ fst kv ++ dquote ++ ": "
                              ++ render indent max_inline (snd kv) (level + 1))%string)
                entries in
          let one_line := "{" ++ join ", " items ++ "}" in
          if Nat.leb (String.length one_line) max_inline then one_line
          else
            let lines := map (fun item => (space_inner ++ item)%string) items in
            "{" ++ String (ascii_of_nat 10) "" ++ join ("," ++ String (ascii_of_nat 10) "") lines
                ++ String (ascii_of_nat 10) "" ++ space ++ "}"
      end
  | PList elems =>
      match elems with
      | [] => "[]"
      | _ =>
          let items := map (fun v => render indent max_inline v (level + 1)) elems in
          let one_line := "[" ++ join ", " items ++ "]" in
          if Nat.leb (String.length one_line) max_inline then one_line
          else
            let lines := map (fun item => (space_inner ++ item)%string) items in
            "[" ++ String (ascii_of_nat 10) "" ++ join ("," ++ String (ascii_of_nat 10) "") lines
                ++ String (ascii_of_nat 10) "" ++ space ++ "]"
      end
  | _ => json_dumps x
  end.

(** [dumps_compact(obj, indent=2, max_inline=90)]. *)
Definition dumps_compact (obj : pyval) : string := render 2 90 obj 0.

End Printer.

(** Two documents the printer cannot tell apart, and a key with a quote. *)
Definition doc_two_keys : pyval := PDict [("a", PInt 1); ("b", PInt 2)].
Definition doc_quoted_key : pyval :=
  PDict [("a" ++ dquote ++ ": 1, " ++ dquote ++ "b", PInt 2)].
Definition doc_group_name : pyval :=
  PDict [("node_trees", PDict [("my " ++ dquote ++ "best" ++ dquote ++ " group", PDict [])])].

(** ** Ordering the nested node trees ([_topological_sort]) *)

(** [l.pop()]: the list without its last element, and that element. *)
Fixpoint pop {A : Type} (l : list A) : option (list A * A) :=
  match l with
  | [] => None
  | [x] => Some ([], x)
  | x :: rest =>
      match pop rest with
      | Some (rest', y) => Some (x :: rest', y)
      | None => None
      end
  end.

Definition oid : Type := nat.

Definition mem_oid (x : oid) (l : list oid) : bool := existsb (Nat.eqb x) l.

Fixpoint oid_get {V : Type} (d : list (oid * V)) (key : oid) : option V :=
  match d with
  | [] => None
  | (k, v) :: rest => if Nat.eqb k key then Some v else oid_get rest key
  end.

(** The dependency graph: a [dict] from a tree to the [set] of trees its
    nodes use.  A tree is the host object it is (an object identifier); a
    set is listed in its iteration order. *)
Definition graph : Type := list (oid * list oid).

(** [graph[v]]. *)
Definition graph_get (g : graph) (v : oid) : result (list oid) :=
  match oid_get g v with
  | Some children => Ok children
  | None => Raise (KeyError (str_of_nat v))
  end.

(** The inner loop [while stack and v not in graph[stack[-1]]:
    order.append(stack.pop())]; it runs at most [length stack] times, which
    is what [n] counts. *)
Fixpoint unwind (n : nat) (g : graph) (v : oid) (stack order : list oid)
  : result (list oid * list oid) :=
  match n with
  | O => Ok (stack, order)
  | S n' =>
      match pop stack with
      | None => Ok (stack, order)
      | Some (rest, top) =>
          children <- graph_get g top ;;
          if negb (mem_oid v children) then unwind n' g v rest (order ++ [top])%list
          else Ok (stack, order)
      end
  end.

(** The outer loop [while q: ...]; [None] when [fuel] runs out. *)
Fixpoint topo_loop (fuel : nat) (g : graph) (seen stack order q : list oid)
  : option (result (list oid)) :=
  match fuel with
  | O => None
  | S fuel' =>
      match pop q with
      | None => Some (Ok (order ++ stack)%list)
      | Some (q', v) =>
          if negb (mem_oid v seen) then
            match graph_get g v with
            | Raise e => Some (Raise e)
            | Ok children =>
                match unwind (length stack) g v stack order with
                | Raise e => Some (Raise e)
                | Ok (stack', order') =>
                    topo_loop fuel' g (v :: seen) (stack' ++ [v])%list order'
                              (q' ++ children)%list
                end
            end
          else topo_loop fuel' g seen stack order q'
      end
  end.

(** Every pass pops one element of [q]; [q] starts with the keys and grows
    by the children of a tree the first time it is seen. *)
Definition topo_fuel (g : graph) : nat :=
  S (length g + fold_right (fun kv n => length (snd kv) + n)%nat 0%nat g).

Definition _topological_sort (g : graph) : result (list oid) :=
  match topo_loop (topo_fuel g) g [] [] [] (map fst g) with
  | Some r => r
  | None => Raise (RuntimeError "unreachable")   (* see [topo_loop_enough_fuel] *)
  end.

(** [position x l]: the index of the first [x] in [l]. *)
Fixpoint position (x : oid) (l : list oid) : option nat :=
  match l with
  | [] => None
  | y :: rest =>
      if Nat.eqb y x then Some 0%nat
      else option_map S (position x rest)
  end.

(** [before a b l]: [a] comes before [b] in [l]. *)
Definition before (a b : oid) (l : list oid) : bool :=
  match position a l, position b l with
  | Some i, Some j => Nat.ltb i j
  | _, _ => false
  end.

(** Tree 1 (A) uses tree 2 (B), and B was met first; and a chain. *)
Definition graph_B_then_A : graph := [(2, []); (1, [2])]%nat.
Definition graph_A_then_B : graph := [(1, [2]); (2, [])]%nat.
Definition graph_chain : graph := [(3, []); (2, [3]); (1, [2])]%nat.

(** ** The host: Blender's data as the engine sees it

    The engine works on live objects of the host (node trees, nodes, sockets,
    links, interface items) through attribute reads and writes and a few
    methods.  Objects live in a heap and are referred to by identifier, so
    that two references to one object see the same state. *)

(** What an attribute of a host object holds. *)
Inductive value : Type :=
| VNone
| VBool (b : bool)
| VInt (z : Z)
| VFloat (f : pyfloat)
| VStr (s : string)
| VArray (items : list value)      (* bpy_prop_array, Vector, Color, Euler, Quaternion *)
| VRef (o : oid)                   (* a struct: the value of a pointer property *)
| VColl (items : list oid).        (* a collection of structs *)

(** [prop.type] of an RNA property. *)
Inductive prop_kind : Type :=
| BOOLEAN | INT | FLOAT | ENUM | STRING | POINTER | COLLECTION.

(** One entry of [bl_rna.properties]. *)
Record rna_prop : Type := {
  identifier : string;
  kind : prop_kind;
  is_hidden : bool;
  is_readonly : bool;
  fixed_type : list string;  (* pointer or item type: its RNA type, then that type's bases *)
  collection_rna : string;   (* of a collection: [collection.bl_rna.identifier] *)
  new_parameters : option (list string)
                             (* of a collection: the identifiers of
                                [collection.bl_rna.functions['new'].parameters],
                                the returned item last; [None] without a [new] *)
}.

(** A host object: its RNA type ([bl_rna.identifier] and the chain of
    [base]s), the properties the type declares, and its attributes. *)
Record object : Type := {
  rna_identifier : string;
  rna_bases : list string;
  rna_properties : list rna_prop;
  attrs : list (string * value)
}.

(** What [nodes.new], [interface.new_socket] and [interface.new_panel]
    instantiate: a fresh object in its default state, with fresh sockets. *)
Record struct_type : Type := {
  st_rna_identifier : string;
  st_rna_bases : list string;
  st_rna_properties : list rna_prop;
  st_attrs : list (string * value)
}.

Record node_type : Type := {
  nt_struct : struct_type;
  nt_inputs : list struct_type;
  nt_outputs : list struct_type
}.

(** The state of the host.  [data] is [bpy.data]: its collections by
    attribute name ([node_groups], [materials], ...); [data_rna] lists the
    collection properties of [bpy.data.bl_rna] ([fixed_type] identifier and
    [identifier]); [node_types] is the registry of node types and
    [struct_types] that of node tree, interface and interface item types;
    [float32_repr] is [float(repr(numpy.float32(x)))]; [recursion_limit] is
    the interpreter's, and [memory_limit] the number of items a list may grow
    to before the interpreter raises [MemoryError]. *)
Record bpy : Type := {
  heap : list (oid * object);
  next_oid : oid;
  data : list (string * list oid);
  data_rna : list (string * string);
  node_types : list (string * node_type);
  struct_types : list (string * struct_type);
  app_version : Z * Z * Z;
  float32_repr : pyfloat -> pyfloat;
  recursion_limit : nat;
  memory_limit : nat
}.

Definition with_heap (h : bpy) (hp : list (oid * object)) (n : oid) : bpy :=
  {| heap := hp; next_oid := n; data := data h; data_rna := data_rna h;
     node_types := node_types h; struct_types := struct_types h;
     app_version := app_version h; float32_repr := float32_repr h;
     recursion_limit := recursion_limit h; memory_limit := memory_limit h |}.

Definition with_data (h : bpy) (d : list (string * list oid)) : bpy :=
  {| heap := heap h; next_oid := next_oid h; data := d; data_rna := data_rna h;
     node_types := node_types h; struct_types := struct_types h;
     app_version := app_version h; float32_repr := float32_repr h;
     recursion_limit := recursion_limit h; memory_limit := memory_limit h |}.

(** *** Reading *)

Fixpoint heap_get (hp : list (oid * object)) (o : oid) : option object :=
  match hp with
  | [] => None
  | (o', x) :: rest => if Nat.eqb o' o then Some x else heap_get rest o
  end.

Fixpoint heap_set (hp : list (oid * object)) (o : oid) (x : object)
  : list (oid * object) :=
  match hp with
  | [] => [(o, x)]
  | (o', y) :: rest =>
      if Nat.eqb o' o then (o', x) :: rest else (o', y) :: heap_set rest o x
  end.

(** [getattr(obj, name, None)]; a reference to a freed object reads as an
    object without attributes. *)
Definition getattr (h : bpy) (o : oid) (name : string) : value :=
  match heap_get (heap h) o with
  | Some x => match dict_get (attrs x) name with Some v => v | None => VNone end
  | None => VNone
  end.

(** [hasattr(obj, name)]. *)
Definition hasattr (h : bpy) (o : oid) (name : string) : bool :=
  match heap_get (heap h) o with
  | Some x => dict_has (attrs x) name
  | None => false
  end.

(** [obj.name] where the attribute must exist. *)
Definition attr (h : bpy) (o : oid) (name : string) : result value :=
  match heap_get (heap h) o with
  | Some x =>
      match dict_get (attrs x) name with
      | Some v => Ok v
      | None => Raise (AttributeError name)
      end
  | None => Raise (AttributeError name)
  end.

(** Reading through [None] or a non-object. *)
Definition attr_of (h : bpy) (v : value) (name : string) : result value :=
  match v with
  | VRef o => attr h o name
  | _ => Raise (AttributeError name)
  end.

Definition as_str (v : value) : result string :=
  match v with
  | VStr s => Ok s
  | _ => Raise (TypeError "expected str")
  end.

(** Iterating over a collection attribute. *)
Definition as_coll (v : value) : result (list oid) :=
  match v with
  | VColl items => Ok items
  | _ => Raise (TypeError "object is not iterable")
  end.

(** [obj.bl_rna.properties]. *)
Definition properties_of (h : bpy) (o : oid) : list rna_prop :=
  match heap_get (heap h) o with
  | Some x => rna_properties x
  | None => []
  end.

(** [obj.bl_rna.properties.get(name)]. *)
Fixpoint find_prop (props : list rna_prop) (name : string) : option rna_prop :=
  match props with
  | [] => None
  | p :: rest => if String.eqb (identifier p) name then Some p else find_prop rest name
  end.

(** *** Writing: host effects thread the state; an exception keeps the
    effects made before it. *)

Definition M (A : Type) : Type := bpy -> result A * bpy.

Definition ret {A : Type} (a : A) : M A := fun h => (Ok a, h).
Definition raise {A : Type} (e : exn) : M A := fun h => (Raise e, h).
Definition lift {A : Type} (r : result A) : M A := fun h => (r, h).
Definition read {A : Type} (f : bpy -> result A) : M A := fun h => (f h, h).

Definition mbind {A B : Type} (c : M A) (k : A -> M B) : M B :=
  fun h =>
    match c h with
    | (Ok a, h') => k a h'
    | (Raise e, h') => (Raise e, h')
    end.

Notation "x <~ c ;; k" := (mbind c (fun x => k))
  (at level 61, c at next level, right associativity) : py_scope.
Notation "c ~;; k" := (mbind c (fun _ => k))
  (at level 61, right associativity) : py_scope.

(** [try: body finally: cleanup]. *)
Definition try_finally {A : Type} (body : M A) (cleanup : M unit) : M A :=
  fun h =>
    match body h with
    | (r, h1) =>
        match cleanup h1 with
        | (Ok _, h2) => (r, h2)
        | (Raise e, h2) => (Raise e, h2)
        end
    end.

(** [for x in items: body(x)]. *)
Fixpoint for_each {A : Type} (items : list A) (body : A -> M unit) : M unit :=
  match items with
  | [] => ret tt
  | x :: rest => body x ~;; for_each rest body
  end.

Definition alloc (x : object) : M oid :=
  fun h => (Ok (next_oid h), with_heap h ((next_oid h, x) :: heap h) (S (next_oid h))).

(** A plain attribute store, without the host's checks. *)
Definition store_attr (o : oid) (name : string) (v : value) : M unit :=
  fun h =>
    match heap_get (heap h) o with
    | Some x =>
        (Ok tt,
         with_heap h
           (heap_set (heap h) o
              {| rna_identifier := rna_identifier x; rna_bases := rna_bases x;
                 rna_properties := rna_properties x;
                 attrs := dict_set (attrs x) name v |})
           (next_oid h))
    | None => (Raise (AttributeError name), h)
    end.

(** [setattr(obj, name, v)] as the host checks it: the property must exist
    and be writable.  The host's side effects of a write (renaming on a name
    clash, sockets that appear with a mode) have no counterpart here. *)
Definition setattr (o : oid) (name : string) (v : value) : M unit :=
  fun h =>
    match find_prop (properties_of h o) name with
    | Some p =>
        if is_readonly p then (Raise (AttributeError name), h)
        else store_attr o name v h
    | None => (Raise (AttributeError name), h)
    end.

(** ** The serializer *)

(** [bool(val)]. *)
Definition truthy (v : value) : bool :=
  match v with
  | VNone => false
  | VBool b => b
  | VInt z => negb (Z.eqb z 0)
  | VFloat f => negb (SFeqb f (S754_zero false))
  | VStr s => negb (String.eqb s "")
  | VArray items => negb (Nat.eqb (length items) 0)
  | VRef _ => true
  | VColl items => negb (Nat.eqb (length items) 0)
  end.

(** An [int] as a float, for a mixed comparison. *)
Definition float_of_Z (z : Z) : pyfloat := binary_normalize 53 1024 z 0 false.

Definition Z_of_bool (b : bool) : Z := if b then 1 else 0.

(** [a == b] on attribute values: numbers compare by value across [bool],
    [int] and [float], sequences element by element, structs by identity. *)
Fixpoint value_eqb (a b : value) {struct a} : bool :=
  match a, b with
  | VNone, VNone => true
  | VBool x, VBool y => Bool.eqb x y
  | VBool x, VInt y => Z.eqb (Z_of_bool x) y
  | VInt x, VBool y => Z.eqb x (Z_of_bool y)
  | VInt x, VInt y => Z.eqb x y
  | VBool x, VFloat y => SFeqb (float_of_Z (Z_of_bool x)) y
  | VFloat x, VBool y => SFeqb x (float_of_Z (Z_of_bool y))
  | VInt x, VFloat y => SFeqb (float_of_Z x) y
  | VFloat x, VInt y => SFeqb x (float_of_Z y)
  | VFloat x, VFloat y => SFeqb x y
  | VStr x, VStr y => String.eqb x y
  | VArray xs, VArray ys =>
      (fix all2 (xs ys : list value) {struct xs} : bool :=
         match xs, ys with
         | [], [] => true
         | x :: xs', y :: ys' => value_eqb x y && all2 xs' ys'
         | _, _ => false
         end) xs ys
  | VRef x, VRef y => Nat.eqb x y
  | VColl xs, VColl ys =>
      (fix all2 (xs ys : list oid) {struct xs} : bool :=
         match xs, ys with
         | [], [] => true
         | x :: xs', y :: ys' => Nat.eqb x y && all2 xs' ys'
         | _, _ => false
         end) xs ys
  | _, _ => false
  end.

(** [_bpy_type_to_data_collection], filled from [bpy.data.bl_rna.properties]. *)
Definition _bpy_type_to_data_collection (h : bpy) : list (string * string) :=
  fold_left (fun d p => dict_set d (fst p) (snd p)) (data_rna h) [].

(** The loop of [_get_data_collection] along [id_type], [id_type.base], ...:
    the name of the [bpy.data] collection, or [None]. *)
Fixpoint data_collection_name (table : list (string * string)) (chain : list string)
  : option string :=
  match chain with
  | [] => None
  | id_type :: bases =>
      let result := dict_get table id_type in
      match bases with
      | [] => None                  (* [id_type.base is None]: [return None] *)
      | _ :: _ =>
          match result with
          | Some r => Some r
          | None => data_collection_name table bases
          end
      end
  end.

(** [_get_data_collection(id_type)]: the collection, or [None]. *)
Definition _get_data_collection (h : bpy) (chain : list string) : option (list oid) :=
  match data_collection_name (_bpy_type_to_data_collection h) chain with
  | Some r => Some (match dict_get (data h) r with Some c => c | None => [] end)
  | None => None
  end.

(** [obj.bl_rna], as the chain of type identifiers. *)
Definition bl_rna (h : bpy) (o : oid) : list string :=
  match heap_get (heap h) o with
  | Some x => rna_identifier x :: rna_bases x
  | None => []
  end.

(** [str(val)] of a host struct or collection, for the fallback of
    [_to_serializable]; the host's text (an address) is not modelled. *)
Definition str_of_struct (v : value) : string :=
  match v with
  | VColl _ => "<bpy_collection>"
  | _ => "<bpy_struct>"
  end.

Fixpoint _to_serializable (h : bpy) (val : value) : pyval :=
  match val with
  | VArray items => PList (map (_to_serializable h) items)
  | VFloat f => PFloat (float32_repr h f)
  | VInt z => PInt z
  | VBool b => PBool b
  | VStr s => PStr s
  | VNone => PNone
  | VRef _ | VColl _ => PStr (str_of_struct val)
  end.

(** A value stored as it is ([v.name], [v.index]). *)
Fixpoint to_py (val : value) : pyval :=
  match val with
  | VArray items => PList (map to_py items)
  | VFloat f => PFloat f
  | VInt z => PInt z
  | VBool b => PBool b
  | VStr s => PStr s
  | VNone => PNone
  | VRef _ | VColl _ => PStr (str_of_struct val)
  end.

Definition _is_nonzero (val : value) : bool :=
  match val with
  | VArray items => existsb truthy items
  | _ => truthy val
  end.

Definition _long_to_short_prop_name : list (string * string) :=
  [("location_absolute", "_loc"); ("default_value", "_val")].

Definition _short_to_long_prop_name : list (string * string) :=
  fold_left (fun d kv => dict_set d (snd kv) (fst kv)) _long_to_short_prop_name [].

Definition _short_prop_name (name : string) : string :=
  match dict_get _long_to_short_prop_name name with Some s => s | None => name end.

Definition _long_prop_name (name : string) : string :=
  match dict_get _short_to_long_prop_name name with Some s => s | None => name end.

(** [getattr(v, "index", -1) >= 0]. *)
Definition index_is_nonnegative (h : bpy) (o : oid) : result bool :=
  if hasattr h o "index" then
    match getattr h o "index" with
    | VInt z => Ok (Z.leb 0 z)
    | VBool _ => Ok true
    | _ => Raise (TypeError "'>=' not supported")
    end
  else Ok false.

(** [_serialize_prop(properties, idblock, prop, defaults)]; [defaults] may be
    [None].  The updated [properties] is returned. *)
Definition _serialize_prop (h : bpy) (properties : pydict) (idblock : oid)
           (prop : rna_prop) (defaults : option oid) : result pydict :=
  let v := getattr h idblock (identifier prop) in
  match v with
  | VNone => Ok properties
  | _ =>
      let default :=
        match defaults with
        | Some d => getattr h d (identifier prop)
        | None => VNone
        end in
      if value_eqb v default then Ok properties
      else
        let key := _short_prop_name (identifier prop) in
        match kind prop with
        | POINTER =>
            match v with
            | VRef target =>
                if match _get_data_collection h (bl_rna h target) with
                   | Some c => negb (Nat.eqb (length c) 0)
                   | None => false
                   end
                then
                  name <- attr h target "name" ;;
                  Ok (dict_set properties key (to_py name))
                else if String.eqb (identifier prop) "parent" then
                  nonneg <- index_is_nonnegative h target ;;
                  if nonneg then
                    idx <- attr h target "index" ;;
                    Ok (dict_set properties key (to_py idx))
                  else Ok properties
                else Ok properties
            | _ => Raise (AttributeError "bl_rna")
            end
        | _ => Ok (dict_set properties key (_to_serializable h v))
        end
  end.

(** [sorted(props, key=lambda x: x.identifier)]: a stable insertion sort. *)
Fixpoint insert_prop (p : rna_prop) (sorted : list rna_prop) : list rna_prop :=
  match sorted with
  | [] => [p]
  | q :: rest =>
      if String.ltb (identifier p) (identifier q) then p :: sorted
      else q :: insert_prop p rest
  end.

Definition sort_props (props : list rna_prop) : list rna_prop :=
  fold_left (fun acc p => insert_prop p acc) props [].

Definition mem (x : string) (l : list string) : bool := existsb (String.eqb x) l.

(** [[f(x) for x in items]], stopping at the first exception. *)
Fixpoint map_result {A B : Type} (f : A -> result B) (items : list A) : result (list B) :=
  match items with
  | [] => Ok []
  | x :: rest =>
      y <- f x ;;
      ys <- map_result f rest ;;
      Ok (y :: ys)
  end.

(** [_iter_properties(idblock, defaults, skip_props, always_include)].  The
    function calls itself on the items of a collection; [depth] is the
    recursion depth the interpreter still allows. *)
Fixpoint _iter_properties (depth : nat) (h : bpy) (idblock : oid) (defaults : option oid)
         (skip_props always_include : list string) {struct depth} : result pydict :=
  match depth with
  | O => Raise (RuntimeError "maximum recursion depth exceeded")
  | S depth' =>
      (fix each (props : list rna_prop) (properties : pydict) : result pydict :=
         match props with
         | [] => Ok properties
         | prop :: rest =>
             if mem (identifier prop) skip_props then each rest properties
             else if is_hidden prop then each rest properties
             else
               match kind prop with
               | COLLECTION =>
                   coll <- attr h idblock (identifier prop) ;;
                   items <- as_coll coll ;;
                   dicts <- map_result
                              (fun p => _iter_properties depth' h p defaults
                                                         skip_props always_include)
                              items ;;
                   each rest (dict_set properties (_short_prop_name (identifier prop))
                                       (PList (map PDict dicts)))
               | _ =>
                   let force_include := mem (identifier prop) always_include in
                   if negb force_include && is_readonly prop then each rest properties
                   else
                     properties' <- _serialize_prop h properties idblock prop
                                      (if force_include then None else defaults) ;;
                     each rest properties'
               end
         end) (sort_props (properties_of h idblock)) []
  end.

(** *** Host methods the engine calls *)

Definition instantiate (t : struct_type) (extra : list (string * value)) : object :=
  {| rna_identifier := st_rna_identifier t;
     rna_bases := st_rna_bases t;
     rna_properties := st_rna_properties t;
     attrs := fold_left (fun d kv => dict_set d (fst kv) (snd kv)) extra (st_attrs t) |}.

Fixpoint heap_remove (hp : list (oid * object)) (o : oid) : list (oid * object) :=
  match hp with
  | [] => []
  | (o', x) :: rest =>
      if Nat.eqb o' o then heap_remove rest o else (o', x) :: heap_remove rest o
  end.

Definition free (o : oid) : M unit :=
  fun h => (Ok tt, with_heap h (heap_remove (heap h) o) (next_oid h)).

Definition remove_oid (o : oid) (l : list oid) : list oid :=
  filter (fun x => negb (Nat.eqb x o)) l.

(** [bpy.data.node_groups]. *)
Definition node_groups (h : bpy) : list oid :=
  match dict_get (data h) "node_groups" with Some c => c | None => [] end.

Definition set_node_groups (groups : list oid) : M unit :=
  fun h => (Ok tt, with_data h (dict_set (data h) "node_groups" groups)).

(** The names of the structs of a collection. *)
Definition names_of (h : bpy) (items : list oid) : list string :=
  flat_map (fun o => match getattr h o "name" with VStr s => [s] | _ => [] end) items.

(** [collection.get(name)]. *)
Fixpoint find_by_name (h : bpy) (items : list oid) (name : string) : option oid :=
  match items with
  | [] => None
  | o :: rest =>
      match getattr h o "name" with
      | VStr s => if String.eqb s name then Some o else find_by_name h rest name
      | _ => find_by_name h rest name
      end
  end.

Definition pad3 (n : nat) : string :=
  let s := str_of_nat n in
  String.concat "" (repeat "0" (3 - String.length s)) ++ s.

(** The name the host gives when [name] is taken: [name.001], [name.002], ... *)
Fixpoint fresh_name (fuel n : nat) (taken : list string) (base : string) : string :=
  let candidate := base ++ "." ++ pad3 n in
  if mem candidate taken then
    match fuel with
    | O => candidate
    | S fuel' => fresh_name fuel' (S n) taken base
    end
  else candidate.

Definition unique_name (taken : list string) (name : string) : string :=
  if mem name taken then fresh_name (length taken) 1 taken name else name.

Definition lookup_type {T : Type} (registry : list (string * T)) (idname : string)
  : M T :=
  fun h =>
    match dict_get registry idname with
    | Some t => (Ok t, h)
    | None => (Raise (RuntimeError ("type " ++ idname ++ " undefined")), h)
    end.

(** [bpy.data.node_groups.new(name, type)]: a new empty tree with its
    interface; the host makes the name unique. *)
Definition node_groups_new (name : string) (tree_idname : string) : M oid :=
  fun h =>
    (tree_type <~ lookup_type (struct_types h) tree_idname ;;
     interface_type <~ lookup_type (struct_types h) "NodeTreeInterface" ;;
     panel_type <~ lookup_type (struct_types h) "NodeTreeInterfacePanel" ;;
     root <~ alloc (instantiate panel_type [("index", VInt (-1))]) ;;
     interface <~ alloc (instantiate interface_type
                           [("items_tree", VColl []); ("root_panel", VRef root)]) ;;
     tree <~ alloc (instantiate tree_type
                      [("name", VStr (unique_name (names_of h (node_groups h)) name));
                       ("bl_idname", VStr tree_idname);
                       ("nodes", VColl []); ("links", VColl []);
                       ("interface", VRef interface)]) ;;
     set_node_groups (node_groups h ++ [tree])%list ~;;
     ret tree) h.

(** Appending to a collection attribute. *)
Definition coll_append (owner : oid) (name : string) (item : oid) : M unit :=
  c <~ read (fun h => attr h owner name) ;;
  items <~ lift (as_coll c) ;;
  store_attr owner name (VColl (items ++ [item])%list).

(** The items of a collection attribute, none when it is missing. *)
Definition coll_items (h : bpy) (owner : oid) (name : string) : list oid :=
  match getattr h owner name with
  | VColl items => items
  | _ => []
  end.

(** Taking an item out of a collection attribute, when it is there. *)
Definition coll_remove (owner : oid) (name : string) (item : oid) : M unit :=
  fun h =>
    match getattr h owner name with
    | VColl items =>
        match store_attr owner name (VColl (remove_oid item items)) h with
        | (_, h') => (Ok tt, h')
        end
    | _ => (Ok tt, h)
    end.

(** The sockets of a new node. *)
Fixpoint new_sockets (node : oid) (is_output : bool) (types : list struct_type)
  : M (list oid) :=
  match types with
  | [] => ret []
  | t :: rest =>
      s <~ alloc (instantiate t [("node", VRef node); ("is_output", VBool is_output);
                                 ("links", VColl [])]) ;;
      ss <~ new_sockets node is_output rest ;;
      ret (s :: ss)
  end.

(** [tree.nodes.new(idname)]: a node of that type in its default state. *)
Definition nodes_new (tree : oid) (idname : string) : M oid :=
  fun h =>
    (t <~ lookup_type (node_types h) idname ;;
     node <~ alloc (instantiate (nt_struct t)
                      [("bl_idname", VStr idname); ("id_data", VRef tree);
                       ("parent", VNone); ("inputs", VColl []); ("outputs", VColl [])]) ;;
     inputs <~ new_sockets node false (nt_inputs t) ;;
     outputs <~ new_sockets node true (nt_outputs t) ;;
     store_attr node "inputs" (VColl inputs) ~;;
     store_attr node "outputs" (VColl outputs) ~;;
     coll_append tree "nodes" node ~;;
     ret node) h.

(** [tree.nodes.remove(node)]: the node and its sockets are freed.  The
    host raises when the node is not one of the tree; the engine only removes
    nodes it has just made there, and the model removes what it finds. *)
Definition nodes_remove (tree : oid) (node : oid) : M unit :=
  fun h =>
    (coll_remove tree "nodes" node ~;;
     for_each (coll_items h node "inputs" ++ coll_items h node "outputs")%list free ~;;
     free node) h.

(** [bpy.data.node_groups.remove(tree)]: the tree, what is left of its
    nodes, and its interface are freed. *)
Definition node_groups_remove (tree : oid) : M unit :=
  fun h =>
    (for_each (coll_items h tree "nodes") (nodes_remove tree) ~;;
     match getattr h tree "interface" with
     | VRef i =>
         for_each (coll_items h i "items_tree") free ~;;
         match getattr h i "root_panel" with VRef r => free r | _ => ret tt end ~;;
         free i
     | _ => ret tt
     end ~;;
     (fun h' => set_node_groups (remove_oid tree (node_groups h')) h') ~;;
     free tree) h.

(** [interface.new_socket(name, description, in_out, socket_type)] and
    [interface.new_panel(name, description, default_closed)]: a new item,
    last in [items_tree], under the root panel. *)
Definition interface_new_item (tree : oid) (type_name : string)
           (extra : list (string * value)) : M oid :=
  fun h =>
    (interface <~ read (fun h => attr h tree "interface") ;;
     match interface with
     | VRef i =>
         t <~ lookup_type (struct_types h) type_name ;;
         items <~ read (fun h => as_coll (getattr h i "items_tree")) ;;
         item <~ alloc (instantiate t
                          (extra ++ [("parent", getattr h i "root_panel");
                                     ("index", VInt (Z.of_nat (length items)))])%list) ;;
         coll_append i "items_tree" item ~;;
         ret item
     | _ => raise (AttributeError "interface")
     end) h.

Definition interface_new_socket (tree : oid) (name description in_out socket_type : string)
  : M oid :=
  interface_new_item tree socket_type
    [("name", VStr name); ("description", VStr description);
     ("in_out", VStr in_out); ("socket_type", VStr socket_type)].

Definition interface_new_panel (tree : oid) (name description : string)
           (default_closed : value) : M oid :=
  interface_new_item tree "NodeTreeInterfacePanel"
    [("name", VStr name); ("description", VStr description);
     ("default_closed", default_closed)].

(** [interface.move_to_parent(item, parent, to_position)]; an item is moved
    right after it is made, when it is the last one, so the order of
    [items_tree] stays. *)
Definition interface_move_to_parent (item parent : oid) : M unit :=
  store_attr item "parent" (VRef parent).

(** [isinstance(socket, bpy.types.NodeSocketVirtual)]. *)
Definition is_virtual (h : bpy) (socket : oid) : bool :=
  mem "NodeSocketVirtual" (bl_rna h socket).

(** [tree.links.new(a, b)]: the host takes the two sockets in either order
    and links the output one to the input one. *)
Definition links_new (tree : oid) (a b : oid) : M oid :=
  fun h =>
    match getattr h a "is_output", getattr h b "is_output" with
    | VBool a_out, VBool b_out =>
        if Bool.eqb a_out b_out then
          (Raise (RuntimeError "Same input/output direction of sockets"), h)
        else
          let from_socket := if a_out then a else b in
          let to_socket := if a_out then b else a in
          (link <~ alloc {| rna_identifier := "NodeLink"; rna_bases := ["bpy_struct"];
                            rna_properties := [];
                            attrs := [("from_node", getattr h from_socket "node");
                                      ("from_socket", VRef from_socket);
                                      ("to_node", getattr h to_socket "node");
                                      ("to_socket", VRef to_socket)] |} ;;
           coll_append tree "links" link ~;;
           coll_append from_socket "links" link ~;;
           coll_append to_socket "links" link ~;;
           ret link) h
    | _, _ => (Raise (TypeError "expected a NodeSocket"), h)
    end.

(** [node.pair_with_output(out_node)]. *)
Definition pair_with_output (node out_node : oid) : M unit :=
  store_attr node "paired_output" (VRef out_node).

(** *** Serializing nodes *)

(** [repr(val)], the [%r] of the message of [_socket_index].  The host's
    text for a struct (its data path) is not modelled: a struct is shown by
    the number of its object. *)
Definition repr_of_struct (s : oid) : string := "<bpy_struct " ++ str_of_nat s ++ ">".

Definition repr_of_value (v : value) : string :=
  match v with
  | VRef s => repr_of_struct s
  | VNone => "None"
  | _ => str_of_struct v
  end.

(** [raise ValueError("%r not found in sockets" % s)]. *)
Definition socket_not_found {A : Type} (s : value) : result A :=
  Raise (ValueError (repr_of_value s ++ " not found in sockets")).

(** [_socket_index(sockets, s)]. *)
Fixpoint _socket_index_from (i : nat) (sockets : list oid) (s : oid) : result nat :=
  match sockets with
  | [] => socket_not_found (VRef s)
  | x :: rest => if Nat.eqb x s then Ok i else _socket_index_from (S i) rest s
  end.

Definition _socket_index (sockets : list oid) (s : oid) : result nat :=
  _socket_index_from 0 sockets s.

(** The key [(bl_idname, node_tree)] of [default_nodes]. *)
Definition type_key : Type := string * option oid.

Definition type_key_eqb (a b : type_key) : bool :=
  String.eqb (fst a) (fst b) &&
  match snd a, snd b with
  | Some x, Some y => Nat.eqb x y
  | None, None => true
  | _, _ => false
  end.

Fixpoint key_get {V : Type} (d : list (type_key * V)) (key : type_key) : option V :=
  match d with
  | [] => None
  | (k, v) :: rest => if type_key_eqb k key then Some v else key_get rest key
  end.

Fixpoint key_set {V : Type} (d : list (type_key * V)) (key : type_key) (v : V)
  : list (type_key * V) :=
  match d with
  | [] => [(key, v)]
  | (k, w) :: rest =>
      if type_key_eqb k key then (k, v) :: rest else (k, w) :: key_set rest key v
  end.

(** [getattr(node, "node_tree", None)] as a tree or [None]. *)
Definition node_tree_of (h : bpy) (node : oid) : option oid :=
  match getattr h node "node_tree" with
  | VRef t => Some t
  | _ => None
  end.

Definition node_skip_props : list string :=
  ["inputs"; "outputs"; "internal_links"; "parent";
   "select"; "location"; "socket_idname"; "active_index";
   "active_generation_index"; "active_input_index"; "active_main_index"].

(** The links of an input socket whose source is in the batch. *)
Fixpoint serialize_links (h : bpy) (node_names : list string) (links : list oid)
  : result (list pyval) :=
  match links with
  | [] => Ok []
  | link :: rest =>
      from_node <- attr h link "from_node" ;;
      name <- attr_of h from_node "name" ;;
      name_s <- as_str name ;;
      if mem name_s node_names then
        outputs <- attr_of h from_node "outputs" ;;
        outs <- as_coll outputs ;;
        from_socket <- attr h link "from_socket" ;;
        idx <- match from_socket with
               | VRef s => _socket_index outs s
               | _ => socket_not_found from_socket
               end ;;
        more <- serialize_links h node_names rest ;;
        Ok (PTuple [PStr name_s; PInt (Z.of_nat idx)] :: more)
      else serialize_links h node_names rest
  end.

(** The body of the loop over the sockets of one direction: the updated
    [sockets] mapping. *)
Definition serialize_socket (h : bpy) (is_reroute : bool) (socket_dir : string)
           (default_node : oid) (node_names : list string)
           (sockets : pydict) (i : nat) (socket : oid) : result pydict :=
  default_coll <- attr h default_node socket_dir ;;
  default_sockets <- as_coll default_coll ;;
  let default_socket :=
    match default_sockets with
    | [] => None
    | _ :: _ => nth_error default_sockets (Nat.min i (length default_sockets - 1))
    end in
  props <- (fix each (ks : list string) (props : pydict) : result pydict :=
              match ks with
              | [] => Ok props
              | k :: rest =>
                  match find_prop (properties_of h socket) k with
                  | Some prop =>
                      store <- (if String.eqb socket_dir "inputs" then Ok true
                                else v <- attr h socket (identifier prop) ;;
                                     Ok (_is_nonzero v)) ;;
                      if store : bool then
                        props' <- _serialize_prop h props socket prop default_socket ;;
                        each rest props'
                      else each rest props
                  | None => each rest props
                  end
              end)
           (if is_reroute then [] else ["default_value"; "hide"; "pin_gizmo"]) [] ;;
  props <- (if String.eqb socket_dir "inputs" then
              links_v <- attr h socket "links" ;;
              if truthy links_v then
                links <- as_coll links_v ;;
                recorded <- serialize_links h node_names links ;;
                Ok (dict_set props "links" (PList recorded))
              else Ok props
            else Ok props) ;;
  match props with
  | [] => Ok sockets
  | _ :: _ =>
      if String.eqb socket_dir "inputs" then
        name <- attr h socket "name" ;;
        let d := fold_left (fun d kv => dict_set d (fst kv) (snd kv)) props
                           [("name", to_py name)] in
        Ok (dict_set sockets (str_of_nat i) (PDict d))
      else Ok (dict_set sockets (str_of_nat i) (PDict props))
  end.

Fixpoint serialize_sockets (h : bpy) (is_reroute : bool) (socket_dir : string)
         (default_node : oid) (node_names : list string)
         (sockets : pydict) (i : nat) (rest : list oid) : result pydict :=
  match rest with
  | [] => Ok sockets
  | socket :: rest' =>
      sockets' <- serialize_socket h is_reroute socket_dir default_node node_names
                                   sockets i socket ;;
      serialize_sockets h is_reroute socket_dir default_node node_names sockets' (S i) rest'
  end.

(** The body of the loop of [_serialize_nodes]: the record of one node. *)
Definition serialize_node (h : bpy) (default_nodes : list (type_key * oid))
           (node_names : list string) (node : oid) : result pyval :=
  bl_idname <- attr h node "bl_idname" ;;
  idname <- as_str bl_idname ;;
  default_node <- match key_get default_nodes (idname, node_tree_of h node) with
                  | Some d => Ok d
                  | None => Raise (KeyError idname)
                  end ;;
  let node_dict := [("bl_idname", PStr idname)] in
  let group_tree := match node_tree_of h node with
                    | Some t => getattr h t "name"
                    | None => VNone
                    end in
  let node_dict := match group_tree with
                   | VNone => node_dict
                   | _ => dict_set node_dict "node_tree" (to_py group_tree)
                   end in
  node_dict <- match getattr h node "paired_output" with
               | VNone => Ok node_dict
               | paired =>
                   name <- attr_of h paired "name" ;;
                   Ok (dict_set node_dict "paired_output" (to_py name))
               end ;;
  let is_reroute := String.eqb idname "NodeReroute" in
  props <- _iter_properties (recursion_limit h) h node (Some default_node)
             (node_skip_props ++ (if is_reroute then ["width"] else []))%list ["name"] ;;
  let node_dict := dict_set node_dict "props" (PDict props) in
  node_dict <-
    (fix each (dirs : list string) (node_dict : pydict) : result pydict :=
       match dirs with
       | [] => Ok node_dict
       | socket_dir :: rest =>
           coll <- attr h node socket_dir ;;
           socks <- as_coll coll ;;
           sockets <- serialize_sockets h is_reroute socket_dir default_node node_names
                                        [] 0 socks ;;
           match sockets with
           | [] => each rest node_dict
           | _ :: _ => each rest (dict_set node_dict socket_dir (PDict sockets))
           end
       end) ["inputs"; "outputs"] node_dict ;;
  parent <- attr h node "parent" ;;
  match parent with
  | VNone => Ok (PDict node_dict)
  | _ =>
      name <- attr_of h parent "name" ;;
      Ok (PDict (dict_set node_dict "parent" (to_py name)))
  end.

(** [_serialize_nodes(nodes, default_nodes)]. *)
Definition _serialize_nodes (h : bpy) (nodes : list oid)
           (default_nodes : list (type_key * oid)) : result (list pyval) :=
  let node_names := names_of h nodes in
  map_result (serialize_node h default_nodes node_names) nodes.

(** *** Collecting the nested trees *)

(** [trees[parent].add(nt)]. *)
Fixpoint graph_add (g : graph) (parent nt : oid) : result graph :=
  match g with
  | [] => Raise (KeyError (str_of_nat parent))
  | (k, children) :: rest =>
      if Nat.eqb k parent then
        Ok ((k, if mem_oid nt children then children else (children ++ [nt])%list) :: rest)
      else
        rest' <- graph_add rest parent nt ;;
        Ok ((k, children) :: rest')
  end.

(** [trees[nt] = set()]. *)
Fixpoint graph_reset (g : graph) (nt : oid) : graph :=
  match g with
  | [] => [(nt, [])]
  | (k, children) :: rest =>
      if Nat.eqb k nt then (k, []) :: rest else (k, children) :: graph_reset rest nt
  end.

(** The loop of [_collect_trees].  [stack] is the deque, its left end first.
    Every pass appends to [all_nodes]; when that list reaches the memory
    limit the interpreter gives up, which bounds a walk that would otherwise
    go round a cycle of trees for ever. *)
Fixpoint collect_loop (budget : nat) (h : bpy) (stack : list (option oid * oid))
         (trees : graph) (all_nodes : list oid) : result (graph * list oid) :=
  match stack with
  | [] => Ok (trees, all_nodes)
  | (parent, node) :: stack' =>
      match budget with
      | O => Raise MemoryError
      | S budget' =>
          let all_nodes := (all_nodes ++ [node])%list in
          match node_tree_of h node with
          | Some nt =>
              expanded <-
                (if negb (mem_oid node (map fst trees)) then
                   nodes <- attr h nt "nodes" ;;
                   ns <- as_coll nodes ;;
                   Ok ((stack' ++ map (fun n => (Some nt, n)) ns)%list, graph_reset trees nt)
                 else Ok (stack', trees)) ;;
              trees' <- match parent with
                        | Some p => graph_add (snd expanded) p nt
                        | None => Ok (snd expanded)
                        end ;;
              collect_loop budget' h (fst expanded) trees' all_nodes
          | None => collect_loop budget' h stack' trees all_nodes
          end
      end
  end.

Definition _collect_trees (h : bpy) (nodes : list oid) : result (list oid * list oid) :=
  r <- collect_loop (memory_limit h) h (map (fun n => (None, n)) nodes) [] [] ;;
  order <- _topological_sort (fst r) ;;
  Ok (order, snd r).

(** *** [nodes_to_dict] *)

Definition prefix_b (p s : string) : bool := String.prefix p s.

(** [s.replace(old, new)] for a non-empty [old]; [skip] characters of a
    match just replaced are still to be dropped. *)
Fixpoint replace_from (skip : nat) (old new s : string) : string :=
  match s with
  | EmptyString => ""
  | String c rest =>
      match skip with
      | S skip' => replace_from skip' old new rest
      | O =>
          if prefix_b old s then new ++ replace_from (String.length old - 1) old new rest
          else String c (replace_from 0 old new rest)
      end
  end.

Definition replace (old new s : string) : string := replace_from 0 old new s.

(** [a < b] on version triples. *)
Definition version_lt (a b : Z * Z * Z) : bool :=
  let '(a1, a2, a3) := a in
  let '(b1, b2, b3) := b in
  (Z.ltb a1 b1 || (Z.eqb a1 b1 && (Z.ltb a2 b2 || (Z.eqb a2 b2 && Z.ltb a3 b3))))%bool.

(** The set [node_types], listed in the order the pairs were first added. *)
Fixpoint node_type_set (h : bpy) (all_nodes : list oid) (acc : list type_key)
  : result (list type_key) :=
  match all_nodes with
  | [] => Ok acc
  | node :: rest =>
      bl_idname <- attr h node "bl_idname" ;;
      idname <- as_str bl_idname ;;
      let key := (idname, node_tree_of h node) in
      node_type_set h rest
        (if existsb (type_key_eqb key) acc then acc else (acc ++ [key])%list)
  end.

(** The first loop after the defaults group is made: one default node per
    pair. *)
Fixpoint create_default_nodes (node_group : oid) (keys : list type_key)
         (default_nodes : list (type_key * oid)) : M (list (type_key * oid)) :=
  match keys with
  | [] => ret default_nodes
  | (idname, group_tree) :: rest =>
      default_node <~
        (fun h =>
           if version_lt (app_version h) (5, 0, 0)%Z
              && String.eqb idname "CompositorNodeRLayers"
           then nodes_new node_group "CompositorNodeRGB" h
           else nodes_new node_group idname h) ;;
      match group_tree with
      | Some t => setattr default_node "node_tree" (VRef t)
      | None => ret tt
      end ~;;
      create_default_nodes node_group rest
        (key_set default_nodes (idname, group_tree) default_node)
  end.

(** The loop that pairs the default zone input nodes. *)
Fixpoint pair_default_nodes (default_nodes items : list (type_key * oid)) : M unit :=
  match items with
  | [] => ret tt
  | ((idname, _), node) :: rest =>
      (fun h =>
         if hasattr h node "paired_output" then
           match key_get default_nodes (replace "Input" "Output" idname, None) with
           | Some out_node => pair_with_output node out_node h
           | None => (Ok tt, h)
           end
         else (Ok tt, h)) ~;;
      pair_default_nodes default_nodes rest
  end.

Definition tree_skip_props : list string := ["name"; "nodes"; "links"; "use_extra_user"].
Definition interface_skip_props : list string :=
  ["interface_items"; "bl_socket_idname"; "active_index"].

(** The record of one nested tree. *)
Definition serialize_tree (h : bpy) (default_nodes : list (type_key * oid))
           (default_socket node_group : oid) (tree : oid) : result (string * pyval) :=
  name <- attr h tree "name" ;;
  name_s <- as_str name ;;
  nodes <- attr h tree "nodes" ;;
  ns <- as_coll nodes ;;
  recs <- _serialize_nodes h ns default_nodes ;;
  interface <- attr h tree "interface" ;;
  iface <- match interface with
           | VRef i => _iter_properties (recursion_limit h) h i (Some default_socket)
                                        interface_skip_props ["in_out"; "parent"]
           | _ => Raise (AttributeError "bl_rna")
           end ;;
  props <- _iter_properties (recursion_limit h) h tree (Some node_group) tree_skip_props [] ;;
  Ok (name_s, PDict [("nodes", PList recs); ("interface", PDict iface);
                     ("props", PDict props)]).

(** The body of the [try] block: the finished document. *)
Definition serialize_document (h : bpy) (doc : pydict) (nodes trees : list oid)
           (default_nodes : list (type_key * oid)) (default_socket node_group : oid)
  : result pyval :=
  recs <- _serialize_nodes h nodes default_nodes ;;
  let doc := dict_set doc "nodes" (PList recs) in
  trees_dict <-
    (fix each (trees : list oid) (trees_dict : pydict) : result pydict :=
       match trees with
       | [] => Ok trees_dict
       | tree :: rest =>
           r <- serialize_tree h default_nodes default_socket node_group tree ;;
           each rest (dict_set trees_dict (fst r) (snd r))
       end) trees [] ;;
  match trees_dict with
  | [] => Ok (PDict doc)
  | _ :: _ => Ok (PDict (dict_set doc "node_trees" (PDict trees_dict)))
  end.

(** The [finally] block. *)
Definition remove_defaults (node_group : oid) (default_nodes : list (type_key * oid))
  : M unit :=
  for_each (map snd default_nodes) (nodes_remove node_group) ~;;
  node_groups_remove node_group.

(** What [nodes_to_dict] holds when it enters its [try] block. *)
Record defaults : Type := {
  d_trees : list oid;
  d_node_group : oid;
  d_default_nodes : list (type_key * oid);
  d_default_socket : oid;
  d_result : pydict
}.

(** [nodes_to_dict] up to its [try] block, for a selection whose first node
    is [first]: the trees are collected and the hidden group of default
    nodes is made. *)
Definition prepare_defaults (first : oid) (nodes : list oid) (include_groups : bool)
  : M defaults :=
  collected <~ (if include_groups then read (fun h => _collect_trees h nodes)
                else ret ([], nodes)) ;;
  let trees := fst collected in
  let all_nodes := snd collected in
  id_data <~ read (fun h => attr h first "id_data") ;;
  tree_type <~ read (fun h => attr_of h id_data "type") ;;
  node_types <~ read (fun h => node_type_set h all_nodes []) ;;
  tree_idname <~ read (fun h => attr_of h id_data "bl_idname") ;;
  tree_idname_s <~ lift (as_str tree_idname) ;;
  node_group <~ node_groups_new ".defaults" tree_idname_s ;;
  default_nodes <~ create_default_nodes node_group node_types [] ;;
  default_socket <~ interface_new_socket node_group "default" "" "INPUT"
                                         "NodeSocketFloat" ;;
  pair_default_nodes default_nodes default_nodes ~;;
  doc <~ read (fun h =>
                 let '(major, minor, patch) := app_version h in
                 Ok [("version", PInt JSON_SCHEMA_VERSION);
                     ("type", to_py tree_type);
                     ("app_version", PTuple [PInt major; PInt minor; PInt patch])]) ;;
  ret {| d_trees := trees; d_node_group := node_group;
         d_default_nodes := default_nodes; d_default_socket := default_socket;
         d_result := doc |}.

(** The [try] block and its [finally]. *)
Definition serialize_and_clean_up (nodes : list oid) (d : defaults) : M pyval :=
  try_finally
    (read (fun h => serialize_document h (d_result d) nodes (d_trees d)
                                       (d_default_nodes d) (d_default_socket d)
                                       (d_node_group d)))
    (remove_defaults (d_node_group d) (d_default_nodes d)).

(** [nodes_to_dict(nodes, include_groups=True)]. *)
Definition nodes_to_dict (nodes : list oid) (include_groups : bool) : M pyval :=
  match nodes with
  | [] => ret (PDict [])
  | first :: _ =>
      d <~ prepare_defaults first nodes include_groups ;;
      serialize_and_clean_up nodes d
  end.

(** ** A small host

    A handful of node, socket, tree and interface types, enough to run the
    engine on concrete graphs. *)

Definition prop (id : string) (k : prop_kind) : rna_prop :=
  {| identifier := id; kind := k; is_hidden := false; is_readonly := false;
     fixed_type := []; collection_rna := ""; new_parameters := None |}.
Definition prop_ro (id : string) (k : prop_kind) : rna_prop :=
  {| identifier := id; kind := k; is_hidden := false; is_readonly := true;
     fixed_type := []; collection_rna := ""; new_parameters := None |}.
Definition prop_ptr (id : string) (ro : bool) (target : list string) : rna_prop :=
  {| identifier := id; kind := POINTER; is_hidden := false; is_readonly := ro;
     fixed_type := target; collection_rna := ""; new_parameters := None |}.
Definition prop_coll (id rna item : string) (params : list string) : rna_prop :=
  {| identifier := id; kind := COLLECTION; is_hidden := false; is_readonly := true;
     fixed_type := [item; "bpy_struct"]; collection_rna := rna;
     new_parameters := Some params |}.

Definition float_zero : pyfloat := S754_zero false.
Definition float_one : pyfloat := float_of_Z 1.
Definition float_two : pyfloat := float_of_Z 2.
Definition float_half : pyfloat := binary_normalize 53 1024 1 (-1) false.

(** [numpy.float32(x)], as the double of the same value. *)
Definition numpy_float32 (f : pyfloat) : pyfloat :=
  match f with
  | S754_finite s m e =>
      match binary_normalize 24 128 (if s then Z.neg m else Z.pos m) e s with
      | S754_finite s' m' e' =>
          binary_normalize 53 1024 (if s' then Z.neg m' else Z.pos m') e' s'
      | other => other
      end
  | _ => f
  end.

Definition node_props : list rna_prop :=
  [prop "name" STRING; prop "label" STRING; prop "location" FLOAT;
   prop "location_absolute" FLOAT; prop "select" BOOLEAN; prop "mute" BOOLEAN;
   prop_ptr "parent" false ["Node"; "bpy_struct"];
   prop_ro "inputs" COLLECTION; prop_ro "outputs" COLLECTION;
   prop_ro "internal_links" COLLECTION; prop_ro "bl_idname" STRING].

Definition node_attrs (name : string) : list (string * value) :=
  [("name", VStr name); ("label", VStr "");
   ("location", VArray [VFloat float_zero; VFloat float_zero]);
   ("location_absolute", VArray [VFloat float_zero; VFloat float_zero]);
   ("select", VBool true); ("mute", VBool false);
   ("internal_links", VColl [])].

Definition node_struct (rna name : string) (props : list rna_prop)
           (attrs : list (string * value)) : struct_type :=
  {| st_rna_identifier := rna; st_rna_bases := ["Node"; "bpy_struct"];
     st_rna_properties := (node_props ++ props)%list;
     st_attrs := (node_attrs name ++ attrs)%list |}.

Definition socket_float (name : string) (default : pyfloat) : struct_type :=
  {| st_rna_identifier := "NodeSocketFloat";
     st_rna_bases := ["NodeSocketStandard"; "NodeSocket"; "bpy_struct"];
     st_rna_properties := [prop "name" STRING; prop "default_value" FLOAT;
                           prop "hide" BOOLEAN; prop "pin_gizmo" BOOLEAN;
                           prop_ro "links" COLLECTION];
     st_attrs := [("name", VStr name); ("default_value", VFloat default);
                  ("hide", VBool false); ("pin_gizmo", VBool false)] |}.

Definition tree_struct (rna type : string) : struct_type :=
  {| st_rna_identifier := rna; st_rna_bases := ["NodeTree"; "ID"; "bpy_struct"];
     st_rna_properties := [prop "name" STRING; prop "description" STRING;
                           prop "color_tag" ENUM; prop "use_extra_user" BOOLEAN;
                           prop_ro "type" ENUM; prop_ro "nodes" COLLECTION;
                           prop_ro "links" COLLECTION;
                           prop_ptr "interface" true ["NodeTreeInterface"; "bpy_struct"]];
     st_attrs := [("type", VStr type); ("description", VStr "");
                  ("color_tag", VStr "NONE"); ("use_extra_user", VBool false)] |}.

Definition interface_item_props : list rna_prop :=
  [prop "name" STRING; prop "description" STRING; prop_ro "item_type" ENUM;
   prop_ptr "parent" true ["NodeTreeInterfacePanel"; "NodeTreeInterfaceItem"; "bpy_struct"];
   prop_ro "index" INT].

Definition demo_struct_types : list (string * struct_type) :=
  [("ShaderNodeTree", tree_struct "ShaderNodeTree" "SHADER");
   ("GeometryNodeTree", tree_struct "GeometryNodeTree" "GEOMETRY");
   ("NodeTreeInterface",
    {| st_rna_identifier := "NodeTreeInterface"; st_rna_bases := ["bpy_struct"];
       st_rna_properties := [prop_ro "items_tree" COLLECTION; prop "active_index" INT];
       st_attrs := [("active_index", VInt 0)] |});
   ("NodeTreeInterfacePanel",
    {| st_rna_identifier := "NodeTreeInterfacePanel";
       st_rna_bases := ["NodeTreeInterfaceItem"; "bpy_struct"];
       st_rna_properties := (interface_item_props
                               ++ [prop "default_closed" BOOLEAN;
                                   prop_ro "interface_items" COLLECTION])%list;
       st_attrs := [("name", VStr ""); ("description", VStr "");
                    ("item_type", VStr "PANEL"); ("default_closed", VBool false);
                    ("interface_items", VColl [])] |});
   ("NodeSocketFloat",
    {| st_rna_identifier := "NodeTreeInterfaceSocketFloat";
       st_rna_bases := ["NodeTreeInterfaceSocket"; "NodeTreeInterfaceItem"; "bpy_struct"];
       st_rna_properties := (interface_item_props
                               ++ [prop_ro "in_out" ENUM; prop "socket_type" ENUM;
                                   prop "default_value" FLOAT; prop "min_value" FLOAT;
                                   prop "hide_value" BOOLEAN])%list;
       st_attrs := [("item_type", VStr "SOCKET"); ("default_value", VFloat float_zero);
                    ("min_value", VFloat float_zero); ("hide_value", VBool false)] |});
   ("NodeGeometryCaptureAttributeItem",
    {| st_rna_identifier := "NodeGeometryCaptureAttributeItem";
       st_rna_bases := ["bpy_struct"];
       st_rna_properties := [prop "name" STRING; prop "data_type" ENUM];
       st_attrs := [("name", VStr ""); ("data_type", VStr "FLOAT")] |})].

Definition demo_node_types : list (string * node_type) :=
  [("ShaderNodeMath",
    {| nt_struct := node_struct "ShaderNodeMath" "Math"
                      [prop "operation" ENUM; prop "use_clamp" BOOLEAN]
                      [("operation", VStr "ADD"); ("use_clamp", VBool false)];
       nt_inputs := [socket_float "Value" float_half; socket_float "Value" float_half];
       nt_outputs := [socket_float "Value" float_zero] |});
   ("ShaderNodeValue",
    {| nt_struct := node_struct "ShaderNodeValue" "Value" [] [];
       nt_inputs := [];
       nt_outputs := [socket_float "Value" float_zero] |});
   ("ShaderNodeGroup",
    {| nt_struct := node_struct "ShaderNodeGroup" "Group"
                      [prop_ptr "node_tree" false ["NodeTree"; "ID"; "bpy_struct"]]
                      [("node_tree", VNone)];
       nt_inputs := []; nt_outputs := [] |});
   ("NodeFrame",
    {| nt_struct := node_struct "NodeFrame" "Frame" [prop "shrink" BOOLEAN]
                      [("shrink", VBool true)];
       nt_inputs := []; nt_outputs := [] |});
   ("GeometryNodeCaptureAttribute",
    {| nt_struct := node_struct "GeometryNodeCaptureAttribute" "Capture Attribute"
                      [prop "domain" ENUM;
                       prop_coll "capture_items" "NodeGeometryCaptureAttributeItems"
                                 "NodeGeometryCaptureAttributeItem"
                                 ["socket_type"; "name"; "item"]]
                      [("domain", VStr "POINT"); ("capture_items", VColl [])];
       nt_inputs := []; nt_outputs := [] |})].

(** The host of the scenes below.  Its [float32_repr] rounds to single
    precision and takes the double of the same value; that is
    [float(repr(numpy.float32(x)))] on the floats the scenes hold (0, 0.5,
    1 and 2, which single precision and its shortest decimal form both
    represent exactly), not on a float like 0.1, whose shortest
    single-precision form reads back as another double. *)
Definition demo_host : bpy :=
  {| heap := []; next_oid := 1;
     data := [("node_groups", []); ("materials", [])];
     data_rna := [("NodeTree", "node_groups"); ("Material", "materials")];
     node_types := demo_node_types;
     struct_types := demo_struct_types;
     app_version := (4, 2, 0)%Z;
     float32_repr := numpy_float32;
     recursion_limit := 1000;
     memory_limit := 5000 |}.

(** The state a program leaves, and its result. *)
Definition run {A : Type} (c : M A) (h : bpy) : result A * bpy := c h.
Definition state_after {A : Type} (c : M A) (h : bpy) : bpy := snd (c h).
Definition result_of {A : Type} (c : M A) (h : bpy) : result A := fst (c h).

(** A material's tree [Main] with two group nodes: [Group] uses the group
    [B], [Group.001] uses the group [A], and [A] holds a group node that
    uses [B]. *)
Definition nested_scene : M (list oid) :=
  b <~ node_groups_new "B" "ShaderNodeTree" ;;
  a <~ node_groups_new "A" "ShaderNodeTree" ;;
  main <~ node_groups_new "Main" "ShaderNodeTree" ;;
  value <~ nodes_new b "ShaderNodeValue" ;;
  inner <~ nodes_new a "ShaderNodeGroup" ;;
  setattr inner "node_tree" (VRef b) ~;;
  n1 <~ nodes_new main "ShaderNodeGroup" ;;
  setattr n1 "node_tree" (VRef b) ~;;
  n2 <~ nodes_new main "ShaderNodeGroup" ;;
  setattr n2 "node_tree" (VRef a) ~;;
  setattr n2 "name" (VStr "Group.001") ~;;
  ret [n1; n2].

Definition nested_host : bpy := state_after nested_scene demo_host.
Definition nested_selection : list oid :=
  match result_of nested_scene demo_host with Ok sel => sel | Raise _ => [] end.

(** ** The deserializer *)

(** Reading a parsed document. *)
Definition py_dict (v : pyval) : result pydict :=
  match v with
  | PDict d => Ok d
  | _ => Raise (AttributeError ("'" ++ type_name_of v ++ "' object is not a dict"))
  end.

(** [d[key]]. *)
Definition py_item (v : pyval) (key : string) : result pyval :=
  d <- py_dict v ;;
  match dict_get d key with
  | Some x => Ok x
  | None => Raise (KeyError key)
  end.

(** [d.get(key)]. *)
Definition py_get (v : pyval) (key : string) : result (option pyval) :=
  d <- py_dict v ;;
  Ok (dict_get d key).

(** [d.get(key, {}).items()] and the like: the entries, none when the key
    is absent. *)
Definition py_entries (v : pyval) (key : string) : result pydict :=
  x <- py_get v key ;;
  match x with
  | Some sub => py_dict sub
  | None => Ok []
  end.

(** A value the schema has checked to be a string. *)
Definition py_str (v : pyval) : result string :=
  match v with
  | PStr s => Ok s
  | _ => Raise (TypeError ("expected str, got " ++ type_name_of v))
  end.

(** Iterating over a list or a tuple. *)
Definition py_seq (v : pyval) : result (list pyval) :=
  match seq_items v with
  | Some items => Ok items
  | None => Raise (TypeError ("'" ++ type_name_of v ++ "' object is not iterable"))
  end.

(** [bool(v)]. *)
Definition py_truthy (v : pyval) : bool :=
  match v with
  | PNone => false
  | PBool b => b
  | PInt z => negb (Z.eqb z 0)
  | PFloat f => negb (SFeqb f (S754_zero false))
  | PStr s => negb (String.eqb s "")
  | PList items | PTuple items => negb (Nat.eqb (length items) 0)
  | PDict d => negb (Nat.eqb (length d) 0)
  end.

(** A document value handed to the host. *)
Fixpoint of_py (v : pyval) : result value :=
  match v with
  | PNone => Ok VNone
  | PBool b => Ok (VBool b)
  | PInt z => Ok (VInt z)
  | PFloat f => Ok (VFloat f)
  | PStr s => Ok (VStr s)
  | PList items | PTuple items =>
      vs <- (fix each (items : list pyval) : result (list value) :=
               match items with
               | [] => Ok []
               | x :: rest => y <- of_py x ;; ys <- each rest ;; Ok (y :: ys)
               end) items ;;
      Ok (VArray vs)
  | PDict _ => Raise (TypeError "a dict cannot be assigned to a property")
  end.

(** [a + b] on numbers. *)
Definition py_add (a b : pyval) : result pyval :=
  match a, b with
  | PFloat x, PFloat y => Ok (PFloat (SFadd 53 1024 x y))
  | PInt x, PFloat y => Ok (PFloat (SFadd 53 1024 (float_of_Z x) y))
  | PFloat x, PInt y => Ok (PFloat (SFadd 53 1024 x (float_of_Z y)))
  | PInt x, PInt y => Ok (PInt (x + y))
  | _, _ => Raise (TypeError "unsupported operand type(s) for +")
  end.

(** [seq[i]] for an [int] index, negative ones counting from the end. *)
Definition index_at {A : Type} (items : list A) (i : Z) : result A :=
  let n := Z.of_nat (length items) in
  let j := if Z.ltb i 0 then (i + n)%Z else i in
  if (Z.leb 0 j && Z.ltb j n)%bool then
    match nth_error items (Z.to_nat j) with
    | Some x => Ok x
    | None => Raise (IndexError "index out of range")
    end
  else Raise (IndexError "index out of range").

Definition py_index (v : pyval) (i : Z) : result pyval :=
  items <- py_seq v ;;
  index_at items i.

(** [int(s)] for a string: white space around the literal is dropped, the
    literal is an optional sign and decimal digits, and single underscores
    may stand between digits.  [after_digit] tells that the character
    before was a digit.  The message of the error shows the text between
    quotes, without the escapes of [repr]. *)
Definition is_space (c : ascii) : bool :=
  existsb (Nat.eqb (nat_of_ascii c)) [9; 10; 11; 12; 13; 28; 29; 30; 31; 32; 133; 160]%nat.

Fixpoint lstrip (s : string) : string :=
  match s with
  | EmptyString => ""
  | String c rest => if is_space c then lstrip rest else s
  end.

Fixpoint rstrip (s : string) : string :=
  match s with
  | EmptyString => ""
  | String c rest =>
      match rstrip rest with
      | EmptyString => if is_space c then "" else String c ""
      | rest' => String c rest'
      end
  end.

Fixpoint digits_value (s : string) (acc : Z) (after_digit : bool) : option Z :=
  match s with
  | EmptyString => if after_digit then Some acc else None
  | String c rest =>
      let n := nat_of_ascii c in
      if (Nat.leb 48 n && Nat.leb n 57)%bool then
        digits_value rest (acc * 10 + Z.of_nat (n - 48)) true
      else if (Nat.eqb n 95 && after_digit)%bool then digits_value rest acc false
      else None
  end.

(** The number of digits [int] converts at most
    ([sys.get_int_max_str_digits()]). *)
Definition int_max_str_digits : nat := 4300.

Definition count_digits (s : string) : nat :=
  length (filter (fun c => negb (Nat.eqb (nat_of_ascii c) 95)) (list_ascii_of_string s)).

Definition py_int (s : string) : result Z :=
  let invalid := ValueError ("invalid literal for int() with base 10: '" ++ s ++ "'") in
  let parse (digits : string) : result Z :=
    match digits_value digits 0 false with
    | Some z =>
        if Nat.ltb int_max_str_digits (count_digits digits)
        then Raise (ValueError "Exceeds the limit (4300 digits) for integer string conversion")
        else Ok z
    | None => Raise invalid
    end in
  match rstrip (lstrip s) with
  | String "-"%char rest => z <- parse rest ;; Ok (- z)%Z
  | String "+"%char rest => parse rest
  | literal => parse literal
  end.

Definition _map_attribute_to_socket_type (attr : option pyval) : result pyval :=
  let table :=
    [("FLOAT", "FLOAT"); ("INT", "INT"); ("FLOAT_VECTOR", "VECTOR");
     ("FLOAT_COLOR", "RGBA"); ("BOOLEAN", "BOOLEAN"); ("QUATERNION", "ROTATION");
     ("FLOAT4X4", "MATRIX"); ("BYTE_COLOR", "RGBA"); ("STRING", "STRING");
     ("FLOAT2", "VECTOR"); ("INT8", "INT"); ("INT16_2D", "VECTOR");
     ("INT32_2D", "VECTOR")] in
  match attr with
  | Some (PStr a) =>
      match dict_get table a with
      | Some t => Ok (PStr t)
      | None => Raise (KeyError a)
      end
  | _ => Raise (KeyError "None")
  end.

(** [_set_prop_on_idblock(idblock, identifier, value)]. *)
Definition _set_prop_on_idblock (idblock : oid) (identifier : string) (v : pyval)
  : M unit :=
  fun h =>
    match find_prop (properties_of h idblock) identifier with
    | None => (Ok tt, h)
    | Some prop =>
        match kind prop with
        | POINTER =>
            match v with
            | PStr name =>
                if py_truthy v then
                  match _get_data_collection h (fixed_type prop) with
                  | Some (c :: cs) =>
                      match find_by_name h (c :: cs) name with
                      | Some ptr_value => setattr idblock identifier (VRef ptr_value) h
                      | None => (Ok tt, h)
                      end
                  | _ => (Ok tt, h)
                  end
                else (Ok tt, h)
            | _ => (Ok tt, h)
            end
        | _ => (x <~ lift (of_py v) ;; setattr idblock identifier x) h
        end
    end.

(** *** Creating nodes *)

(** Matching the fields of a recorded collection item to the parameters of
    the collection's [new]: the arguments and the keys they used up. *)
Fixpoint match_parameters (collection_rna : string) (item : pyval)
         (new_params : list string) (params : list (string * pyval))
         (used_keys : list string) : result (list (string * pyval) * list string) :=
  match new_params with
  | [] => Ok (params, used_keys)
  | p :: rest =>
      found <- (if String.eqb collection_rna "NodeGeometryCaptureAttributeItems"
                   && String.eqb p "socket_type"
                then
                  a <- py_get item "data_type" ;;
                  np <- _map_attribute_to_socket_type a ;;
                  Ok ("data_type", Some np)
                else
                  np <- py_get item p ;;
                  Ok (p, np)) ;;
      match snd found with
      | Some np =>
          if py_truthy np then
            match_parameters collection_rna item rest (params ++ [(p, np)])%list
                             (used_keys ++ [fst found])%list
          else Ok (params, used_keys)
      | None => Ok (params, used_keys)
      end
  end.

(** [collection.new] on the matched arguments: a new item with the arguments stored under
    the parameters' names. *)
Definition collection_new (owner : oid) (k : string) (prop : rna_prop)
           (params : list (string * pyval)) : M oid :=
  fun h =>
    (t <~ lookup_type (struct_types h) (hd "" (fixed_type prop)) ;;
     args <~ lift (map_result (fun kv => x <- of_py (snd kv) ;; Ok (fst kv, x)) params) ;;
     obj <~ alloc (instantiate t args) ;;
     coll_append owner k obj ~;;
     ret obj) h.

(** The branch of [_create_nodes] for a read-only collection property. *)
Definition rebuild_collection (node : oid) (k : string) (prop : rna_prop) (v : pyval)
  : M unit :=
  read (fun h => attr h node k) ~;;
  new_params <~ match new_parameters prop with
                | Some ps => ret ps
                | None => raise (KeyError "new")
                end ;;
  store_attr node k (VColl []) ~;;
  items <~ lift (py_seq v) ;;
  for_each items
    (fun item =>
       matched <~ lift (match_parameters (collection_rna prop) item new_params [] []) ;;
       obj <~ collection_new node k prop (fst matched) ;;
       entries <~ lift (py_dict item) ;;
       for_each entries
         (fun kv =>
            if mem (fst kv) (snd matched) then ret tt
            else x <~ lift (of_py (snd kv)) ;; setattr obj (fst kv) x)).

(** [created]: the batch, by recorded name. *)
Definition created_map : Type := list (string * (pyval * oid)).

(** ["Output" in s]. *)
Definition contains (needle s : string) : bool :=
  match String.index 0 needle s with Some _ => true | None => false end.

(** [sorted(created.values(), key=lambda x: "Output" not in x[0]["bl_idname"])]:
    the records whose type names an output first, each group in its order. *)
Definition outputs_first (created : created_map) : result (list (pyval * oid)) :=
  flags <- map_result
             (fun e => bl_idname <- py_item (fst (snd e)) "bl_idname" ;;
                       s <- py_str bl_idname ;;
                       Ok (contains "Output" s, snd e)) created ;;
  Ok (map snd (filter (fun fe => fst fe) flags)
        ++ map snd (filter (fun fe => negb (fst fe)) flags))%list.

(** [len(getattr(node, key))] sockets, and the one at an index. *)
Definition sockets_of (h : bpy) (node : oid) (key : string) : result (list oid) :=
  c <- attr h node key ;;
  as_coll c.

(** [_iterate_sockets(node, nd, key)], with the loop body that consumes what
    the generator yields. *)
Definition _iterate_sockets (node : oid) (nd : pyval) (key : string)
           (body : pyval -> oid -> M unit) : M unit :=
  entries <~ lift (py_entries nd key) ;;
  for_each entries
    (fun e =>
       i <~ lift (py_int (fst e)) ;;
       sockets <~ read (fun h => sockets_of h node key) ;;
       if Z.leb (Z.of_nat (length sockets)) i then ret tt
       else
         socket <~ lift (index_at sockets i) ;;
         body (snd e) socket).

(** The first loop of [_create_nodes]: the nodes are made and named. *)
Fixpoint create_batch (target_tree : oid) (nodes : list pyval)
         (trees : list (string * oid)) (raw_trees : pydict) (created : created_map)
  : M created_map :=
  match nodes with
  | [] => ret created
  | nd :: rest =>
      bl_idname <~ lift (py_item nd "bl_idname") ;;
      idname <~ lift (py_str bl_idname) ;;
      node <~ nodes_new target_tree idname ;;
      group_tree_name <~ lift (py_get nd "node_tree") ;;
      match group_tree_name with
      | Some (PNone) | None => ret tt
      | Some name_v =>
          name <~ lift (py_str name_v) ;;
          group_tree <~
            match dict_get trees name with
            | Some t => ret (Some t)
            | None =>
                if dict_has raw_trees name then
                  raise (ValueError ("node group used before definition: " ++ name))
                else (fun h => (Ok (find_by_name h (node_groups h) name), h))
            end ;;
          match group_tree with
          | Some t => setattr node "node_tree" (VRef t)
          | None => ret tt
          end
      end ~;;
      props <~ lift (py_item nd "props") ;;
      name_v <~ lift (py_item props "name") ;;
      name_x <~ lift (of_py name_v) ;;
      setattr node "name" name_x ~;;
      name <~ lift (py_str name_v) ;;
      create_batch target_tree rest trees raw_trees (dict_set created name (nd, node))
  end.

(** The second loop: parents, pairings and properties. *)
Definition apply_relations_and_props (location_offset : pyfloat * pyfloat)
           (created : created_map) (nd : pyval) (node : oid) : M unit :=
  d <~ lift (py_dict nd) ;;
  (match dict_get d "parent" with
   | Some parent_name =>
       name <~ lift (py_str parent_name) ;;
       setattr node "parent"
               (match dict_get created name with
                | Some (_, parent) => VRef parent
                | None => VNone
                end)
   | None => ret tt
   end) ~;;
  (match dict_get d "paired_output" with
   | Some out_name =>
       name <~ lift (py_str out_name) ;;
       match dict_get created name with
       | Some (_, out_node) => pair_with_output node out_node
       | None => ret tt
       end
   | None => ret tt
   end) ~;;
  props <~ lift (py_entries nd "props") ;;
  for_each props
    (fun kv =>
       let k := _long_prop_name (fst kv) in
       let v := snd kv in
       prop <~ (fun h => match find_prop (properties_of h node) k with
                         | Some p => (Ok p, h)
                         | None => (Raise (AttributeError "is_readonly"), h)
                         end) ;;
       if negb (is_readonly prop) then
         v' <~ (if String.eqb k "location_absolute" then
                  x <~ lift (py_index v 0) ;;
                  y <~ lift (py_index v 1) ;;
                  x' <~ lift (py_add x (PFloat (fst location_offset))) ;;
                  y' <~ lift (py_add y (PFloat (snd location_offset))) ;;
                  ret (PList [x'; y'])
                else ret v) ;;
         _set_prop_on_idblock node k v'
       else
         match kind prop with
         | COLLECTION => rebuild_collection node k prop v
         | _ => ret tt
         end).

(** The body of the innermost loop over the recorded links of one input
    socket. *)
Definition create_link (target_tree : oid) (created : created_map)
           (from_socket : oid) (link : pyval) : M unit :=
  pair <~ lift (py_seq link) ;;
  match pair with
  | [from_name; socket_index] =>
      name <~ lift (py_str from_name) ;;
      match dict_get created name with
      | None => ret tt
      | Some (_, other) =>
          idx <~ lift (match socket_index with
                       | PInt z => Ok z
                       | PBool b => Ok (Z_of_bool b)
                       | _ => Raise (TypeError "'>=' not supported")
                       end) ;;
          outputs <~ read (fun h => sockets_of h other "outputs") ;;
          if Z.leb (Z.of_nat (length outputs)) idx then ret tt
          else
            to_socket <~ lift (index_at outputs idx) ;;
            (fun h =>
               if is_virtual h from_socket then (Ok tt, h)
               else if is_virtual h to_socket then (Ok tt, h)
               else (links_new target_tree from_socket to_socket ~;; ret tt) h)
      end
  | _ => raise (ValueError "not enough values to unpack")
  end.

(** The third loop: the links of the input sockets. *)
Definition create_links (target_tree : oid) (created : created_map)
           (nd : pyval) (node : oid) : M unit :=
  _iterate_sockets node nd "inputs"
    (fun sd from_socket =>
       recorded <~ lift (x <- py_get sd "links" ;;
                         match x with
                         | Some l => py_seq l
                         | None => Ok []
                         end) ;;
       for_each recorded (create_link target_tree created from_socket)).

(** [sorted(sd.items(), key=lambda x: x[0] != "socket_type")]. *)
Definition socket_type_first (sd : pydict) : pydict :=
  (filter (fun kv => String.eqb (fst kv) "socket_type") sd
     ++ filter (fun kv => negb (String.eqb (fst kv) "socket_type")) sd)%list.

(** The fourth loop: the values of the sockets. *)
Definition set_socket_values (nd : pyval) (node : oid) : M unit :=
  for_each ["inputs"; "outputs"]
    (fun socket_dir =>
       _iterate_sockets node nd socket_dir
         (fun sd socket =>
            entries <~ lift (py_dict sd) ;;
            for_each (socket_type_first entries)
              (fun kv =>
                 let k := _long_prop_name (fst kv) in
                 if mem k ["name"; "links"] then ret tt
                 else _set_prop_on_idblock socket k (snd kv)))).

(** [_create_nodes(target_tree, location_offset, nodes, trees, raw_trees)]. *)
Definition _create_nodes (target_tree : oid) (location_offset : pyfloat * pyfloat)
           (nodes : list pyval) (trees : list (string * oid)) (raw_trees : pydict)
  : M unit :=
  created <~ create_batch target_tree nodes trees raw_trees [] ;;
  ordered <~ lift (outputs_first created) ;;
  for_each ordered
    (fun e => apply_relations_and_props location_offset created (fst e) (snd e)) ~;;
  for_each (map snd created)
    (fun e => create_links target_tree created (fst e) (snd e)) ~;;
  for_each ordered (fun e => set_socket_values (fst e) (snd e)).

(** *** Reusing an existing sub-graph *)

(** [a == b] between a document value and an attribute value. *)
Fixpoint py_value_eqb (a : pyval) (b : value) {struct a} : bool :=
  match a, b with
  | PNone, VNone => true
  | PBool x, VBool y => Bool.eqb x y
  | PBool x, VInt y => Z.eqb (Z_of_bool x) y
  | PInt x, VBool y => Z.eqb x (Z_of_bool y)
  | PInt x, VInt y => Z.eqb x y
  | PBool x, VFloat y => SFeqb (float_of_Z (Z_of_bool x)) y
  | PFloat x, VBool y => SFeqb x (float_of_Z (Z_of_bool y))
  | PInt x, VFloat y => SFeqb (float_of_Z x) y
  | PFloat x, VInt y => SFeqb x (float_of_Z y)
  | PFloat x, VFloat y => SFeqb x y
  | PStr x, VStr y => String.eqb x y
  | PList xs, VArray ys =>
      (fix all2 (xs : list pyval) (ys : list value) {struct xs} : bool :=
         match xs, ys with
         | [], [] => true
         | x :: xs', y :: ys' => py_value_eqb x y && all2 xs' ys'
         | _, _ => false
         end) xs ys
  | _, _ => false
  end.

(** [numpy.float32(x)] on a document value and on an attribute value: a
    string is a [ValueError], anything else that is no number a [TypeError]. *)
Definition py_float32 (x : pyval) : result pyfloat :=
  match x with
  | PFloat f => Ok (numpy_float32 f)
  | PInt z => Ok (numpy_float32 (float_of_Z z))
  | PBool b => Ok (numpy_float32 (float_of_Z (Z_of_bool b)))
  | PStr _ => Raise (ValueError "could not convert string to float")
  | _ => Raise (TypeError "float() argument must be a string or a real number")
  end.

Definition value_float32 (x : value) : result pyfloat :=
  match x with
  | VFloat f => Ok (numpy_float32 f)
  | VInt z => Ok (numpy_float32 (float_of_Z z))
  | VBool b => Ok (numpy_float32 (float_of_Z (Z_of_bool b)))
  | VStr _ => Raise (ValueError "could not convert string to float")
  | _ => Raise (TypeError "float() argument must be a string or a real number")
  end.

(** [list(id_v)]: the items of an array or a collection, the characters of
    a string. *)
Definition list_of_value (v : value) : result (list value) :=
  match v with
  | VArray items => Ok items
  | VColl items => Ok (map VRef items)
  | VStr s => Ok (map (fun c => VStr (String c "")) (list_ascii_of_string s))
  | _ => Raise (TypeError "object is not iterable")
  end.

Fixpoint floats_eqb (xs ys : list pyfloat) : bool :=
  match xs, ys with
  | [], [] => true
  | x :: xs', y :: ys' => SFeqb x y && floats_eqb xs' ys'
  | _, _ => false
  end.

(** What the [try] block of [_has_equal_interface] may end in. *)
Definition catch_value_error (r : result bool) : result bool :=
  match r with
  | Raise (ValueError _) => Ok false
  | other => other
  end.

(** One recorded property of an interface item against the live item: does
    [v == id_v] hold after the conversions of the source. *)
Definition item_value_equal (h : bpy) (k : string) (v : pyval) (id_v : value)
  : result bool :=
  match v with
  | PFloat f =>
      (* v = numpy.float32(v); id_v = numpy.float32(v) *)
      let v32 := numpy_float32 f in
      let id_v32 := numpy_float32 f in
      if String.eqb k "parent" then Raise (AttributeError "index")
      else Ok (SFeqb v32 id_v32)
  | PList items =>
      catch_value_error
        (id_items <- list_of_value id_v ;;
         match items with
         | PFloat _ :: _ =>
             v32 <- map_result py_float32 items ;;
             id_v32 <- map_result value_float32 id_items ;;
             if String.eqb k "parent" then Raise (AttributeError "index")
             else Ok (floats_eqb v32 id_v32)
         | _ =>
             if String.eqb k "parent" then Raise (AttributeError "index")
             else Ok (py_value_eqb (PList items) (VArray id_items))
         end)
  | _ =>
      if String.eqb k "parent" then
        idx <- attr_of h id_v "index" ;;
        Ok (py_value_eqb v idx)
      else Ok (py_value_eqb v id_v)
  end.

(** [_has_equal_interface(tree_dict, node_group)]. *)
Definition _has_equal_interface (h : bpy) (tree_dict : pyval) (node_group : oid)
  : result bool :=
  interface_rec <- py_item tree_dict "interface" ;;
  items_tree <- py_item interface_rec "items_tree" ;;
  items <- py_seq items_tree ;;
  interface <- attr h node_group "interface" ;;
  live_v <- attr_of h interface "items_tree" ;;
  live <- as_coll live_v ;;
  (fix each (i : nat) (items : list pyval) : result bool :=
     match items with
     | [] => Ok true
     | item :: rest =>
         match nth_error live i with
         | None => Ok false
         | Some id_item =>
             entries <- py_dict item ;;
             same <- (fix props (entries : pydict) : result bool :=
                        match entries with
                        | [] => Ok true
                        | (k0, v) :: more =>
                            let k := _long_prop_name k0 in
                            if negb (hasattr h id_item k) then Ok false
                            else
                              eq <- item_value_equal h k v (getattr h id_item k) ;;
                              if eq : bool then props more else Ok false
                        end) entries ;;
             if same : bool then each (S i) rest else Ok false
         end
     end) 0%nat items.

(** *** [dict_to_nodes] *)

(** A number of the document as a float. *)
Definition py_float (v : pyval) : result pyfloat :=
  match v with
  | PFloat f => Ok f
  | PInt z => Ok (float_of_Z z)
  | PBool b => Ok (float_of_Z (Z_of_bool b))
  | _ => Raise (TypeError "expected a number")
  end.

(** [min(a, b)] and [max(a, b)]. *)
Definition float_min (a b : pyfloat) : pyfloat := if SFltb b a then b else a.
Definition float_max (a b : pyfloat) : pyfloat := if SFltb a b then b else a.

Definition float_sub (a b : pyfloat) : pyfloat := SFadd 53 1024 a (SFopp b).
Definition float_mid (a b : pyfloat) : pyfloat :=
  SFmul 53 1024 float_half (SFadd 53 1024 a b).

(** The loop over the top-level records that finds the bounding box of the
    recorded positions. *)
Fixpoint bounding_box (nodes : list pyval)
         (minmax : option ((pyfloat * pyfloat) * (pyfloat * pyfloat)))
  : result (option ((pyfloat * pyfloat) * (pyfloat * pyfloat))) :=
  match nodes with
  | [] => Ok minmax
  | nd :: rest =>
      props <- py_get nd "props" ;;
      location <- match props with
                  | Some p => py_get p (_short_prop_name "location_absolute")
                  | None => Ok None
                  end ;;
      match location with
      | None => bounding_box rest minmax
      | Some loc =>
          if negb (py_truthy loc) then bounding_box rest minmax
          else
            items <- py_seq loc ;;
            match minmax with
            | None =>
                x <- py_index loc 0 ;; y <- py_index loc 1 ;;
                fx <- py_float x ;; fy <- py_float y ;;
                bounding_box rest (Some ((fx, fy), (fx, fy)))
            | Some ((lo_x, lo_y), (hi_x, hi_y)) =>
                x <- py_index loc 0 ;; y <- py_index loc 1 ;;
                fx <- py_float x ;; fy <- py_float y ;;
                bounding_box rest
                  (Some ((float_min lo_x fx, float_min lo_y fy),
                         (float_max hi_x fx, float_max hi_y fy)))
            end
      end
  end.

(** [sorted(sd.items())]: by key. *)
Fixpoint insert_entry (e : string * pyval) (sorted : pydict) : pydict :=
  match sorted with
  | [] => [e]
  | f :: rest =>
      if String.ltb (fst e) (fst f) then e :: sorted else f :: insert_entry e rest
  end.

Definition sort_entries (d : pydict) : pydict :=
  fold_left (fun acc e => insert_entry e acc) d [].

(** [sd.get(key, default)] for a string. *)
Definition py_get_str (sd : pyval) (key default : string) : result pyval :=
  x <- py_get sd key ;;
  match x with
  | Some v => Ok v
  | None => Ok (PStr default)
  end.

(** The loop that builds the interface items of a new sub-graph; the list
    [new_sockets] of the source is returned. *)
Fixpoint create_interface_items (node_group : oid) (records : list pyval)
         (made : list (oid * pyval)) : M (list (oid * pyval)) :=
  match records with
  | [] => ret made
  | sd :: rest =>
      socket_name <~ lift (py_get_str sd "name" "") ;;
      in_out <~ lift (py_get_str sd "in_out" "PANEL") ;;
      description <~ lift (py_get_str sd "description" "") ;;
      name_s <~ lift (py_str socket_name) ;;
      description_s <~ lift (py_str description) ;;
      s <~ (match in_out with
            | PStr "PANEL" =>
                default_closed <~ lift (x <- py_get sd "default_closed" ;;
                                        match x with
                                        | Some v => of_py v
                                        | None => Ok VNone
                                        end) ;;
                interface_new_panel node_group name_s description_s default_closed
            | _ =>
                in_out_s <~ lift (py_str in_out) ;;
                socket_type <~ lift (py_get_str sd "socket_type" "NodeSocketFloat") ;;
                socket_type_s <~ lift (py_str socket_type) ;;
                interface_new_socket node_group name_s description_s in_out_s socket_type_s
            end) ;;
      parent_index <~ lift (py_get sd "parent") ;;
      (match parent_index with
       | None | Some PNone => ret tt
       | Some (PInt i) =>
           parent <~ lift (index_at made i) ;;
           interface_move_to_parent s (fst parent)
       | Some (PBool b) =>
           parent <~ lift (index_at made (Z_of_bool b)) ;;
           interface_move_to_parent s (fst parent)
       | Some _ => raise (TypeError "list indices must be integers")
       end) ~;;
      s <~ (fun h =>
              match dict_get (match sd with PDict d => d | _ => [] end) "dimensions" with
              | Some dims =>
                  if hasattr h s "dimensions" then
                    (x <~ lift (of_py dims) ;;
                     setattr s "dimensions" x ~;;
                     (* the host replaces the item; it is read again by index *)
                     idx <~ read (fun h => attr h s "index") ;;
                     interface <~ read (fun h => attr h node_group "interface") ;;
                     items_v <~ read (fun h => attr_of h interface "items_tree") ;;
                     items <~ lift (as_coll items_v) ;;
                     match idx with
                     | VInt i => lift (index_at items i)
                     | _ => raise (TypeError "indices must be integers")
                     end) h
                  else (Ok s, h)
              | None => (Ok s, h)
              end) ;;
      create_interface_items node_group rest (made ++ [(s, sd)])%list
  end.

Definition interface_core_props : list string :=
  ["name"; "description"; "in_out"; "socket_type"; "parent"; "dimensions"].

(** The last loop over [new_sockets]: the remaining item properties. *)
Definition finish_interface_items (made : list (oid * pyval)) : M unit :=
  for_each made
    (fun e =>
       let s := fst e in
       let sd := snd e in
       in_out <~ lift (py_get_str sd "in_out" "PANEL") ;;
       match in_out with
       | PStr "PANEL" => ret tt
       | _ =>
           entries <~ lift (py_dict sd) ;;
           for_each (sort_entries entries)
             (fun kv =>
                let k := _long_prop_name (fst kv) in
                if mem k interface_core_props then ret tt
                else x <~ lift (of_py (snd kv)) ;; setattr s k x)
       end).

(** The decision of [dict_to_nodes] for one recorded tree: make a new
    sub-graph (true), or use the existing one of that name. *)
Definition must_recreate (h : bpy) (reuse_existing : bool) (nodes_dict td : pyval)
           (node_group : option oid) : result bool :=
  if negb reuse_existing then Ok true
  else
    match node_group with
    | None => Ok true
    | Some g =>
        type <- py_item nodes_dict "type" ;;
        if negb (py_value_eqb type (getattr h g "type")) then Ok true
        else
          equal <- _has_equal_interface h td g ;;
          Ok (negb equal)
    end.

(** The loop of [dict_to_nodes] over the recorded trees. *)
Fixpoint resolve_trees (target_tree : oid) (reuse_existing : bool) (nodes_dict : pyval)
         (raw_trees : pydict) (todo : pydict) (trees : list (string * oid))
  : M (list (string * oid)) :=
  match todo with
  | [] => ret trees
  | (name, td) :: rest =>
      existing <~ (fun h => (Ok (find_by_name h (node_groups h) name), h)) ;;
      recreate <~ read (fun h => must_recreate h reuse_existing nodes_dict td existing) ;;
      node_group <~
        (if recreate : bool then
           tree_idname <~ read (fun h => attr h target_tree "bl_idname") ;;
           tree_idname_s <~ lift (as_str tree_idname) ;;
           node_group <~ node_groups_new name tree_idname_s ;;
           props <~ lift (py_entries td "props") ;;
           for_each props
             (fun kv => x <~ lift (of_py (snd kv)) ;;
                        setattr node_group (_long_prop_name (fst kv)) x) ~;;
           interface_rec <~ lift (py_item td "interface") ;;
           records <~ lift (x <- py_get interface_rec "items_tree" ;;
                            match x with
                            | Some l => py_seq l
                            | None => Ok []
                            end) ;;
           new_sockets <~ create_interface_items node_group records [] ;;
           nodes <~ lift (py_item td "nodes") ;;
           node_list <~ lift (py_seq nodes) ;;
           _create_nodes node_group (float_zero, float_zero) node_list trees raw_trees ~;;
           finish_interface_items new_sockets ~;;
           ret node_group
         else
           match existing with
           | Some g => ret g
           | None => raise (RuntimeError "unreachable")
           end) ;;
      resolve_trees target_tree reuse_existing nodes_dict raw_trees rest
                    (dict_set trees name node_group)
  end.

(** [dict_to_nodes(target_tree, target_location, nodes_dict, reuse_existing=True)]. *)
Definition dict_to_nodes (target_tree : oid) (target_location : option (pyfloat * pyfloat))
           (nodes_dict : pyval) (reuse_existing : bool) : M unit :=
  raw_trees <~ lift (py_entries nodes_dict "node_trees") ;;
  trees <~ resolve_trees target_tree reuse_existing nodes_dict raw_trees raw_trees [] ;;
  location_offset <~
    (match target_location with
     | Some (tx, ty) =>
         nodes <~ lift (py_item nodes_dict "nodes") ;;
         node_list <~ lift (py_seq nodes) ;;
         minmax <~ lift (bounding_box node_list None) ;;
         match minmax with
         | None => raise (TypeError "'NoneType' object is not subscriptable")
         | Some ((lo_x, lo_y), (hi_x, hi_y)) =>
             ret (float_sub tx (float_mid lo_x hi_x), float_sub ty (float_mid lo_y hi_y))
         end
     | None => ret (float_zero, float_zero)
     end) ;;
  nodes <~ lift (py_item nodes_dict "nodes") ;;
  node_list <~ lift (py_seq nodes) ;;
  _create_nodes target_tree location_offset node_list trees raw_trees.

(** ** The paste operator ([NODE_OT_clipboard_paste_json.execute]) *)

Inductive op_status : Type := FINISHED | CANCELLED.

(** The line boundaries of [str.splitlines] among the code points below
    256, [\r] apart: [\n], [\v], [\f], [\x1c], [\x1d], [\x1e] and [\x85]. *)
Definition is_line_break (n : nat) : bool :=
  existsb (Nat.eqb n) [10; 11; 12; 28; 29; 30; 133]%nat.

(** [s.splitlines()]: a [\r] followed by [\n] is one boundary, and a text
    that ends in a boundary has no empty last line. *)
Fixpoint splitlines_from (s : string) (line : string) : list string :=
  match s with
  | EmptyString => match line with EmptyString => [] | _ => [line] end
  | String c rest =>
      let n := nat_of_ascii c in
      if is_line_break n then line :: splitlines_from rest ""
      else if Nat.eqb n 13 then
        match rest with
        | String c' rest' =>
            if Nat.eqb (nat_of_ascii c') 10 then line :: splitlines_from rest' ""
            else line :: splitlines_from rest ""
        | EmptyString => [line]
        end
      else splitlines_from rest (line ++ String c "")
  end.

Definition splitlines (s : string) : list string := splitlines_from s "".

Definition newline : string := String (ascii_of_nat 10) "".

(** What [execute] does once the clipboard is parsed: the reports made and
    the status returned. *)
Definition paste_document (edit_tree : oid) (cursor_location : pyfloat * pyfloat)
           (reuse_existing : bool) (nodes_dict : pyval)
  : M (list (string * string) * op_status) :=
  match validate_schema nodes_dict SCHEMA "root" with
  | Raise (TypeError e) => ret ([("ERROR", "Schema error in JSON: " ++ e)], CANCELLED)
  | Raise e => raise e
  | Ok _ =>
      nodes <~ read (fun h => sockets_of h edit_tree "nodes") ;;
      for_each nodes (fun n => setattr n "select" (VBool false)) ~;;
      dict_to_nodes edit_tree (Some cursor_location) nodes_dict reuse_existing ~;;
      ret ([], FINISHED)
  end.

Section Operator.

(** [json.loads]: the parsed value, or the message of a [JSONDecodeError]. *)
Variable json_loads : string -> pyval + string.

Definition execute (clipboard : string) (edit_tree : oid)
           (cursor_location : pyfloat * pyfloat) (reuse_existing : bool)
  : M (list (string * string) * op_status) :=
  let lines := splitlines clipboard in
  match lines with
  | [] => ret ([("ERROR", "The clipboard is empty")], CANCELLED)
  | first :: others =>
      let lines := if prefix_b "#" first then others else lines in
      match json_loads (join newline lines) with
      | inr e =>
          ret ([("ERROR", "The clipboard could not be decoded as JSON: " ++ e)],
               CANCELLED)
      | inl nodes_dict =>
          paste_document edit_tree cursor_location reuse_existing nodes_dict
      end
  end.

End Operator.

(** The children still to be queued: those of the trees not yet seen. *)
Definition pending (g : graph) (seen : list oid) : nat :=
  fold_right (fun kv n => if mem_oid (fst kv) seen then n else (length (snd kv) + n)%nat)
             0%nat g.

(** The document [nodes_to_dict] makes of the nested scene, and the keys of
    its [node_trees] in the order they were written. *)
Definition nested_document : pyval :=
  match result_of (nodes_to_dict nested_selection true) nested_host with
  | Ok d => d
  | Raise _ => PNone
  end.

Definition node_trees_keys (doc : pyval) : list string :=
  match py_entries doc "node_trees" with
  | Ok d => map fst d
  | Raise _ => []
  end.

(** A tree to paste into, in the file the document came from and in an
    empty file. *)
Definition paste_target : M oid := node_groups_new "Target" "ShaderNodeTree".

Definition same_file : bpy := state_after paste_target nested_host.
Definition same_file_target : oid :=
  match result_of paste_target nested_host with Ok t => t | Raise _ => O end.

Definition other_file : bpy := state_after paste_target demo_host.
Definition other_file_target : oid :=
  match result_of paste_target demo_host with Ok t => t | Raise _ => O end.

(** A file with a node group [G] whose one interface item is a float input
    [Value] with the default 0.0, and a tree to paste into. *)
Definition reuse_scene : M (oid * oid * oid) :=
  g <~ node_groups_new "G" "ShaderNodeTree" ;;
  item <~ interface_new_socket g "Value" "" "INPUT" "NodeSocketFloat" ;;
  target <~ node_groups_new "Target" "ShaderNodeTree" ;;
  ret (g, item, target).

Definition reuse_host : bpy := state_after reuse_scene demo_host.
Definition reuse_group : oid :=
  match result_of reuse_scene demo_host with Ok (g, _, _) => g | Raise _ => O end.
Definition reuse_item : oid :=
  match result_of reuse_scene demo_host with Ok (_, i, _) => i | Raise _ => O end.
Definition reuse_target : oid :=
  match result_of reuse_scene demo_host with Ok (_, _, t) => t | Raise _ => O end.

(** Records of a tree [G] with one float input; they differ in the recorded
    default ([_val]) or in the name. *)
Definition tree_record (name : string) (default : pyval) : pyval :=
  PDict [("nodes", PList []);
         ("interface",
          PDict [("items_tree",
                  PList [PDict [("in_out", PStr "INPUT"); ("name", PStr name);
                                ("_val", default)]])]);
         ("props", PDict [])].

Definition group_document (record : pyval) : pyval :=
  PDict [("version", PInt 2); ("type", PStr "SHADER");
         ("app_version", PList [PInt 4; PInt 2; PInt 0]);
         ("nodes", PList [PDict [("bl_idname", PStr "ShaderNodeGroup");
                                 ("node_tree", PStr "G");
                                 ("props", PDict [("name", PStr "Group")])]]);
         ("node_trees", PDict [("G", record)])].

(** The names of the host's node groups after a paste. *)
Definition groups_after (doc : pyval) (reuse_existing : bool) : list string :=
  let h := state_after (dict_to_nodes reuse_target None doc reuse_existing) reuse_host in
  names_of h (node_groups h).

(** A batch of a Value node and a Math node whose parent, pairing and input
    links are given; [Ghost] names no node of the batch. *)
Definition dangling_document (links : list pyval) : pyval :=
  PDict [("version", PInt 2); ("type", PStr "SHADER");
         ("app_version", PList [PInt 4; PInt 2; PInt 0]);
         ("nodes",
          PList [PDict [("bl_idname", PStr "ShaderNodeValue");
                        ("props", PDict [("name", PStr "Value")])];
                 PDict [("bl_idname", PStr "ShaderNodeMath");
                        ("props", PDict [("name", PStr "Math")]);
                        ("parent", PStr "Ghost");
                        ("paired_output", PStr "Ghost");
                        ("inputs", PDict [("0", PDict [("links", PList links)])])]])].

Definition link_to (name : string) (index : Z) : pyval := PList [PStr name; PInt index].

(** What a paste into the empty tree of [other_file] gives: the result, the
    links of the tree (source node and socket, target node and socket, by
    name and position), and the parent of each node. *)
Definition paste_result (doc : pyval) : result unit :=
  result_of (dict_to_nodes other_file_target None doc true) other_file.

Definition socket_position (h : bpy) (socket : value) : string * option nat :=
  match socket with
  | VRef s =>
      let node := getattr h s "node" in
      let name := match node with
                  | VRef n => match getattr h n "name" with VStr x => x | _ => "" end
                  | _ => ""
                  end in
      let sockets :=
        match node, getattr h s "is_output" with
        | VRef n, VBool true =>
            match getattr h n "outputs" with VColl l => l | _ => [] end
        | VRef n, _ =>
            match getattr h n "inputs" with VColl l => l | _ => [] end
        | _, _ => []
        end in
      (name, position s sockets)
  | _ => ("", None)
  end.

Definition links_of (h : bpy) (tree : oid)
  : list ((string * option nat) * (string * option nat)) :=
  match getattr h tree "links" with
  | VColl links =>
      map (fun l => (socket_position h (getattr h l "from_socket"),
                     socket_position h (getattr h l "to_socket"))) links
  | _ => []
  end.

Definition pasted_links (doc : pyval)
  : list ((string * option nat) * (string * option nat)) :=
  links_of (state_after (dict_to_nodes other_file_target None doc true) other_file)
           other_file_target.

Definition pasted_parents (doc : pyval) : list (string * value) :=
  let h := state_after (dict_to_nodes other_file_target None doc true) other_file in
  match getattr h other_file_target "nodes" with
  | VColl nodes =>
      map (fun n => (match getattr h n "name" with VStr x => x | _ => "" end,
                     getattr h n "parent")) nodes
  | _ => []
  end.

(** A tree with one node that nobody has touched since it was made, the
    default node it is compared with, and the record [_serialize_nodes]
    makes of it. *)
Definition fresh_node_scene (tree_idname idname : string) : M (oid * oid) :=
  main <~ node_groups_new "Main" tree_idname ;;
  node <~ nodes_new main idname ;;
  defaults_group <~ node_groups_new ".defaults" tree_idname ;;
  default_node <~ nodes_new defaults_group idname ;;
  ret (node, default_node).

Definition fresh_node_host (tree_idname idname : string) : bpy :=
  state_after (fresh_node_scene tree_idname idname) demo_host.

Definition fresh_node (tree_idname idname : string) : oid * oid :=
  match result_of (fresh_node_scene tree_idname idname) demo_host with
  | Ok p => p
  | Raise _ => (O, O)
  end.

Definition fresh_node_record (tree_idname idname : string) : result pyval :=
  let h := fresh_node_host tree_idname idname in
  let '(node, default_node) := fresh_node tree_idname idname in
  serialize_node h [((idname, None), default_node)] (names_of h [node]) node.

(** The keys of [props] in a node record. *)
Definition props_keys (record : result pyval) : list string :=
  match record with
  | Ok nd => match py_entries nd "props" with Ok d => map fst d | Raise _ => [] end
  | Raise _ => []
  end.

(** A file whose selected node is of a type the host cannot make (the type
    of a missing add-on). *)
Definition undefined_scene : M (list oid) :=
  main <~ node_groups_new "Main" "ShaderNodeTree" ;;
  node <~ alloc (instantiate (node_struct "NodeUndefined" "Undefined" [] [])
                   [("bl_idname", VStr "NodeUndefined"); ("id_data", VRef main);
                    ("parent", VNone); ("inputs", VColl []); ("outputs", VColl [])]) ;;
  coll_append main "nodes" node ~;;
  ret [node].

Definition undefined_host : bpy := state_after undefined_scene demo_host.
Definition undefined_selection : list oid :=
  match result_of undefined_scene demo_host with Ok sel => sel | Raise _ => [] end.

(** A file whose link has lost its source socket, so that serializing the
    linked node raises. *)
Definition broken_link_scene : M (list oid) :=
  main <~ node_groups_new "Main" "ShaderNodeTree" ;;
  value <~ nodes_new main "ShaderNodeValue" ;;
  math <~ nodes_new main "ShaderNodeMath" ;;
  out <~ read (fun h => sockets_of h value "outputs") ;;
  inp <~ read (fun h => sockets_of h math "inputs") ;;
  match out, inp with
  | o :: _, i :: _ =>
      link <~ links_new main o i ;;
      store_attr link "from_socket" (VRef 999) ~;;
      ret [value; math]
  | _, _ => ret []
  end.

Definition broken_link_host : bpy := state_after broken_link_scene demo_host.
Definition broken_link_selection : list oid :=
  match result_of broken_link_scene demo_host with Ok sel => sel | Raise _ => [] end.

(** The names of the node groups of a host. *)
Definition group_names (h : bpy) : list string := names_of h (node_groups h).

(** ** Properties at their default *)

Definition is_name (prop : rna_prop) : bool := String.eqb (identifier prop) "name".

(** A property that [_iter_properties] looks at (it is not skipped and not
    hidden) is at its default: it is no collection, and unless it is the
    name or read-only, the node's value equals ([==]) the default node's.
    The name is no pointer. *)
Definition at_default (h : bpy) (node default_node : oid) (skip_props : list string)
           (prop : rna_prop) : Prop :=
  mem (identifier prop) skip_props = false ->
  is_hidden prop = false ->
  kind prop <> COLLECTION
  /\ (identifier prop = "name" -> kind prop <> POINTER)
  /\ (identifier prop <> "name" -> is_readonly prop = false ->
      value_eqb (getattr h node (identifier prop))
                (getattr h default_node (identifier prop)) = true).

(** A property that [_iter_properties] looks at (it is not skipped and not
    hidden) and that holds a collection. *)
Definition visible_collection (skip_props : list string) (prop : rna_prop) : bool :=
  negb (mem (identifier prop) skip_props)
  && negb (is_hidden prop)
  && match kind prop with COLLECTION => true | _ => false end.

(** The keys under which [_iter_properties] writes the collections of a
    struct. *)
Definition keys_of_collections (skip_props : list string) (props : list rna_prop)
  : list string :=
  map (fun prop => _short_prop_name (identifier prop))
      (filter (visible_collection skip_props) props).

Definition collection_keys (h : bpy) (idblock : oid) (skip_props : list string)
  : list string :=
  keys_of_collections skip_props (properties_of h idblock).

(** There is a visible property called [name]. *)
Definition has_name_prop (props : list rna_prop) : bool :=
  existsb (fun p => is_name p && negb (is_hidden p)) props.

(** The list comprehension of the [COLLECTION] branch of [_iter_properties]:
    the properties of every item of the collection [prop]. *)
Definition collection_records (depth : nat) (h : bpy) (idblock : oid)
           (defaults : option oid) (skip_props always_include : list string)
           (prop : rna_prop) : result (list pydict) :=
  coll <- attr h idblock (identifier prop) ;;
  items <- as_coll coll ;;
  map_result (fun p => _iter_properties depth h p defaults skip_props always_include)
             items.

(** A property that [_iter_properties] looks at is at its default unless it
    is a collection: when it is the name it is neither a pointer nor a
    collection, and otherwise, unless it is a collection or read-only, the
    node's value equals ([==]) the default node's. *)
Definition default_unless_collection (h : bpy) (node default_node : oid)
           (skip_props : list string) (prop : rna_prop) : Prop :=
  mem (identifier prop) skip_props = false ->
  is_hidden prop = false ->
  (identifier prop = "name" -> kind prop <> POINTER /\ kind prop <> COLLECTION)
  /\ (identifier prop <> "name" -> kind prop <> COLLECTION -> is_readonly prop = false ->
      value_eqb (getattr h node (identifier prop))
                (getattr h default_node (identifier prop)) = true).

Definition default_unless_collection_b (h : bpy) (node default_node : oid)
           (skip_props : list string) (prop : rna_prop) : bool :=
  mem (identifier prop) skip_props
  || is_hidden prop
  || (if is_name prop
      then match kind prop with POINTER | COLLECTION => false | _ => true end
      else match kind prop with COLLECTION => true | _ => false end
           || is_readonly prop
           || value_eqb (getattr h node (identifier prop))
                        (getattr h default_node (identifier prop))).

(** Every property of the node equals the default node's. *)
Definition equals_default (h : bpy) (node default_node : oid) : bool :=
  forallb (fun prop => value_eqb (getattr h node (identifier prop))
                                 (getattr h default_node (identifier prop)))
          (properties_of h node).

(** ** Documents that differ in the version only *)

(** Both mappings have an integer [version], and every other key has the
    same value in both (or is in neither). *)
Definition same_but_version (d d' : pydict) : Prop :=
  (exists v, dict_get d "version" = Some (PInt v))
  /\ (exists v', dict_get d' "version" = Some (PInt v'))
  /\ (forall key, key <> "version" -> dict_get d key = dict_get d' key).

(** A document of one Value node, as a writer of the given schema version
    marks it. *)
Definition versioned_entries (version : Z) : pydict :=
  [("version", PInt version); ("type", PStr "SHADER");
   ("app_version", PList [PInt 4; PInt 2; PInt 0]);
   ("nodes",
    PList [PDict [("bl_idname", PStr "ShaderNodeValue");
                  ("props", PDict [("_loc", PList [PFloat float_zero; PFloat float_zero]);
                                   ("name", PStr "Value")])]])].

Definition versioned_document (version : Z) : pyval := PDict (versioned_entries version).

(** The paste operator on a document, in the file [other_file] with the
    cursor at the origin: the reports and status, and the names of the nodes
    of the edited tree afterwards. *)
Definition paste_outcome (doc : pyval) : result (list (string * string) * op_status) :=
  result_of (paste_document other_file_target (float_zero, float_zero) true doc) other_file.

Definition pasted_names (doc : pyval) : list string :=
  let h := state_after (paste_document other_file_target (float_zero, float_zero) true doc)
                       other_file in
  match getattr h other_file_target "nodes" with
  | VColl nodes => names_of h nodes
  | _ => []
  end.

(** * Further properties of the engine

    Definitions used to state what the remaining functions guarantee. *)

From Stdlib Require Import Permutation.

(** A dependency graph is closed when every tree it lists as used is one of
    its keys, as the graphs [_collect_trees] builds are. *)
Definition closed_graph (g : graph) : Prop :=
  forall k cs c, In (k, cs) g -> In c cs -> In c (map fst g).

(** What a recorded link is: the pair of the name of the source node, which
    is a name of the batch, and the position of the source socket among the
    outputs of that node, for one of the links of the input socket. *)
Definition recorded_link (h : bpy) (node_names : list string) (links : list oid)
           (r : pyval) : Prop :=
  exists link from_node name outs s k,
    In link links
    /\ getattr h link "from_node" = VRef from_node
    /\ getattr h from_node "name" = VStr name
    /\ getattr h from_node "outputs" = VColl outs
    /\ getattr h link "from_socket" = VRef s
    /\ In name node_names
    /\ nth_error outs k = Some s
    /\ r = PTuple [PStr name; PInt (Z.of_nat k)].

(** A tree with a Value node linked to the first input of a Math node: the
    selection, the links of that input, and the host. *)
Definition linked_scene : M (list oid * list oid) :=
  main <~ node_groups_new "Main" "ShaderNodeTree" ;;
  value <~ nodes_new main "ShaderNodeValue" ;;
  math <~ nodes_new main "ShaderNodeMath" ;;
  out <~ read (fun h => sockets_of h value "outputs") ;;
  inp <~ read (fun h => sockets_of h math "inputs") ;;
  match out, inp with
  | o :: _, i :: _ =>
      links_new main o i ~;;
      links <~ read (fun h => sockets_of h i "links") ;;
      ret ([value; math], links)
  | _, _ => ret ([], [])
  end.

Definition linked_host : bpy := state_after linked_scene demo_host.
Definition linked_selection : list oid :=
  match result_of linked_scene demo_host with Ok r => fst r | Raise _ => [] end.
Definition linked_input_links : list oid :=
  match result_of linked_scene demo_host with Ok r => snd r | Raise _ => [] end.

(** The two sequences [_has_equal_interface] walks: the items the record
    holds, and the items of the live interface. *)
Definition recorded_items (tree_dict : pyval) : result (list pyval) :=
  interface_rec <- py_item tree_dict "interface" ;;
  items_tree <- py_item interface_rec "items_tree" ;;
  py_seq items_tree.

Definition live_items (h : bpy) (node_group : oid) : result (list oid) :=
  interface <- attr h node_group "interface" ;;
  live_v <- attr_of h interface "items_tree" ;;
  as_coll live_v.

(** A node record without a usable [_loc]: it has no [props], or its props
    have no [_loc], or the recorded location is empty. *)
Definition without_location (nd : pyval) : bool :=
  match nd with
  | PDict d =>
      match dict_get d "props" with
      | None => true
      | Some (PDict p) =>
          match dict_get p "_loc" with
          | None => true
          | Some loc => negb (py_truthy loc)
          end
      | Some _ => false
      end
  | _ => false
  end.

(** The keys of the mappings the printer walks through need no escaping:
    [json.dumps] writes each of them as it is. *)
Fixpoint plain_keys (x : pyval) : bool :=
  match x with
  | PList items => forallb plain_keys items
  | PDict entries =>
      forallb (fun kv => String.eqb (escape_chars (fst kv)) (fst kv) && plain_keys (snd kv))
              entries
  | _ => true
  end.

(** A property [_iter_properties] may write: it is not skipped and not
    hidden, and it is a collection, or writable, or always included. *)
Definition may_be_written (skip_props always_include : list string) (prop : rna_prop)
  : Prop :=
  mem (identifier prop) skip_props = false
  /\ is_hidden prop = false
  /\ (kind prop = COLLECTION
      \/ is_readonly prop = false
      \/ mem (identifier prop) always_include = true).

(** A document as it comes back from JSON: every tuple is a list. *)
Fixpoint tuples_as_lists (x : pyval) : pyval :=
  match x with
  | PList items | PTuple items => PList (map tuples_as_lists items)
  | PDict entries => PDict (map (fun kv => (fst kv, tuples_as_lists (snd kv))) entries)
  | other => other
  end.

(** A recorded link that has nothing to attach to in the batch [created]:
    its source name is not a node of the batch, or its index is not below
    the number of outputs of the source node. *)
Definition dangling_link (h : bpy) (created : created_map) (link : pyval) : Prop :=
  exists name index,
    link = PList [PStr name; PInt index]
    /\ (dict_get created name = None
        \/ exists nd other outputs,
             dict_get created name = Some (nd, other)
             /\ sockets_of h other "outputs" = Ok outputs
             /\ (Z.of_nat (length outputs) <= index)%Z).

(** A node record as the reader indexes it: a mapping with a string
    [bl_idname] and a [props] mapping that has a string [name]. *)
Definition readable_node_record (nd : pyval) : Prop :=
  exists entries idname props name,
    nd = PDict entries
    /\ dict_get entries "bl_idname" = Some (PStr idname)
    /\ dict_get entries "props" = Some (PDict props)
    /\ dict_get props "name" = Some (PStr name).

(** A tree record as the reader indexes it: a mapping with a list [nodes]
    of readable node records and an [interface] mapping, whose [items_tree],
    when it is there, is a list of mappings. *)
Definition readable_tree_record (td : pyval) : Prop :=
  exists entries records interface,
    td = PDict entries
    /\ dict_get entries "nodes" = Some (PList records)
    /\ Forall readable_node_record records
    /\ dict_get entries "interface" = Some (PDict interface)
    /\ (forall items, dict_get interface "items_tree" = Some items ->
                      exists sds, items = PList sds
                                  /\ Forall (fun sd => exists e, sd = PDict e) sds).

(** A tree record whose interface has no [items_tree]. *)
Definition bare_tree_record : pyval :=
  PDict [("nodes", PList []); ("interface", PDict [])].

(** ** The copy operator ([NODE_OT_clipboard_copy_json.execute]) *)

Definition _message : string :=
  "Copy/Paste Nodes JSON export (https://extensions.blender.org/add-ons/copy-paste-nodes/)".

(** [[n for n in edit_tree.nodes if n.select]]. *)
Definition selected_nodes (h : bpy) (edit_tree : oid) : result (list oid) :=
  nodes <- sockets_of h edit_tree "nodes" ;;
  (fix each (nodes : list oid) : result (list oid) :=
     match nodes with
     | [] => Ok []
     | n :: rest =>
         select <- attr h n "select" ;;
         more <- each rest ;;
         Ok (if truthy select then n :: more else more)
     end) nodes.

Section Copy.

Variable float_repr : pyfloat -> string.

(** The text the operator puts on the clipboard, and its status. *)
Definition copy_execute (edit_tree : oid) (include_groups : bool)
  : M (string * op_status) :=
  selection <~ read (fun h => selected_nodes h edit_tree) ;;
  doc <~ nodes_to_dict selection include_groups ;;
  ret ("# " ++ _message ++ newline ++ dumps_compact float_repr doc, FINISHED).

End Copy.

(** ** The trees [_collect_trees] finds *)

(** What the loop of [_collect_trees] keeps true of its graph: the keys are
    distinct, every tree listed as used is a key, and the keys are the node
    trees of the nodes met so far. *)
Definition collected (h : bpy) (trees : graph) (all_nodes : list oid) : Prop :=
  NoDup (map fst trees)
  /\ closed_graph trees
  /\ (forall t, In t (map fst trees)
                <-> exists n, In n all_nodes /\ node_tree_of h n = Some t).




(** * Properties *)

(** ** Schema validation *)

Lemma bind_raise_inv {A B : Type} (r : result A) (k : A -> result B) (e : exn) :
  bind r k = Raise e -> r = Raise e \/ exists a, r = Ok a /\ k a = Raise e.
Proof.
  destruct r as [a|e']; simpl; intros H.
  - right. exists a. split; [reflexivity | exact H].
  - left. injection H as ->. reflexivity.
Qed.

Lemma bind_ok_inv {A B : Type} (r : result A) (k : A -> result B) (b : B) :
  bind r k = Ok b -> exists a, r = Ok a /\ k a = Ok b.
Proof.
  destruct r as [a|e']; simpl; intros H.
  - exists a. split; [reflexivity | exact H].
  - discriminate.
Qed.

Lemma list_all_cons_inv {A : Type} (P : A -> Prop) (a : A) (l : list A) :
  list_all A P (a :: l) -> P a /\ (list_all A P l -> True).
Proof.
  intros H. inversion H; subst. split; [assumption | trivial].
Qed.

(** Every error the validator raises is a [TypeError] whose message is the
    printed path of an offending location followed by what is wrong there. *)
Lemma validate_schema_sound (sch : schema) :
  forall obj path e,
    validate_schema obj sch path = Raise e ->
    exists p v, offends obj sch p v /\ e = TypeError (path_str path p ++ describe v).
Proof.
  induction sch as [t | elems IH | fields IH | elems IH | vs IH]; intros obj path e H.
  - simpl in H. destruct (isinstance obj t) eqn:Hk; [discriminate|].
    injection H as <-. exists [], (WrongKind (pytype_name t) (type_name_of obj)).
    split; [constructor; assumption | reflexivity].
  - destruct obj; simpl in H;
      try (injection H as <-; eexists [], _; split;
           [apply off_not_list; reflexivity | reflexivity]).
    destruct elems as [|s0 elems']; [discriminate|].
    inversion IH as [|? Hs0 ? _]; subst.
    match type of H with ?f 0%nat items = _ =>
      assert (Hgen : forall items i, f i items = Raise e ->
                exists j item p v, nth_error items j = Some item /\
                  offends item s0 p v /\
                  e = TypeError (path_str (path ++ "[" ++ str_of_nat (i + j) ++ "]") p
                                   ++ describe v))
    end.
    { clear H items. induction items as [|item rest IHr]; intros i H; [discriminate|].
      apply bind_raise_inv in H as [H | (_ & _ & H)].
      - apply Hs0 in H as (p & v & Hoff & ->).
        exists 0%nat, item, p, v. rewrite Nat.add_0_r. auto.
      - apply IHr in H as (j & it & p & v & Hn & Hoff & ->).
        exists (S j), it, p, v. rewrite Nat.add_succ_r. auto. }
    apply Hgen in H as (j & item & p & v & Hn & Hoff & ->).
    exists (Idx j :: p), v. split; [econstructor; eassumption | reflexivity].
  - destruct obj; simpl in H;
      try (injection H as <-; eexists [], _; split;
           [apply off_not_dict; reflexivity | reflexivity]).
    rename entries into d.
    match type of H with ?f fields = _ =>
      assert (Hgen : forall fs, list_all _ (prod_all _ (fun _ => unit) _
                                   (fun s => forall obj path e,
                                      validate_schema obj s path = Raise e ->
                                      exists p v, offends obj s p v /\
                                        e = TypeError (path_str path p ++ describe v))) fs ->
                f fs = Raise e ->
                (exists key sub, In (Required key, sub) fs /\ dict_get d key = None /\
                   e = TypeError (path ++ describe (MissingKey key))) \/
                (exists k sub x p v, In (k, sub) fs /\ dict_get d (skey_name k) = Some x /\
                   offends x sub p v /\
                   e = TypeError (path_str (path ++ "." ++ skey_name k) p ++ describe v)))
    end.
    { clear H IH. induction fs as [|[k sub] rest IHr]; intros Hall H; [discriminate|].
      inversion Hall as [|? Hhd ? Htl]; subst. inversion Hhd as [? _ ? Hsub]; subst.
      destruct k as [key|key]; simpl in H.
      - destruct (dict_get d key) as [x|] eqn:Hget.
        + apply bind_raise_inv in H as [H | (_ & _ & H)].
          * apply Hsub in H as (p & v & Hoff & ->).
            right. exists (Required key), sub, x, p, v. simpl. auto.
          * destruct (IHr Htl H) as [(k' & s' & Hin & Hr)|(k' & s' & x' & p & v & Hin & Hr)].
            -- left. exists k', s'. simpl. auto.
            -- right. exists k', s', x', p, v. simpl. auto.
        + injection H as <-. left. exists key, sub. simpl. auto.
      - destruct (dict_get d key) as [x|] eqn:Hget.
        + apply bind_raise_inv in H as [H | (_ & _ & H)].
          * apply Hsub in H as (p & v & Hoff & ->).
            right. exists (Optional key), sub, x, p, v. simpl. auto.
          * destruct (IHr Htl H) as [(k' & s' & Hin & Hr)|(k' & s' & x' & p & v & Hin & Hr)].
            -- left. exists k', s'. simpl. auto.
            -- right. exists k', s', x', p, v. simpl. auto.
        + destruct (IHr Htl H) as [(k' & s' & Hin & Hr)|(k' & s' & x' & p & v & Hin & Hr)].
          * left. exists k', s'. simpl. auto.
          * right. exists k', s', x', p, v. simpl. auto. }
    destruct (Hgen fields IH H) as [(key & sub & Hin & Hget & ->)
                                   |(k & sub & x & p & v & Hin & Hget & Hoff & ->)].
    + exists [], (MissingKey key). split; [econstructor; eassumption | reflexivity].
    + exists (Key (skey_name k) :: p), v. split; [econstructor; eassumption | reflexivity].
  - assert (Hgen : forall es, list_all _ (fun s => forall obj path e,
                                      validate_schema obj s path = Raise e ->
                                      exists p v, offends obj s p v /\
                                        e = TypeError (path_str path p ++ describe v)) es ->
              forall items i,
                (fix each (i : nat) (items : list pyval) (elems : list schema) {struct elems}
                   : result unit :=
                   match items, elems with
                   | item :: items', subschema :: elems' =>
                       validate_schema item subschema (path ++ "[" ++ str_of_nat i ++ "]") ;;;
                       each (S i) items' elems'
                   | _, _ => Ok tt
                   end) i items es = Raise e ->
                exists j item sub p v,
                  nth_error items j = Some item /\ nth_error es j = Some sub /\
                  offends item sub p v /\
                  e = TypeError (path_str (path ++ "[" ++ str_of_nat (i + j) ++ "]") p
                                   ++ describe v)).
    { clear. induction es as [|sub es IHes]; intros Hall items i H.
      - destruct items; discriminate.
      - destruct items as [|item items]; [discriminate|].
        inversion Hall as [|? Hsub ? Htl]; subst.
        apply bind_raise_inv in H as [H | (_ & _ & H)].
        + apply Hsub in H as (p & v & Hoff & ->).
          exists 0%nat, item, sub, p, v. rewrite Nat.add_0_r. auto.
        + apply (IHes Htl) in H as (j & it & sb & p & v & Hn & Hm & Hoff & ->).
          exists (S j), it, sb, p, v. rewrite Nat.add_succ_r. auto. }
    assert (Hseq : forall items, seq_items obj = Some items ->
              (if negb (Nat.eqb (length items) (length elems)) then
                 Raise (TypeError (path ++ " expected tuple/list of length "
                                     ++ str_of_nat (length elems) ++ ", got length "
                                     ++ str_of_nat (length items)))
               else
                 (fix each (i : nat) (items : list pyval) (elems : list schema) {struct elems}
                    : result unit :=
                    match items, elems with
                    | item :: items', subschema :: elems' =>
                        validate_schema item subschema (path ++ "[" ++ str_of_nat i ++ "]") ;;;
                        each (S i) items' elems'
                    | _, _ => Ok tt
                    end) 0%nat items elems) = Raise e ->
              exists p v, offends obj (STuple elems) p v /\
                          e = TypeError (path_str path p ++ describe v)).
    { intros items Hitems Hc.
      destruct (Nat.eqb (length items) (length elems)) eqn:Hlen; simpl in Hc.
      - apply Nat.eqb_eq in Hlen.
        apply (Hgen elems IH) in Hc as (j & it & sb & p & v & Hn & Hm & Hoff & ->).
        exists (Idx j :: p), v. split; [eapply off_tuple_item; eassumption | reflexivity].
      - apply Nat.eqb_neq in Hlen. injection Hc as <-.
        exists [], (WrongLength (length elems) (length items)).
        split; [eapply off_length; eassumption | reflexivity]. }
    destruct obj; simpl in H;
      try (injection H as <-; eexists [], _; split;
           [apply off_not_seq; reflexivity | reflexivity]);
      eapply Hseq; try reflexivity; exact H.
  - destruct obj; simpl in H;
      try (injection H as <-; eexists [], _; split;
           [apply off_not_map; reflexivity | reflexivity]).
    rename entries into d.
    match type of H with ?f d = _ =>
      assert (Hgen : forall d', f d' = Raise e ->
                exists k x p v, In (k, x) d' /\ offends x vs p v /\
                  e = TypeError (path_str (path ++ "." ++ k) p ++ describe v))
    end.
    { clear H. induction d' as [|[k x] rest IHr]; intros H; [discriminate|].
      apply bind_raise_inv in H as [H | (_ & _ & H)].
      - apply IH in H as (p & v & Hoff & ->). exists k, x, p, v. simpl. auto.
      - apply IHr in H as (k' & x' & p & v & Hin & Hoff & ->).
        exists k', x', p, v. simpl. auto. }
    apply Hgen in H as (k & x & p & v & Hin & Hoff & ->).
    exists (Key k :: p), v. split; [econstructor; eassumption | reflexivity].
Qed.

(** Two results of one call that disagree. *)
Ltac clash H1 H2 :=
  exfalso; generalize (eq_trans (eq_sym H1) H2); discriminate.

(** Conversely, a document with an offending location is rejected. *)
Lemma validate_schema_complete (obj : pyval) (sch : schema) (p : list step) (v : violation) :
  offends obj sch p v ->
  forall path, exists e, validate_schema obj sch path = Raise e.
Proof.
  induction 1 as [obj t Hk
                 | obj elems Hl
                 | items s0 elems i item p v Hn Hoff IH
                 | obj fields Hd
                 | d fields key sub Hin Hget
                 | d fields k sub x p v Hin Hget Hoff IH
                 | obj elems Hs
                 | obj items elems Hs Hlen
                 | obj items elems i item sub p v Hs Hlen Hn Hm Hoff IH
                 | obj vs Hd
                 | d vs k x p v Hin Hoff IH]; intros path.
  - simpl. rewrite Hk. eexists; reflexivity.
  - destruct obj; try discriminate; simpl; eexists; reflexivity.
  - simpl. generalize 0%nat. revert i Hn.
    induction items as [|item0 rest IHr]; intros i Hn n.
    + destruct i; discriminate.
    + simpl; destruct (validate_schema item0 s0 _) as [[]|e0] eqn:Hv;
        simpl; [|eexists; reflexivity].
      destruct i as [|i]; simpl in Hn.
      * injection Hn as ->. destruct (IH (path ++ "[" ++ str_of_nat n ++ "]")%string) as [e He]. clash Hv He.
      * apply (IHr i Hn).
  - destruct obj; try discriminate; simpl; eexists; reflexivity.
  - simpl. induction fields as [|[k0 sub0] rest IHr]; [contradiction|].
    destruct k0 as [key0|key0].
    + destruct (dict_get d key0) as [x0|] eqn:Hg0; [|eexists; reflexivity].
      simpl; destruct (validate_schema x0 sub0 _) as [[]|e0]; simpl;
        [|eexists; reflexivity].
      destruct Hin as [Heq|Hin]; [|exact (IHr Hin)].
      injection Heq as -> ->. congruence.
    + destruct Hin as [Heq|Hin]; [discriminate|].
      destruct (dict_get d key0) as [x0|] eqn:Hg0; [|exact (IHr Hin)].
      simpl; destruct (validate_schema x0 sub0 _) as [[]|e0]; simpl;
        [|eexists; reflexivity].
      exact (IHr Hin).
  - simpl. induction fields as [|[k0 sub0] rest IHr]; [contradiction|].
    assert (Hhead : (k0, sub0) = (k, sub) ->
              exists e, validate_schema x sub0 (path ++ "." ++ skey_name k0) = Raise e).
    { intros Heq. injection Heq as -> ->. apply IH. }
    destruct k0 as [key0|key0]; simpl in Hhead.
    + destruct (dict_get d key0) as [x0|] eqn:Hg0; [|eexists; reflexivity].
      simpl; destruct (validate_schema x0 sub0 _) as [[]|e0] eqn:Hv; simpl;
        [|eexists; reflexivity].
      destruct Hin as [Heq|Hin]; [|exact (IHr Hin)].
      destruct (Hhead Heq) as [e He]. injection Heq as <- <-. simpl in Hget.
      rewrite Hg0 in Hget. injection Hget as <-. congruence.
    + destruct (dict_get d key0) as [x0|] eqn:Hg0.
      * simpl; destruct (validate_schema x0 sub0 _) as [[]|e0] eqn:Hv; simpl;
          [|eexists; reflexivity].
        destruct Hin as [Heq|Hin]; [|exact (IHr Hin)].
        destruct (Hhead Heq) as [e He]. injection Heq as <- <-. simpl in Hget.
        rewrite Hg0 in Hget. injection Hget as <-. congruence.
      * destruct Hin as [Heq|Hin]; [|exact (IHr Hin)].
        injection Heq as <- <-. simpl in Hget. congruence.
  - destruct obj; try discriminate; simpl; eexists; reflexivity.
  - assert (Hneq : Nat.eqb (length items) (length elems) = false)
      by (apply Nat.eqb_neq; exact Hlen).
    destruct obj; try discriminate; injection Hs as ->; simpl; rewrite Hneq; simpl;
      eexists; reflexivity.
  - assert (Heq : Nat.eqb (length items) (length elems) = true)
      by (apply Nat.eqb_eq; exact Hlen).
    assert (Hloop : forall n, exists e,
              (fix each (i : nat) (items : list pyval) (elems : list schema) {struct elems}
                 : result unit :=
                 match items, elems with
                 | item :: items', subschema :: elems' =>
                     validate_schema item subschema (path ++ "[" ++ str_of_nat i ++ "]") ;;;
                     each (S i) items' elems'
                 | _, _ => Ok tt
                 end) n items elems = Raise e).
    { clear Hs Hlen Heq. revert items i Hn Hm.
      induction elems as [|sub0 elems IHe]; intros items i Hn Hm n.
      - destruct i; discriminate.
      - destruct items as [|item0 items]; [destruct i; discriminate|].
        simpl; destruct (validate_schema item0 sub0 _) as [[]|e0] eqn:Hv; simpl; [|eexists; reflexivity].
        destruct i as [|i]; simpl in Hn, Hm.
        + injection Hn as ->. injection Hm as ->.
          destruct (IH (path ++ "[" ++ str_of_nat n ++ "]")%string) as [e He]. clash Hv He.
        + apply (IHe items i Hn Hm). }
    destruct obj; try discriminate; injection Hs as ->; simpl; rewrite Heq; simpl;
      apply Hloop.
  - destruct obj; try discriminate; simpl; eexists; reflexivity.
  - simpl. induction d as [|[k0 x0] rest IHr]; [contradiction|].
    simpl; destruct (validate_schema x0 vs _) as [[]|e0] eqn:Hv; simpl;
      [|eexists; reflexivity].
    destruct Hin as [Heq|Hin]; [|exact (IHr Hin)].
    injection Heq as -> ->. destruct (IH (path ++ "." ++ k)%string) as [e He]. clash Hv He.
Qed.

(** A tuple schema reads a list and a tuple alike. *)
Lemma validate_tuple_seq (elems : list schema) (obj : pyval) (items : list pyval)
      (path : string) :
  seq_items obj = Some items ->
  validate_schema obj (STuple elems) path
  = validate_schema (PList items) (STuple elems) path.
Proof.
  destruct obj; simpl; intros H; try discriminate; injection H as ->; reflexivity.
Qed.

(** Keys the schema does not mention never reach the validator. *)
Lemma validate_schema_ignores_unknown_keys (sch : schema) :
  forall obj obj' path,
    adds_unknown_keys sch obj obj' ->
    validate_schema obj sch path = Ok tt ->
    validate_schema obj' sch path = Ok tt.
Proof.
  induction sch as [t | elems IH | fields IH | elems IH | vs IH];
    intros obj obj' path Hadd Hok;
    (destruct Hadd as [-> | Hadd]; [exact Hok|]).
  - contradiction.
  - destruct elems as [|s0 elems']; [contradiction|].
    destruct Hadd as (items & items' & -> & -> & Hall).
    inversion IH as [|? Hs0 ? _]; subst.
    simpl in *. revert Hok. generalize 0%nat.
    induction Hall as [|x x' xs xs' Hx Hxs IHxs]; intros n Hok; [reflexivity|].
    apply bind_ok_inv in Hok as ([] & Hhd & Htl).
    simpl. rewrite (Hs0 _ _ _ Hx Hhd). simpl. apply IHxs. exact Htl.
  - destruct Hadd as (d & d' & -> & -> & Hkeep & Hnone & Heach).
    simpl in *.
    assert (Hnone' : forall k, In k (field_names fields) -> dict_get d k = None ->
                               dict_get d' k = None) by (intros; auto).
    clear Hnone Hkeep. revert Hnone' Heach Hok.
    induction IH as [|[k sub] Hhd rest Htl IHr]; intros Hnone Heach Hok; [reflexivity|].
    inversion Hhd as [? _ ? Hsub]; subst.
    destruct Heach as [Hk Heach].
    assert (Hnone_rest : forall k0, In k0 (field_names rest) -> dict_get d k0 = None ->
                                    dict_get d' k0 = None)
      by (intros k0 Hin; apply Hnone; right; exact Hin).
    destruct k as [key|key]; simpl in *.
    + destruct (dict_get d key) as [x|] eqn:Hg; [|discriminate].
      destruct (Hk x eq_refl) as (x' & -> & Hx).
      apply bind_ok_inv in Hok as ([] & Hv & Hrest).
      rewrite (Hsub _ _ _ Hx Hv). simpl. apply IHr; assumption.
    + destruct (dict_get d key) as [x|] eqn:Hg.
      * destruct (Hk x eq_refl) as (x' & -> & Hx).
        apply bind_ok_inv in Hok as ([] & Hv & Hrest).
        rewrite (Hsub _ _ _ Hx Hv). simpl. apply IHr; assumption.
      * rewrite (Hnone key (or_introl eq_refl) Hg). apply IHr; assumption.
  - destruct Hadd as (items & items' & Hs & Hs' & Heach).
    rewrite (validate_tuple_seq _ _ _ _ Hs) in Hok.
    rewrite (validate_tuple_seq _ _ _ _ Hs'). clear Hs Hs' obj obj'.
    assert (Hlen : length items = length elems /\ length items' = length elems).
    { clear Hok IH. revert items items' Heach.
      induction elems as [|s es IHe]; intros [|x xs] [|x' xs'] H; try contradiction;
        [split; reflexivity|].
      destruct H as [_ H]. destruct (IHe _ _ H). simpl. split; congruence. }
    destruct Hlen as [Hl Hl']. simpl in *.
    rewrite Hl, Nat.eqb_refl in Hok. rewrite Hl', Nat.eqb_refl. simpl in *.
    clear Hl Hl'. revert items items' Heach Hok. generalize 0%nat.
    induction IH as [|s Hs es Hes IHe]; intros n [|x xs] [|x' xs'] Heach Hok;
      try contradiction; try reflexivity.
    destruct Heach as [Hx Heach].
    apply bind_ok_inv in Hok as ([] & Hv & Hrest).
    rewrite (Hs _ _ _ Hx Hv). simpl. eapply IHe; eassumption.
  - destruct Hadd as (d & d' & -> & -> & Hall).
    simpl in *. revert Hok.
    induction Hall as [|[k x] [k' x'] rest rest' [Hk Hx] Hrest IHr]; intros Hok;
      [reflexivity|].
    simpl in Hk, Hx. subst k'.
    apply bind_ok_inv in Hok as ([] & Hv & Htl).
    rewrite (IH _ _ _ Hx Hv). simpl. apply IHr. exact Htl.
Qed.

Example validate_doc_math : validate_schema doc_math SCHEMA "root" = Ok tt.
Proof. reflexivity. Qed.

Ltac unknown_key Hget Hnot :=
  cbn [field_names map fst skey_name In] in Hnot; unfold doc_math, doc_math_extra in *; cbn [dict_get] in Hget |- *;
  repeat match type of Hget with
         | (if String.eqb ?a ?k then _ else _) = _ =>
             destruct (String.eqb_spec a k) as [<-|_];
             [first [exfalso; apply Hnot; tauto | exact Hget] | cbn [dict_get] in Hget |- * ]
         end;
  try discriminate Hget.
Ltac known_key Hget Hin :=
  cbn [field_names map fst skey_name In] in Hin;
  repeat (destruct Hin as [<-|Hin]; [first [discriminate Hget | reflexivity]|]);
  try contradiction.
Ltac same_value :=
  intros ? Hx; cbn in Hx;
  first [discriminate Hx
        | injection Hx as <-; eexists; split; [reflexivity|]; try (left; reflexivity)].
Ltac dict_step :=
  right; eexists _, _; split; [reflexivity|]; split; [reflexivity|];
  split; [intros k x Hget Hnot; unknown_key Hget Hnot
         |split; [intros k Hget Hin; known_key Hget Hin | cbn -[String.eqb]; repeat split; try same_value]].

Example doc_math_extra_adds_unknown_keys :
  adds_unknown_keys SCHEMA doc_math doc_math_extra.
Proof.
  dict_step.
  right. eexists _, _. split; [reflexivity|]. split; [reflexivity|].
  constructor; [|constructor].
  dict_step. dict_step.
Qed.

(** C4 (schema validation).  A document that lacks [nodes[0].props.name] is
    rejected with the message [root.nodes[0].props missing required key
    'name'].  In general: whenever some location of a document offends the
    schema (a required key is absent, a value's kind disagrees, a tuple has
    the wrong length), [validate_schema] raises a [TypeError] whose message is
    the printed path of an offending location followed by what is wrong
    there, and it raises nothing else.  A document that differs from an
    accepted one only by keys the schema does not mention is accepted too. *)
Theorem validate_schema_reports_path_and_ignores_unknown_keys :
  validate_schema doc_missing_name SCHEMA "root"
  = Raise (TypeError "root.nodes[0].props missing required key 'name'")
  /\ (forall obj sch p v path,
        offends obj sch p v ->
        exists p' v',
          offends obj sch p' v' /\
          validate_schema obj sch path
          = Raise (TypeError (path_str path p' ++ describe v')))
  /\ (forall obj sch path e,
        validate_schema obj sch path = Raise e ->
        exists p v, offends obj sch p v /\
                    e = TypeError (path_str path p ++ describe v))
  /\ (forall sch obj obj' path,
        adds_unknown_keys sch obj obj' ->
        validate_schema obj sch path = Ok tt ->
        validate_schema obj' sch path = Ok tt)
  /\ validate_schema doc_math_extra SCHEMA "root" = Ok tt.
Proof.
  split; [reflexivity|]. split; [|split; [|split; [|reflexivity]]].
  - intros obj sch p v path Hoff.
    destruct (validate_schema_complete _ _ _ _ Hoff path) as [e He].
    destruct (validate_schema_sound _ _ _ _ He) as (p' & v' & Hoff' & ->).
    exists p', v'. split; assumption.
  - intros obj sch path e. apply validate_schema_sound.
  - intros sch. apply validate_schema_ignores_unknown_keys.
Qed.

(** ** The topological sort *)

Lemma pop_length {A : Type} (l l' : list A) (x : A) :
  pop l = Some (l', x) -> length l = S (length l').
Proof.
  revert l' x. induction l as [|a l IH]; intros l' x H; [discriminate|].
  destruct l as [|b l].
  - injection H as <- <-. reflexivity.
  - change (pop (a :: b :: l))
      with (match pop (b :: l) with
            | Some (rest', y) => Some (a :: rest', y)
            | None => None
            end) in H.
    destruct (pop (b :: l)) as [[r y]|] eqn:Hp; [|discriminate].
    injection H as <- <-. simpl. f_equal. apply (IH r y eq_refl).
Qed.

Lemma pending_seen_more (g : graph) (seen : list oid) (v : oid) :
  pending g (v :: seen) <= pending g seen.
Proof.
  induction g as [|[k cs] g IH]; simpl; [lia|].
  fold (pending g (v :: seen)). fold (pending g seen).
  destruct (Nat.eqb k v); simpl; destruct (mem_oid k seen); lia.
Qed.

Lemma pending_visit (g : graph) (seen : list oid) (v : oid) (children : list oid) :
  oid_get g v = Some children ->
  mem_oid v seen = false ->
  pending g (v :: seen) + length children <= pending g seen.
Proof.
  intros Hget Hseen. induction g as [|[k cs] g IH]; [discriminate|].
  simpl in Hget |- *. fold (pending g (v :: seen)). fold (pending g seen).
  destruct (Nat.eqb k v) eqn:Hk.
  - injection Hget as ->. apply Nat.eqb_eq in Hk. subst k.
    rewrite Hseen. simpl. pose proof (pending_seen_more g seen v). lia.
  - simpl. specialize (IH Hget). destruct (mem_oid k seen); lia.
Qed.

(** The fuel [_topological_sort] gives its loop is enough: the loop always
    comes to its end. *)
Lemma topo_loop_enough_fuel (fuel : nat) (g : graph) :
  forall seen stack order q,
    length q + pending g seen < fuel ->
    topo_loop fuel g seen stack order q <> None.
Proof.
  induction fuel as [|fuel IH]; intros seen stack order q Hfuel; [lia|].
  simpl. destruct (pop q) as [[q' v]|] eqn:Hpop; [|discriminate].
  apply pop_length in Hpop.
  destruct (mem_oid v seen) eqn:Hseen; simpl.
  - apply IH. lia.
  - unfold graph_get. destruct (oid_get g v) as [children|] eqn:Hget; [|discriminate].
    destruct (unwind (length stack) g v stack order) as [[stack' order']|e];
      [|discriminate].
    apply IH. rewrite length_app.
    pose proof (pending_visit g seen v children Hget Hseen). lia.
Qed.

Lemma pending_nothing_seen (g : graph) :
  pending g [] = fold_right (fun kv n => length (snd kv) + n) 0 g.
Proof.
  induction g as [|[k cs] g IH]; simpl; [reflexivity|].
  fold (pending g []). rewrite IH. reflexivity.
Qed.

(** [_topological_sort] returns what its loop computes. *)
Lemma topological_sort_terminates (g : graph) :
  exists r, topo_loop (topo_fuel g) g [] [] [] (map fst g) = Some r
            /\ _topological_sort g = r.
Proof.
  unfold _topological_sort.
  destruct (topo_loop (topo_fuel g) g [] [] [] (map fst g)) as [r|] eqn:H.
  - exists r. split; reflexivity.
  - exfalso. revert H. apply topo_loop_enough_fuel.
    unfold topo_fuel. rewrite length_map, pending_nothing_seen. lia.
Qed.

(** C5 (topological validity), at the input where the code departs from it.
    In the nested scene the tree A (object 6) holds a node that uses the
    tree B (object 3), and B is met first; [_collect_trees] hands
    [_topological_sort] the graph [{B: {}, A: {B}}], whose result, the final
    [order + stack], lists A before B, and [nodes_to_dict] writes
    [node_trees] in that order.  The sort itself always returns. *)
Theorem topological_sort_lists_user_before_used :
  _topological_sort graph_B_then_A = Ok [1; 2]%nat
  /\ before 2 1 [1; 2]%nat = false
  /\ _topological_sort graph_chain = Ok [1; 2; 3]%nat
  /\ getattr nested_host 6 "name" = VStr "A"
  /\ getattr nested_host 3 "name" = VStr "B"
  /\ map (node_tree_of nested_host) [12]%nat = [Some 3%nat]
  /\ getattr nested_host 6 "nodes" = VColl [12]%nat
  /\ _collect_trees nested_host nested_selection
     = Ok ([6; 3], [13; 14; 10; 12; 10])%nat
  /\ node_trees_keys nested_document = ["A"; "B"].
Proof. vm_compute. repeat split. Qed.

(** C1 (round trip), at an input where it fails.  For the nested scene
    (a selection without links at all) [nodes_to_dict] returns a document
    that passes the schema, and [dict_to_nodes] on that document raises
    [ValueError: node group used before definition: B] instead of
    rebuilding the graph: with [reuse_existing=False] in the file the
    document came from, and with the default [reuse_existing=True] in a file
    that does not have the groups. *)
Theorem round_trip_raises_on_nested_groups :
  (exists doc,
      result_of (nodes_to_dict nested_selection true) nested_host = Ok doc
      /\ doc = nested_document
      /\ validate_schema doc SCHEMA "root" = Ok tt)
  /\ result_of (dict_to_nodes same_file_target None nested_document false) same_file
     = Raise (ValueError "node group used before definition: B")
  /\ result_of (dict_to_nodes other_file_target None nested_document true) other_file
     = Raise (ValueError "node group used before definition: B").
Proof.
  split; [|split].
  - eexists. split; [vm_compute; reflexivity|]. split; vm_compute; reflexivity.
  - vm_compute. reflexivity.
  - vm_compute. reflexivity.
Qed.

(** ** The compact printer *)

(** C9 (pretty-print reversibility), at an input where it fails.  The
    printer writes a key between quotes as it is, so a key holding a quote
    leaves its string: a node group named [my "best" group] prints as
    [{"node_trees": {"my "best" group": {}}}], where [json.dumps] escapes
    the quotes; and the mapping with the one key [a": 1, "b] prints exactly
    as the mapping with the two keys [a] and [b] does, so that no parser
    gives back both. *)
Theorem dumps_compact_does_not_escape_keys :
  forall float_repr : pyfloat -> string,
    dumps_compact float_repr doc_group_name
    = "{" ++ dquote ++ "node_trees" ++ dquote ++ ": {" ++ dquote ++ "my " ++ dquote
        ++ "best" ++ dquote ++ " group" ++ dquote ++ ": {}}}"
    /\ json_dumps float_repr doc_group_name
       = "{" ++ dquote ++ "node_trees" ++ dquote ++ ": {" ++ dquote ++ "my " ++ backslash
           ++ dquote ++ "best" ++ backslash ++ dquote ++ " group" ++ dquote ++ ": {}}}"
    /\ dumps_compact float_repr doc_quoted_key = dumps_compact float_repr doc_two_keys
    /\ doc_quoted_key <> doc_two_keys
    /\ (forall parse : string -> option pyval,
          ~ (parse (dumps_compact float_repr doc_quoted_key) = Some doc_quoted_key
             /\ parse (dumps_compact float_repr doc_two_keys) = Some doc_two_keys)).
Proof.
  intros float_repr.
  assert (Hsame : dumps_compact float_repr doc_quoted_key
                  = dumps_compact float_repr doc_two_keys) by (vm_compute; reflexivity).
  assert (Hneq : doc_quoted_key <> doc_two_keys) by (vm_compute; discriminate).
  split; [vm_compute; reflexivity|]. split; [vm_compute; reflexivity|].
  split; [exact Hsame|]. split; [exact Hneq|].
  intros parse [H1 H2]. rewrite Hsame in H1.
  apply Hneq. generalize (eq_trans (eq_sym H1) H2).
  generalize doc_quoted_key doc_two_keys. intros a b Hab. injection Hab as ->.
  reflexivity.
Qed.

(** ** The serializer *)

(** C10 (empty selection).  [nodes_to_dict] on no nodes returns the empty
    mapping, whatever [include_groups] is, and leaves the host as it was; the
    empty mapping has none of the required keys and the schema rejects it. *)
Theorem nodes_to_dict_empty_selection :
  forall (h : bpy) (include_groups : bool),
    nodes_to_dict [] include_groups h = (Ok (PDict []), h)
    /\ (forall key, In key ["version"; "type"; "app_version"; "nodes"] ->
                    py_get (PDict []) key = Ok None)
    /\ validate_schema (PDict []) SCHEMA "root"
       = Raise (TypeError "root missing required key 'version'").
Proof.
  intros h include_groups. split; [reflexivity|]. split; [|reflexivity].
  intros key _. reflexivity.
Qed.

(** ** Host effects: what a step leaves alone *)

Lemma mbind_ok_inv {A B : Type} (c : M A) (k : A -> M B) (h h' : bpy) (b : B) :
  mbind c k h = (Ok b, h') ->
  exists a h0, c h = (Ok a, h0) /\ k a h0 = (Ok b, h').
Proof.
  unfold mbind. destruct (c h) as [[a|e] h0]; intros H.
  - exists a, h0. split; [reflexivity | exact H].
  - discriminate.
Qed.

(** A step that leaves [bpy.data] as it is. *)
Definition keeps_data {A : Type} (c : M A) : Prop :=
  forall h, data (snd (c h)) = data h.

Lemma keeps_data_ret {A : Type} (a : A) : keeps_data (ret a).
Proof. intros h. reflexivity. Qed.

Lemma keeps_data_raise {A : Type} (e : exn) : keeps_data (@raise A e).
Proof. intros h. reflexivity. Qed.

Lemma keeps_data_lift {A : Type} (r : result A) : keeps_data (lift r).
Proof. intros h. reflexivity. Qed.

Lemma keeps_data_read {A : Type} (f : bpy -> result A) : keeps_data (read f).
Proof. intros h. reflexivity. Qed.

Lemma keeps_data_bind {A B : Type} (c : M A) (k : A -> M B) :
  keeps_data c -> (forall a, keeps_data (k a)) -> keeps_data (mbind c k).
Proof.
  intros Hc Hk h. unfold mbind. specialize (Hc h).
  destruct (c h) as [[a|e] h0]; simpl in *.
  - rewrite (Hk a h0). exact Hc.
  - exact Hc.
Qed.

Lemma keeps_data_for_each {A : Type} (items : list A) (body : A -> M unit) :
  (forall x, keeps_data (body x)) -> keeps_data (for_each items body).
Proof.
  intros H. induction items as [|x rest IH]; simpl.
  - apply keeps_data_ret.
  - apply keeps_data_bind; [apply H | intros _; exact IH].
Qed.

Lemma keeps_data_alloc (x : object) : keeps_data (alloc x).
Proof. intros h. reflexivity. Qed.

Lemma keeps_data_free (o : oid) : keeps_data (free o).
Proof. intros h. reflexivity. Qed.

Lemma keeps_data_store_attr (o : oid) (name : string) (v : value) :
  keeps_data (store_attr o name v).
Proof.
  intros h. unfold store_attr. destruct (heap_get (heap h) o); reflexivity.
Qed.

Lemma keeps_data_setattr (o : oid) (name : string) (v : value) :
  keeps_data (setattr o name v).
Proof.
  intros h. unfold setattr.
  destruct (find_prop (properties_of h o) name) as [p|]; [|reflexivity].
  destruct (is_readonly p); [reflexivity|]. apply keeps_data_store_attr.
Qed.

Lemma keeps_data_lookup_type {T : Type} (registry : list (string * T)) (idname : string) :
  keeps_data (lookup_type registry idname).
Proof.
  intros h. unfold lookup_type. destruct (dict_get registry idname); reflexivity.
Qed.

Create HintDb frame discriminated.
#[export] Hint Resolve keeps_data_ret keeps_data_raise keeps_data_lift keeps_data_read
  keeps_data_alloc keeps_data_free keeps_data_store_attr keeps_data_setattr
  keeps_data_lookup_type : frame.

(** Splits a program into its steps and closes the ones the hints know. *)
Ltac frame :=
  repeat first
    [ progress intros
    | progress cbv beta
    | apply keeps_data_bind
    | apply keeps_data_for_each
    | solve [auto with frame]
    | match goal with
      | |- keeps_data (match ?x with _ => _ end) => destruct x
      | |- keeps_data (if ?x then _ else _) => destruct x
      end ].

(** For a step that first looks at the state it runs in: fix that state. *)
Ltac at_state :=
  let h := fresh "h" in
  intros h; cbv beta;
  match goal with
  | |- data (snd (?c h)) = data h =>
      let Hk := fresh in enough (keeps_data c) as Hk by exact (Hk h)
  end.

Lemma keeps_data_coll_append (owner : oid) (name : string) (item : oid) :
  keeps_data (coll_append owner name item).
Proof. unfold coll_append. frame. Qed.

Lemma keeps_data_coll_remove (owner : oid) (name : string) (item : oid) :
  keeps_data (coll_remove owner name item).
Proof.
  intros h. unfold coll_remove. destruct (getattr h owner name); try reflexivity.
  pose proof (keeps_data_store_attr owner name (VColl (remove_oid item items)) h) as H.
  destruct (store_attr owner name (VColl (remove_oid item items)) h). exact H.
Qed.

#[export] Hint Resolve keeps_data_coll_append keeps_data_coll_remove : frame.

Lemma keeps_data_new_sockets (node : oid) (is_output : bool) (types : list struct_type) :
  keeps_data (new_sockets node is_output types).
Proof. induction types as [|t rest IH]; simpl; frame. Qed.

#[export] Hint Resolve keeps_data_new_sockets : frame.

Lemma keeps_data_nodes_new (tree : oid) (idname : string) :
  keeps_data (nodes_new tree idname).
Proof. unfold nodes_new. at_state. frame. Qed.

Lemma keeps_data_nodes_remove (tree node : oid) : keeps_data (nodes_remove tree node).
Proof. unfold nodes_remove. at_state. frame. Qed.

Lemma keeps_data_interface_new_item (tree : oid) (type_name : string)
      (extra : list (string * value)) :
  keeps_data (interface_new_item tree type_name extra).
Proof. unfold interface_new_item. at_state. frame. Qed.

Lemma keeps_data_pair_with_output (node out_node : oid) :
  keeps_data (pair_with_output node out_node).
Proof. unfold pair_with_output. frame. Qed.

#[export] Hint Resolve keeps_data_nodes_new keeps_data_nodes_remove
  keeps_data_interface_new_item keeps_data_pair_with_output : frame.

Lemma keeps_data_create_default_nodes (node_group : oid) (keys : list type_key) :
  forall default_nodes, keeps_data (create_default_nodes node_group keys default_nodes).
Proof.
  induction keys as [|[idname group_tree] rest IH]; intros default_nodes; simpl.
  - frame.
  - apply keeps_data_bind; [|intros default_node; apply keeps_data_bind; [frame | frame]].
    intros h. cbv beta.
    destruct (version_lt (app_version h) (5, 0, 0)%Z
              && String.eqb idname "CompositorNodeRLayers"); apply keeps_data_nodes_new.
Qed.

Lemma keeps_data_pair_default_nodes (default_nodes items : list (type_key * oid)) :
  keeps_data (pair_default_nodes default_nodes items).
Proof.
  induction items as [|[[idname t] node] rest IH]; simpl; [frame|].
  apply keeps_data_bind; [|intros _; exact IH].
  intros h. cbv beta.
  destruct (hasattr h node "paired_output"); [|reflexivity].
  destruct (key_get default_nodes (replace "Input" "Output" idname, None));
    [apply keeps_data_pair_with_output | reflexivity].
Qed.

(** ** The clean-up of the defaults group *)

(** A step that never raises. *)
Definition completes {A : Type} (c : M A) : Prop :=
  forall h, exists a, fst (c h) = Ok a.

(** A step that brings no freed object back. *)
Definition frees_only {A : Type} (c : M A) : Prop :=
  forall h o, heap_get (heap h) o = None -> heap_get (heap (snd (c h))) o = None.

Lemma completes_ret {A : Type} (a : A) : completes (ret a).
Proof. intros h. exists a. reflexivity. Qed.

Lemma completes_bind {A B : Type} (c : M A) (k : A -> M B) :
  completes c -> (forall a, completes (k a)) -> completes (mbind c k).
Proof.
  intros Hc Hk h. unfold mbind. destruct (Hc h) as [a Ha].
  destruct (c h) as [r h0]. simpl in Ha. subst r. apply Hk.
Qed.

Lemma completes_for_each {A : Type} (items : list A) (body : A -> M unit) :
  (forall x, completes (body x)) -> completes (for_each items body).
Proof.
  intros H. induction items as [|x rest IH]; simpl.
  - apply completes_ret.
  - apply completes_bind; [apply H | intros _; exact IH].
Qed.

Lemma completes_free (o : oid) : completes (free o).
Proof. intros h. exists tt. reflexivity. Qed.

Lemma completes_coll_remove (owner : oid) (name : string) (item : oid) :
  completes (coll_remove owner name item).
Proof.
  intros h. exists tt. unfold coll_remove.
  destruct (getattr h owner name); try reflexivity.
  destruct (store_attr owner name (VColl (remove_oid item items)) h). reflexivity.
Qed.

Lemma completes_nodes_remove (tree node : oid) : completes (nodes_remove tree node).
Proof.
  intros h. unfold nodes_remove.
  apply (completes_bind (coll_remove tree "nodes" node)); [apply completes_coll_remove|].
  intros _. apply completes_bind; [|intros _; apply completes_free].
  apply completes_for_each. apply completes_free.
Qed.

Lemma completes_node_groups_remove (tree : oid) : completes (node_groups_remove tree).
Proof.
  intros h. unfold node_groups_remove.
  apply (completes_bind (for_each (coll_items h tree "nodes") (nodes_remove tree))).
  { apply completes_for_each. apply completes_nodes_remove. }
  intros _. apply completes_bind.
  { destruct (getattr h tree "interface"); try apply completes_ret.
    apply completes_bind; [apply completes_for_each; apply completes_free|].
    intros _. apply completes_bind; [|intros _; apply completes_free].
    destruct (getattr h o "root_panel"); first [apply completes_free | apply completes_ret]. }
  intros _. apply completes_bind; [|intros _; apply completes_free].
  intros h'. exists tt. reflexivity.
Qed.

Lemma heap_get_remove_same (hp : list (oid * object)) (o : oid) :
  heap_get (heap_remove hp o) o = None.
Proof.
  induction hp as [|[o' x] hp IH]; simpl; [reflexivity|].
  destruct (Nat.eqb o' o) eqn:E; [exact IH|]. simpl. rewrite E. exact IH.
Qed.

Lemma heap_get_remove_none (hp : list (oid * object)) (o o' : oid) :
  heap_get hp o = None -> heap_get (heap_remove hp o') o = None.
Proof.
  induction hp as [|[k x] hp IH]; simpl; [reflexivity|].
  destruct (Nat.eqb k o) eqn:E; [discriminate|]. intros H.
  destruct (Nat.eqb k o'); [exact (IH H)|]. simpl. rewrite E. exact (IH H).
Qed.

Lemma heap_get_set_none (hp : list (oid * object)) (o o' : oid) (x y : object) :
  heap_get hp o' = Some y -> heap_get hp o = None -> heap_get (heap_set hp o' x) o = None.
Proof.
  induction hp as [|[k z] hp IH]; simpl; [discriminate|].
  destruct (Nat.eqb k o') eqn:E'; destruct (Nat.eqb k o) eqn:E; intros H1 H2;
    try discriminate; simpl; rewrite E; [exact H2 | exact (IH H1 H2)].
Qed.

Lemma frees_only_ret {A : Type} (a : A) : frees_only (ret a).
Proof. intros h o H. exact H. Qed.

Lemma frees_only_bind {A B : Type} (c : M A) (k : A -> M B) :
  frees_only c -> (forall a, frees_only (k a)) -> frees_only (mbind c k).
Proof.
  intros Hc Hk h o H. unfold mbind. specialize (Hc h o H).
  destruct (c h) as [[a|e] h0]; simpl in *; [apply Hk; exact Hc | exact Hc].
Qed.

Lemma frees_only_for_each {A : Type} (items : list A) (body : A -> M unit) :
  (forall x, frees_only (body x)) -> frees_only (for_each items body).
Proof.
  intros H. induction items as [|x rest IH]; simpl.
  - apply frees_only_ret.
  - apply frees_only_bind; [apply H | intros _; exact IH].
Qed.

Lemma frees_only_free (o' : oid) : frees_only (free o').
Proof. intros h o H. simpl. apply heap_get_remove_none. exact H. Qed.

Lemma frees_only_store_attr (o' : oid) (name : string) (v : value) :
  frees_only (store_attr o' name v).
Proof.
  intros h o H. unfold store_attr.
  destruct (heap_get (heap h) o') as [y|] eqn:E; simpl; [|exact H].
  eapply heap_get_set_none; eassumption.
Qed.

Lemma frees_only_coll_remove (owner : oid) (name : string) (item : oid) :
  frees_only (coll_remove owner name item).
Proof.
  intros h o H. unfold coll_remove. destruct (getattr h owner name); try exact H.
  pose proof (frees_only_store_attr owner name (VColl (remove_oid item items)) h o H) as Hs.
  destruct (store_attr owner name (VColl (remove_oid item items)) h). exact Hs.
Qed.

Lemma frees_only_nodes_remove (tree node : oid) : frees_only (nodes_remove tree node).
Proof.
  intros h. unfold nodes_remove.
  apply (frees_only_bind (coll_remove tree "nodes" node)); [apply frees_only_coll_remove|].
  intros _. apply frees_only_bind; [|intros _; apply frees_only_free].
  apply frees_only_for_each. apply frees_only_free.
Qed.

Lemma frees_only_node_groups_remove (tree : oid) : frees_only (node_groups_remove tree).
Proof.
  intros h. unfold node_groups_remove.
  apply (frees_only_bind (for_each (coll_items h tree "nodes") (nodes_remove tree))).
  { apply frees_only_for_each. apply frees_only_nodes_remove. }
  intros _. apply frees_only_bind.
  { destruct (getattr h tree "interface"); try apply frees_only_ret.
    apply frees_only_bind; [apply frees_only_for_each; apply frees_only_free|].
    intros _. apply frees_only_bind; [|intros _; apply frees_only_free].
    destruct (getattr h o "root_panel"); first [apply frees_only_free | apply frees_only_ret]. }
  intros _. apply frees_only_bind; [|intros _; apply frees_only_free].
  intros h' o H. exact H.
Qed.

(** What runs to its end under [mbind] hands its state on. *)
Lemma mbind_run {A B : Type} (c : M A) (k : A -> M B) (h h0 : bpy) (a : A) :
  c h = (Ok a, h0) -> mbind c k h = k a h0.
Proof. intros H. unfold mbind. rewrite H. reflexivity. Qed.

Lemma completes_run (c : M unit) (h : bpy) :
  completes c -> c h = (Ok tt, snd (c h)).
Proof.
  intros H. destruct (H h) as [[] Ha]. destruct (c h) as [r h']. simpl in *.
  subst r. reflexivity.
Qed.

(** After [nodes_remove] the node is gone. *)
Lemma nodes_remove_frees (tree node : oid) (h : bpy) :
  heap_get (heap (snd (nodes_remove tree node h))) node = None.
Proof.
  unfold nodes_remove.
  rewrite (mbind_run _ _ h _ tt (completes_run _ h (completes_coll_remove _ _ _))).
  set (h1 := snd (coll_remove tree "nodes" node h)).
  set (socks := (coll_items h node "inputs" ++ coll_items h node "outputs")%list).
  rewrite (mbind_run _ _ h1 _ tt
             (completes_run _ h1 (completes_for_each socks free completes_free))).
  simpl. apply heap_get_remove_same.
Qed.

(** After the loop over [nodes_remove] every node of the list is gone. *)
Lemma for_each_nodes_remove_frees (tree : oid) (nodes : list oid) :
  forall h node, In node nodes ->
                 heap_get (heap (snd (for_each nodes (nodes_remove tree) h))) node = None.
Proof.
  induction nodes as [|n rest IH]; intros h node Hin; [contradiction|].
  simpl.
  rewrite (mbind_run _ _ h _ tt (completes_run _ h (completes_nodes_remove tree n))).
  destruct Hin as [<-|Hin].
  - apply frees_only_for_each; [apply frees_only_nodes_remove|].
    apply nodes_remove_frees.
  - apply IH. exact Hin.
Qed.

Lemma dict_get_set_same {V : Type} (d : list (string * V)) (key : string) (v : V) :
  dict_get (dict_set d key v) key = Some v.
Proof.
  induction d as [|[k w] d IH]; simpl.
  - rewrite String.eqb_refl. reflexivity.
  - destruct (String.eqb k key) eqn:E; simpl; rewrite E; [reflexivity | exact IH].
Qed.

(** [node_groups.remove] takes the tree off the list of node groups and
    frees it. *)
Lemma node_groups_remove_effect (tree : oid) (h : bpy) :
  let h' := snd (node_groups_remove tree h) in
  node_groups h' = remove_oid tree (node_groups h)
  /\ heap_get (heap h') tree = None.
Proof.
  unfold node_groups_remove.
  set (c1 := for_each (coll_items h tree "nodes") (nodes_remove tree)).
  assert (H1 : completes c1)
    by (apply completes_for_each; apply completes_nodes_remove).
  assert (K1 : keeps_data c1) by (unfold c1; frame).
  rewrite (mbind_run _ _ h _ tt (completes_run _ h H1)).
  set (h1 := snd (c1 h)).
  set (c2 := match getattr h tree "interface" with
             | VRef i =>
                 for_each (coll_items h i "items_tree") free ~;;
                 match getattr h i "root_panel" with VRef r => free r | _ => ret tt end ~;;
                 free i
             | _ => ret tt
             end).
  assert (H2 : completes c2).
  { unfold c2. destruct (getattr h tree "interface"); try apply completes_ret.
    apply completes_bind; [apply completes_for_each; apply completes_free|].
    intros _. apply completes_bind; [|intros _; apply completes_free].
    destruct (getattr h o "root_panel"); first [apply completes_free | apply completes_ret]. }
  assert (K2 : keeps_data c2).
  { unfold c2. destruct (getattr h tree "interface"); frame. }
  rewrite (mbind_run _ _ h1 _ tt (completes_run _ h1 H2)).
  set (h2 := snd (c2 h1)).
  assert (Hdata : data h2 = data h).
  { unfold h2. rewrite (K2 h1). unfold h1. apply K1. }
  unfold mbind, set_node_groups. simpl. split.
  - unfold node_groups at 1. simpl. rewrite dict_get_set_same.
    unfold node_groups. rewrite Hdata. reflexivity.
  - apply heap_get_remove_same.
Qed.

Lemma read_run {A : Type} (f : bpy -> result A) (h h' : bpy) (a : A) :
  read f h = (Ok a, h') -> h' = h /\ f h = Ok a.
Proof. unfold read. intros H. injection H as H1 H2. split; [symmetry|]; assumption. Qed.

Lemma lift_run {A : Type} (r : result A) (h h' : bpy) (a : A) :
  lift r h = (Ok a, h') -> h' = h /\ r = Ok a.
Proof. unfold lift. intros H. injection H as H1 H2. split; [symmetry|]; assumption. Qed.

Lemma lookup_type_run {T : Type} (registry : list (string * T)) (idname : string)
      (h h' : bpy) (t : T) :
  lookup_type registry idname h = (Ok t, h') -> h' = h.
Proof.
  unfold lookup_type. destruct (dict_get registry idname); intros H; [|discriminate].
  injection H as _ H. symmetry. exact H.
Qed.

(** [node_groups.new] puts the new tree, a fresh object, last in the list
    of node groups. *)
Lemma node_groups_new_effect (name tree_idname : string) (h h' : bpy) (g : oid) :
  node_groups_new name tree_idname h = (Ok g, h') ->
  node_groups h' = (node_groups h ++ [g])%list /\ next_oid h <= g.
Proof.
  unfold node_groups_new. intros H.
  apply mbind_ok_inv in H as (tt1 & h1 & E1 & H). apply lookup_type_run in E1. subst h1.
  apply mbind_ok_inv in H as (tt2 & h2 & E2 & H). apply lookup_type_run in E2. subst h2.
  apply mbind_ok_inv in H as (tt3 & h3 & E3 & H). apply lookup_type_run in E3. subst h3.
  apply mbind_ok_inv in H as (root & h4 & E4 & H). unfold alloc in E4.
  injection E4 as <- <-.
  apply mbind_ok_inv in H as (interface & h5 & E5 & H). unfold alloc in E5.
  injection E5 as <- <-.
  apply mbind_ok_inv in H as (tree & h6 & E6 & H). unfold alloc in E6.
  injection E6 as <- <-.
  apply mbind_ok_inv in H as ([] & h7 & E7 & H). unfold set_node_groups in E7.
  injection E7 as <-. unfold ret in H. injection H as <- <-.
  split.
  - unfold node_groups at 1. simpl. rewrite dict_get_set_same. reflexivity.
  - simpl. lia.
Qed.

Lemma remove_oid_fresh (o : oid) (l : list oid) :
  ~ In o l -> remove_oid o l = l.
Proof.
  unfold remove_oid. intros H. induction l as [|x l IH]; simpl; [reflexivity|].
  destruct (Nat.eqb x o) eqn:E; simpl.
  - apply Nat.eqb_eq in E. subst x. exfalso. apply H. left. reflexivity.
  - rewrite IH; [reflexivity|]. intros Hin. apply H. right. exact Hin.
Qed.

Lemma remove_oid_last (o : oid) (l : list oid) :
  ~ In o l -> remove_oid o (l ++ [o])%list = l.
Proof.
  intros H. unfold remove_oid. rewrite filter_app. simpl.
  rewrite Nat.eqb_refl. simpl. rewrite app_nil_r. apply remove_oid_fresh. exact H.
Qed.

(** The defaults group is the one change [prepare_defaults] makes to the
    list of node groups. *)
Lemma prepare_defaults_effect (first : oid) (nodes : list oid) (include_groups : bool)
      (h h1 : bpy) (d : defaults) :
  prepare_defaults first nodes include_groups h = (Ok d, h1) ->
  node_groups h1 = (node_groups h ++ [d_node_group d])%list
  /\ next_oid h <= d_node_group d.
Proof.
  unfold prepare_defaults. intros H.
  apply mbind_ok_inv in H as (collected & h0 & E & H).
  assert (h0 = h) as ->.
  { destruct include_groups; [apply read_run in E | unfold ret in E; injection E as _ E];
      [tauto | symmetry; exact E]. }
  clear E.
  apply mbind_ok_inv in H as (id_data & h0 & E & H). apply read_run in E as [-> _].
  apply mbind_ok_inv in H as (tree_type & h0 & E & H). apply read_run in E as [-> _].
  apply mbind_ok_inv in H as (node_types & h0 & E & H). apply read_run in E as [-> _].
  apply mbind_ok_inv in H as (tree_idname & h0 & E & H). apply read_run in E as [-> _].
  apply mbind_ok_inv in H as (tree_idname_s & h0 & E & H). apply lift_run in E as [-> _].
  apply mbind_ok_inv in H as (node_group & hA & Enew & H).
  apply node_groups_new_effect in Enew as [Hgroups Hfresh].
  apply mbind_ok_inv in H as (default_nodes & hB & E1 & H).
  pose proof (keeps_data_create_default_nodes node_group node_types [] hA) as K1.
  rewrite E1 in K1. simpl in K1.
  apply mbind_ok_inv in H as (default_socket & hC & E2 & H).
  pose proof (keeps_data_interface_new_item node_group "NodeSocketFloat"
                [("name", VStr "default"); ("description", VStr "");
                 ("in_out", VStr "INPUT"); ("socket_type", VStr "NodeSocketFloat")] hB) as K2.
  unfold interface_new_socket in E2. rewrite E2 in K2. simpl in K2.
  apply mbind_ok_inv in H as ([] & hD & E3 & H).
  pose proof (keeps_data_pair_default_nodes default_nodes default_nodes hC) as K3.
  rewrite E3 in K3. simpl in K3.
  apply mbind_ok_inv in H as (doc & h0 & E & H). apply read_run in E as [-> _].
  unfold ret in H. injection H as <- <-. simpl.
  split; [|exact Hfresh].
  unfold node_groups in *. rewrite K3, K2, K1. exact Hgroups.
Qed.

(** The [finally] block at work.  When the hidden defaults group and
    its default nodes have been made ([prepare_defaults] returned), then
    whatever the serialization of the nodes and trees does, return a
    document or raise, [nodes_to_dict] ends with that very outcome in a
    state where the defaults group, which was among the node groups while
    the nodes were serialized, is among them no more, the list of node
    groups is what it was before the call, and the group and every default
    node are freed. *)
Theorem defaults_group_removed_after_serialization :
  forall (h h1 : bpy) (first : oid) (others : list oid) (include_groups : bool)
         (d : defaults),
    (forall o, In o (node_groups h) -> o < next_oid h) ->
    prepare_defaults first (first :: others) include_groups h = (Ok d, h1) ->
    exists h2,
      nodes_to_dict (first :: others) include_groups h
      = (serialize_document h1 (d_result d) (first :: others) (d_trees d)
                            (d_default_nodes d) (d_default_socket d) (d_node_group d),
         h2)
      /\ In (d_node_group d) (node_groups h1)
      /\ ~ In (d_node_group d) (node_groups h2)
      /\ node_groups h2 = node_groups h
      /\ heap_get (heap h2) (d_node_group d) = None
      /\ (forall key node, In (key, node) (d_default_nodes d) ->
                           heap_get (heap h2) node = None).
Proof.
  intros h h1 first others include_groups d Hwf Hprep.
  pose proof (prepare_defaults_effect _ _ _ _ _ _ Hprep) as [Hgroups Hfresh].
  assert (Hnew : ~ In (d_node_group d) (node_groups h)).
  { intros Hin. apply Hwf in Hin. lia. }
  set (g := d_node_group d) in *.
  set (nodes := map snd (d_default_nodes d)).
  set (c1 := for_each nodes (nodes_remove g)).
  assert (C1 : completes c1)
    by (apply completes_for_each; apply completes_nodes_remove).
  assert (K1 : keeps_data c1) by (unfold c1; frame).
  set (hB := snd (c1 h1)).
  set (h2 := snd (node_groups_remove g hB)).
  assert (Hclean : remove_defaults g (d_default_nodes d) h1 = (Ok tt, h2)).
  { unfold remove_defaults. fold nodes. fold c1.
    rewrite (mbind_run _ _ h1 _ tt (completes_run _ h1 C1)). fold hB.
    apply (completes_run _ hB (completes_node_groups_remove g)). }
  exists h2.
  destruct (node_groups_remove_effect g hB) as [Hrem Hfreed]. fold h2 in Hrem, Hfreed.
  assert (HgroupsB : node_groups hB = node_groups h1).
  { unfold node_groups. unfold hB. rewrite (K1 h1). reflexivity. }
  assert (Hafter : node_groups h2 = node_groups h).
  { rewrite Hrem, HgroupsB, Hgroups. apply remove_oid_last. exact Hnew. }
  split; [|split; [|split; [|split; [|split]]]].
  - unfold nodes_to_dict. rewrite (mbind_run _ _ h _ d Hprep).
    unfold serialize_and_clean_up, try_finally, read. fold g. rewrite Hclean.
    reflexivity.
  - rewrite Hgroups. apply in_or_app. right. left. reflexivity.
  - rewrite Hafter. exact Hnew.
  - exact Hafter.
  - exact Hfreed.
  - intros key node Hin. unfold h2.
    apply frees_only_node_groups_remove. unfold hB, c1.
    apply for_each_nodes_remove_frees. unfold nodes.
    apply (in_map snd) in Hin. exact Hin.
Qed.

(** For the nested selection the defaults group is made, the document is
    serialized and the node groups of the host are afterwards what they
    were; and when serializing a node raises (a link that lost its source
    socket), the exception leaves [nodes_to_dict] with the defaults group
    removed all the same. *)
Lemma defaults_group_removed_after_serialization_witness :
  (forall o, In o (node_groups nested_host) -> o < next_oid nested_host)
  /\ (exists d h1, prepare_defaults 13 [13; 14] true nested_host = (Ok d, h1))
  /\ node_groups (state_after (nodes_to_dict [13; 14] true) nested_host)
     = node_groups nested_host
  /\ result_of (nodes_to_dict [4; 6] true) broken_link_host
     = Raise (ValueError (repr_of_value (VRef 999) ++ " not found in sockets"))
  /\ node_groups (state_after (nodes_to_dict [4; 6] true) broken_link_host)
     = node_groups broken_link_host.
Proof.
  assert (Hwf : forall o, In o (node_groups nested_host) -> o < next_oid nested_host).
  { intros o Hin. vm_compute in Hin. vm_compute.
    repeat (destruct Hin as [<- | Hin]; [repeat constructor|]). destruct Hin. }
  assert (Hwf' : forall o, In o (node_groups broken_link_host)
                           -> o < next_oid broken_link_host).
  { intros o Hin. vm_compute in Hin. vm_compute.
    repeat (destruct Hin as [<- | Hin]; [repeat constructor|]). destruct Hin. }
  split; [exact Hwf|].
  destruct (prepare_defaults 13 [13; 14] true nested_host) as [[d | e] h1] eqn:E;
    [| exfalso; vm_compute in E; discriminate E].
  destruct (prepare_defaults 4 [4; 6] true broken_link_host) as [[d' | e'] h1'] eqn:E';
    [| exfalso; vm_compute in E'; discriminate E'].
  split; [exists d, h1; reflexivity|].
  destruct (defaults_group_removed_after_serialization
              nested_host h1 13 [14] true d Hwf E) as [h2 [Hrun [_ [_ [Hsame _]]]]].
  destruct (defaults_group_removed_after_serialization
              broken_link_host h1' 4 [6] true d' Hwf' E') as [h2' [Hrun' [_ [_ [Hsame' _]]]]].
  apply (f_equal snd) in Hrun, Hrun'. cbn [snd] in Hrun, Hrun'.
  split; [rewrite <- Hsame; apply (f_equal node_groups); exact Hrun|].
  split; [vm_compute; reflexivity|].
  rewrite <- Hsame'. apply (f_equal node_groups). exact Hrun'.
Defined.

Lemma mbind_raise_inv {A B : Type} (c : M A) (k : A -> M B) (h h' : bpy) (e : exn) :
  mbind c k h = (Raise e, h') ->
  c h = (Raise e, h')
  \/ exists a h0, c h = (Ok a, h0) /\ k a h0 = (Raise e, h').
Proof.
  unfold mbind. destruct (c h) as [[a | e0] h0]; intros H.
  - right. exists a, h0. split; [reflexivity|exact H].
  - left. injection H as <- <-. reflexivity.
Qed.

Lemma read_raise {A : Type} (f : bpy -> result A) (h h' : bpy) (e : exn) :
  read f h = (Raise e, h') -> h' = h.
Proof. unfold read. intros H. injection H as _ <-. reflexivity. Qed.

Lemma lift_raise {A : Type} (r : result A) (h h' : bpy) (e : exn) :
  lift r h = (Raise e, h') -> h' = h.
Proof. unfold lift. intros H. injection H as _ <-. reflexivity. Qed.

Lemma lookup_type_raise {T : Type} (registry : list (string * T)) (idname : string)
      (h h' : bpy) (e : exn) :
  lookup_type registry idname h = (Raise e, h') -> h' = h.
Proof.
  unfold lookup_type. destruct (dict_get registry idname); intros H;
    injection H as _ <-; reflexivity.
Qed.

(** A [node_groups.new] that raises has made nothing. *)
Lemma node_groups_new_raise (name tree_idname : string) (h h' : bpy) (e : exn) :
  node_groups_new name tree_idname h = (Raise e, h') -> h' = h.
Proof.
  unfold node_groups_new. intros H.
  apply mbind_raise_inv in H as [H | (t1 & h1 & E1 & H)];
    [apply lookup_type_raise in H; exact H|].
  apply lookup_type_run in E1. subst h1.
  apply mbind_raise_inv in H as [H | (t2 & h2 & E2 & H)];
    [apply lookup_type_raise in H; exact H|].
  apply lookup_type_run in E2. subst h2.
  apply mbind_raise_inv in H as [H | (t3 & h3 & E3 & H)];
    [apply lookup_type_raise in H; exact H|].
  apply lookup_type_run in E3. subst h3.
  exfalso. unfold mbind, alloc, set_node_groups, ret in H. discriminate H.
Qed.

(** C8 does not hold of the code: the hidden defaults group is not removed
    on every exit path.  The group and the default nodes are made before
    the protected block is entered, so when any step before that block
    raises, [nodes_to_dict] raises the same exception in the very state the
    failing step left, and the [finally] block is not run.  That state is
    the one before the call when the failure came before the group was
    made (while the trees were collected, the node types were read, or in
    [node_groups.new] itself); after that, when the creation of a default
    node, of the default socket or the pairing of the zone nodes raises,
    the new group is still last among the node groups of the file. *)
Theorem defaults_group_left_when_preparation_fails :
  forall (h h' : bpy) (first : oid) (others : list oid) (include_groups : bool) (e : exn),
    prepare_defaults first (first :: others) include_groups h = (Raise e, h') ->
    nodes_to_dict (first :: others) include_groups h = (Raise e, h')
    /\ (h' = h
        \/ exists idname g hA,
             node_groups_new ".defaults" idname h = (Ok g, hA)
             /\ next_oid h <= g
             /\ node_groups h' = (node_groups h ++ [g])%list).
Proof.
  intros h h' first others include_groups e Hprep.
  split.
  { unfold nodes_to_dict, mbind. rewrite Hprep. reflexivity. }
  unfold prepare_defaults in Hprep.
  apply mbind_raise_inv in Hprep as [H | (collected & h0 & E & H)].
  { left. destruct include_groups; [apply read_raise in H; exact H|discriminate H]. }
  assert (h0 = h) as ->.
  { destruct include_groups; [apply read_run in E | unfold ret in E; injection E as _ E];
      [tauto | symmetry; exact E]. }
  clear E.
  apply mbind_raise_inv in H as [H | (id_data & h0 & E & H)];
    [left; apply read_raise in H; exact H|].
  apply read_run in E as [-> _].
  apply mbind_raise_inv in H as [H | (tree_type & h0 & E & H)];
    [left; apply read_raise in H; exact H|].
  apply read_run in E as [-> _].
  apply mbind_raise_inv in H as [H | (node_types & h0 & E & H)];
    [left; apply read_raise in H; exact H|].
  apply read_run in E as [-> _].
  apply mbind_raise_inv in H as [H | (tree_idname & h0 & E & H)];
    [left; apply read_raise in H; exact H|].
  apply read_run in E as [-> _].
  apply mbind_raise_inv in H as [H | (tree_idname_s & h0 & E & H)];
    [left; apply lift_raise in H; exact H|].
  apply lift_run in E as [-> _].
  apply mbind_raise_inv in H as [H | (node_group & hA & Enew & H)];
    [left; apply node_groups_new_raise in H; exact H|].
  right. exists tree_idname_s, node_group, hA. split; [exact Enew|].
  apply node_groups_new_effect in Enew as [Hgroups Hfresh]. split; [exact Hfresh|].
  rewrite <- Hgroups. unfold node_groups.
  pose proof (keeps_data_create_default_nodes node_group node_types [] hA) as K1.
  apply mbind_raise_inv in H as [H | (default_nodes & hB & E1 & H)].
  { rewrite H in K1. simpl in K1. rewrite K1. reflexivity. }
  rewrite E1 in K1. simpl in K1.
  pose proof (keeps_data_interface_new_item node_group "NodeSocketFloat"
                [("name", VStr "default"); ("description", VStr "");
                 ("in_out", VStr "INPUT"); ("socket_type", VStr "NodeSocketFloat")] hB) as K2.
  unfold interface_new_socket in H.
  apply mbind_raise_inv in H as [H | (default_socket & hC & E2 & H)].
  { rewrite H in K2. simpl in K2. rewrite K2, K1. reflexivity. }
  rewrite E2 in K2. simpl in K2.
  pose proof (keeps_data_pair_default_nodes default_nodes default_nodes hC) as K3.
  apply mbind_raise_inv in H as [H | ([] & hD & E3 & H)].
  { rewrite H in K3. simpl in K3. rewrite K3, K2, K1. reflexivity. }
  exfalso.
  apply mbind_raise_inv in H as [H | (doc & h0 & E & H)]; [|discriminate H].
  unfold read in H. destruct (app_version hD) as [[major minor] patch]. discriminate H.
Qed.

(** C8 at the failing input: a selected node of a type the host cannot make
    (the type of a missing add-on) makes the creation of its default node
    raise, and the call is left with the hidden [.defaults] group still
    among the node groups of the file. *)
Lemma defaults_group_left_when_preparation_fails_witness :
  fst (prepare_defaults 4 [4] true undefined_host)
  = Raise (RuntimeError "type NodeUndefined undefined")
  /\ nodes_to_dict [4] true undefined_host
     = (Raise (RuntimeError "type NodeUndefined undefined"),
        snd (prepare_defaults 4 [4] true undefined_host))
  /\ undefined_selection = [4]
  /\ group_names undefined_host = ["Main"]
  /\ group_names (state_after (nodes_to_dict [4] true) undefined_host)
     = ["Main"; ".defaults"].
Proof.
  destruct (prepare_defaults 4 [4] true undefined_host) as [[d | e] h'] eqn:E;
    [exfalso; vm_compute in E; discriminate E|].
  assert (He : e = RuntimeError "type NodeUndefined undefined").
  { apply (f_equal fst) in E. vm_compute in E. injection E as E. symmetry. exact E. }
  subst e. cbn [fst snd].
  split; [reflexivity|].
  split; [exact (proj1 (defaults_group_left_when_preparation_fails
                          undefined_host h' 4 [] true _ E))|].
  repeat split; vm_compute; reflexivity.
Defined.


(** ** Reusing an existing node group *)

(** A recorded float is compared with itself: the live value plays no part
    in the comparison of a float property. *)
Lemma item_value_equal_float_ignores_live_value :
  forall (h : bpy) (k : string) (f : pyfloat) (id_v id_v' : value),
    item_value_equal h k (PFloat f) id_v = item_value_equal h k (PFloat f) id_v'.
Proof. intros h k f id_v id_v'. reflexivity. Qed.

(** C2 (interface-equality reuse), at an input where it fails.  The file
    has a node group [G] whose one interface item, the float input [Value],
    has the default 0.0; the document, which passes the schema, records [G]
    with the same item but the default 1.0.  [_has_equal_interface] answers
    [True], and the paste with [reuse_existing=True] reuses [G] (no group is
    added to the file), although the item differs from the live one.  A
    recorded default that is the integer 1, or another name, is compared
    with the live value, found different, and a new group [G.001] is
    made. *)
Theorem has_equal_interface_compares_float_with_itself :
  getattr reuse_host reuse_item "default_value" = VFloat float_zero
  /\ validate_schema (group_document (tree_record "Value" (PFloat float_one)))
                     SCHEMA "root" = Ok tt
  /\ _has_equal_interface reuse_host (tree_record "Value" (PFloat float_one)) reuse_group
     = Ok true
  /\ groups_after (group_document (tree_record "Value" (PFloat float_one))) true
     = ["G"; "Target"]
  /\ _has_equal_interface reuse_host (tree_record "Value" (PInt 1)) reuse_group
     = Ok false
  /\ groups_after (group_document (tree_record "Value" (PInt 1))) true
     = ["G"; "Target"; "G.001"]
  /\ _has_equal_interface reuse_host (tree_record "Other" (PFloat float_zero)) reuse_group
     = Ok false
  /\ groups_after (group_document (tree_record "Other" (PFloat float_zero))) true
     = ["G"; "Target"; "G.001"].
Proof. repeat split; vm_compute; reflexivity. Qed.

(** ** Links of a pasted batch *)

(** C7 (soft-reference tolerance), at an input where it fails.  In the
    pasted batch the Math node names a parent and a paired output that are
    not in the batch, and its first input records links.  Links from a node
    that is absent, or from output 5 of the Value node (which has one
    output), are dropped without an error, and so are the parent and the
    pairing.  But the index is only checked against the number of outputs
    from above: a link from output -2 of the Value node, which passes the
    schema, makes the paste raise [IndexError], and a link from output -1 is
    made, from the last output. *)
Theorem create_nodes_raises_on_negative_link_index :
  (paste_result (dangling_document [link_to "Ghost" 0; link_to "Value" 5]) = Ok tt
   /\ pasted_links (dangling_document [link_to "Ghost" 0; link_to "Value" 5]) = []
   /\ pasted_parents (dangling_document [link_to "Ghost" 0; link_to "Value" 5])
      = [("Value", VNone); ("Math", VNone)])
  /\ (validate_schema (dangling_document [link_to "Value" (-2)]) SCHEMA "root" = Ok tt
      /\ paste_result (dangling_document [link_to "Value" (-2)])
         = Raise (IndexError "index out of range"))
  /\ pasted_links (dangling_document [link_to "Value" 0])
     = [(("Value", Some 0%nat), ("Math", Some 0%nat))]
  /\ pasted_links (dangling_document [link_to "Value" (-1)])
     = [(("Value", Some 0%nat), ("Math", Some 0%nat))].
Proof. repeat split; vm_compute; reflexivity. Qed.

(** ** Properties at their default *)

Lemma dict_get_set_other :
  forall (V : Type) (d : list (string * V)) (key k : string) (v : V),
    k <> key -> dict_get (dict_set d key v) k = dict_get d k.
Proof.
  intros V d key k v Hk. induction d as [|[k0 w] d IH]; cbn [dict_set dict_get].
  - destruct (String.eqb key k) eqn:E; [|reflexivity].
    apply String.eqb_eq in E. symmetry in E. contradiction.
  - destruct (String.eqb k0 key) eqn:E; cbn [dict_get].
    + destruct (String.eqb k0 k) eqn:E1; [|reflexivity].
      apply String.eqb_eq in E, E1. congruence.
    + destruct (String.eqb k0 k); [reflexivity|exact IH].
Qed.

Lemma insert_prop_In :
  forall (p q : rna_prop) (l : list rna_prop),
    In p (insert_prop q l) <-> p = q \/ In p l.
Proof.
  intros p q l. induction l as [|r l IH]; simpl.
  - intuition congruence.
  - destruct (String.ltb (identifier q) (identifier r)); simpl; intuition congruence.
Qed.

Lemma sort_props_In :
  forall (p : rna_prop) (l : list rna_prop), In p (sort_props l) <-> In p l.
Proof.
  intros p l. unfold sort_props.
  assert (H : forall acc, In p (fold_left (fun acc q => insert_prop q acc) l acc)
                          <-> In p l \/ In p acc).
  { induction l as [|q l IH]; intros acc; simpl.
    - intuition.
    - rewrite IH, insert_prop_In. intuition congruence. }
  rewrite H. simpl. intuition.
Qed.

Lemma has_name_prop_spec :
  forall (props : list rna_prop),
    existsb (fun p => is_name p && negb (is_hidden p)) props = true ->
    exists prop, In prop props /\ identifier prop = "name" /\ is_hidden prop = false.
Proof.
  intros props Hex. apply existsb_exists in Hex. destruct Hex as [p [Hin Hp]].
  apply andb_prop in Hp. destruct Hp as [Hn Hh]. exists p. split; [exact Hin|].
  split; [apply String.eqb_eq; exact Hn|]. destruct (is_hidden p); [discriminate Hh|reflexivity].
Qed.

(** Take a node whose name is a string held by a visible [name] property,
    and let every property that is neither skipped nor hidden be at its
    default: no collection, and equal to the default node's value unless it
    is read-only or the name.  Then the [props] of its record, as
    [_serialize_nodes] computes them, hold the name and nothing else. *)
Lemma props_without_collections_hold_only_name :
  forall (depth : nat) (h : bpy) (node default_node : oid) (skip_props : list string)
         (name : string),
    mem "name" skip_props = false ->
    getattr h node "name" = VStr name ->
    (exists prop, In prop (properties_of h node)
                  /\ identifier prop = "name" /\ is_hidden prop = false) ->
    (forall prop, In prop (properties_of h node) ->
                  at_default h node default_node skip_props prop) ->
    _iter_properties (S depth) h node (Some default_node) skip_props ["name"]
    = Ok [("name", PStr name)].
Proof.
  intros depth h node default_node skip_props name Hskip Hname [p0 [Hin0 [Hid0 Hvis0]]] Hdef.
  cbn [_iter_properties].
  apply sort_props_In in Hin0.
  assert (Hall : forall prop, In prop (sort_props (properties_of h node)) ->
                              at_default h node default_node skip_props prop).
  { intros prop Hin. apply Hdef. apply sort_props_In. exact Hin. }
  revert Hin0 Hall. generalize (sort_props (properties_of h node)). intros props Hin0 Hall.
  match goal with |- ?f props [] = _ => set (each := f) end.
  assert (Hloop : forall props acc,
             (forall prop, In prop props -> at_default h node default_node skip_props prop) ->
             acc = [] \/ acc = [("name", PStr name)] ->
             each props acc
             = Ok (if existsb (fun p => is_name p && negb (is_hidden p)) props
                   then [("name", PStr name)] else acc)).
  { clear props Hin0 Hall. induction props as [|p props IH]; intros acc Hall Hacc.
    - reflexivity.
    - assert (Hp := Hall p (or_introl eq_refl)).
      assert (Hrest : forall prop, In prop props ->
                                   at_default h node default_node skip_props prop)
        by (intros prop Hin; apply Hall; right; exact Hin).
      cbn [existsb]. unfold is_name at 1.
      change (each (p :: props) acc) with
        (if mem (identifier p) skip_props then each props acc
         else if is_hidden p then each props acc
         else match kind p with
              | COLLECTION =>
                  coll <- attr h node (identifier p) ;;
                  items <- as_coll coll ;;
                  dicts <- map_result
                             (fun q => _iter_properties depth h q (Some default_node)
                                                        skip_props ["name"]) items ;;
                  each props (dict_set acc (_short_prop_name (identifier p))
                                       (PList (map PDict dicts)))
              | _ =>
                  let force_include := mem (identifier p) ["name"] in
                  if negb force_include && is_readonly p then each props acc
                  else
                    properties' <- _serialize_prop h acc node p
                                     (if force_include then None else Some default_node) ;;
                    each props properties'
              end).
      destruct (String.eqb (identifier p) "name") eqn:Hn.
      + apply String.eqb_eq in Hn.
        rewrite Hn. rewrite Hskip.
        destruct (is_hidden p) eqn:Hh; cbn [negb andb orb].
        * apply IH; assumption.
        * unfold at_default in Hp. rewrite Hn in Hp. destruct (Hp Hskip Hh) as [Hc [Hptr _]].
          specialize (Hptr eq_refl).
          assert (Hser : _serialize_prop h acc node p None = Ok [("name", PStr name)]).
          { unfold _serialize_prop. rewrite Hn, Hname. cbn [value_eqb].
            destruct Hacc as [-> | ->]; destruct (kind p); try congruence; reflexivity. }
          assert (Hnext : each props [("name", PStr name)] = Ok [("name", PStr name)]).
          { rewrite (IH _ Hrest (or_intror eq_refl)). destruct (existsb _ props); reflexivity. }
          destruct (kind p); try congruence; cbn; rewrite Hser; cbn; exact Hnext.
      + cbn [andb orb].
        destruct (mem (identifier p) skip_props) eqn:Hs; [apply IH; assumption|].
        destruct (is_hidden p) eqn:Hh; [apply IH; assumption|].
        destruct (Hp Hs Hh) as [Hc [_ Heq]].
        assert (Hne : identifier p <> "name").
        { intros E. rewrite E in Hn. discriminate Hn. }
        assert (Hforce : mem (identifier p) ["name"] = false).
        { unfold mem. cbn [existsb]. rewrite Hn. reflexivity. }
        assert (Hstep : (if negb (mem (identifier p) ["name"]) && is_readonly p
                         then each props acc
                         else properties' <- _serialize_prop h acc node p
                                (if mem (identifier p) ["name"] then None
                                 else Some default_node) ;;
                              each props properties')
                        = each props acc).
        { rewrite Hforce. cbn [negb andb].
          destruct (is_readonly p) eqn:Hro; [reflexivity|].
          specialize (Heq Hne eq_refl).
          unfold _serialize_prop. rewrite Heq.
          destruct (getattr h node (identifier p)); reflexivity. }
        destruct (kind p); try congruence; cbv zeta; rewrite Hstep; apply IH; assumption. }
  rewrite (Hloop props [] Hall (or_introl eq_refl)).
  assert (Hex : existsb (fun p => is_name p && negb (is_hidden p)) props = true).
  { apply existsb_exists. exists p0. split; [exact Hin0|].
    unfold is_name. rewrite Hid0, Hvis0. reflexivity. }
  rewrite Hex. reflexivity.
Qed.

Lemma dict_get_keys :
  forall (V : Type) (d : list (string * V)) (k : string),
    In k (map fst d) <-> dict_get d k <> None.
Proof.
  intros V d k. induction d as [|[k0 w] d IH]; cbn [map fst In dict_get].
  - split; [intros []|intros H; apply H; reflexivity].
  - destruct (String.eqb k0 k) eqn:E.
    + apply String.eqb_eq in E. split; [intros _; discriminate|intros _; left; exact E].
    + rewrite <- IH. split; [|intros H; right; exact H].
      intros [H|H]; [subst k0; rewrite String.eqb_refl in E; discriminate E|exact H].
Qed.

Lemma short_prop_name_is_name :
  forall (id : string), _short_prop_name id = "name" -> id = "name".
Proof.
  intros id. unfold _short_prop_name, _long_to_short_prop_name. cbn [dict_get].
  destruct (String.eqb "location_absolute" id); [discriminate|].
  destruct (String.eqb "default_value" id); [discriminate|]. auto.
Qed.

Lemma default_unless_collection_b_spec :
  forall (h : bpy) (node default_node : oid) (skip_props : list string) (prop : rna_prop),
    default_unless_collection_b h node default_node skip_props prop = true ->
    default_unless_collection h node default_node skip_props prop.
Proof.
  intros h node default_node skip_props prop Hb Hskip Hhid.
  unfold default_unless_collection_b in Hb. rewrite Hskip, Hhid in Hb. cbn [orb] in Hb.
  unfold is_name in Hb. split.
  - intros Hname. rewrite Hname in Hb. cbn in Hb.
    split; intros E; rewrite E in Hb; discriminate Hb.
  - intros Hname Hcoll Hro.
    destruct (String.eqb (identifier prop) "name") eqn:Hn;
      [apply String.eqb_eq in Hn; contradiction|].
    rewrite Hro in Hb. destruct (kind prop); try exact Hb. contradiction.
Qed.

Lemma keys_of_collections_sorted :
  forall (skip_props : list string) (props : list rna_prop) (key : string),
    In key (keys_of_collections skip_props (sort_props props))
    <-> In key (keys_of_collections skip_props props).
Proof.
  intros skip_props props key. unfold keys_of_collections.
  rewrite !in_map_iff. split; intros [p [Hp Hin]]; exists p; (split; [exact Hp|]);
    rewrite filter_In in *; rewrite sort_props_In in *; exact Hin.
Qed.

Section Default_props.

Variables (depth : nat) (h : bpy) (node default_node : oid) (skip_props : list string).
Variable name : string.
Hypothesis Hskip : mem "name" skip_props = false.
Hypothesis Hname : getattr h node "name" = VStr name.

(** The loop of [_iter_properties]. *)
Variable each : list rna_prop -> pydict -> result pydict.
Hypothesis each_nil : forall acc, each [] acc = Ok acc.
Hypothesis each_cons :
  forall p props acc,
    each (p :: props) acc
    = if mem (identifier p) skip_props then each props acc
      else if is_hidden p then each props acc
      else match kind p with
           | COLLECTION =>
               coll <- attr h node (identifier p) ;;
               items <- as_coll coll ;;
               dicts <- map_result
                          (fun q => _iter_properties depth h q (Some default_node)
                                                     skip_props ["name"]) items ;;
               each props (dict_set acc (_short_prop_name (identifier p))
                                    (PList (map PDict dicts)))
           | _ =>
               let force_include := mem (identifier p) ["name"] in
               if negb force_include && is_readonly p then each props acc
               else
                 properties' <- _serialize_prop h acc node p
                                  (if force_include then None else Some default_node) ;;
                 each props properties'
           end.

(** One turn of the loop on a property that is at its default unless it is
    a collection: a collection is written, the name is written, and
    anything else is left out. *)
Lemma iter_properties_turn :
  forall (p : rna_prop) (props : list rna_prop) (acc : pydict),
    default_unless_collection h node default_node skip_props p ->
    each (p :: props) acc
    = (if visible_collection skip_props p
       then dicts <- collection_records depth h node (Some default_node)
                                        skip_props ["name"] p ;;
            each props (dict_set acc (_short_prop_name (identifier p))
                                 (PList (map PDict dicts)))
       else if is_name p && negb (is_hidden p)
            then each props (dict_set acc "name" (PStr name))
            else each props acc)
    /\ (visible_collection skip_props p = true ->
        is_name p && negb (is_hidden p) = false).
Proof.
  intros p props acc Hp. rewrite each_cons. unfold visible_collection, is_name.
  destruct (mem (identifier p) skip_props) eqn:Hs.
  { cbn [negb andb].
    destruct (String.eqb (identifier p) "name") eqn:Hn.
    - apply String.eqb_eq in Hn. rewrite Hn in Hs. rewrite Hs in Hskip. discriminate Hskip.
    - split; [reflexivity|discriminate]. }
  destruct (is_hidden p) eqn:Hh.
  { cbn [negb andb]. rewrite Bool.andb_false_r. split; [reflexivity|discriminate]. }
  destruct (Hp Hs Hh) as [Hn Hd]. cbn [negb andb].
  destruct (String.eqb (identifier p) "name") eqn:En.
  - apply String.eqb_eq in En. destruct (Hn En) as [Hptr Hcoll].
    assert (Hser : _serialize_prop h acc node p None
                   = Ok (dict_set acc "name" (PStr name))).
    { unfold _serialize_prop. rewrite En, Hname. cbn [value_eqb].
      destruct (kind p); try congruence; reflexivity. }
    rewrite En in *. cbn [mem existsb String.eqb Ascii.eqb Bool.eqb orb negb andb].
    destruct (kind p); try congruence; cbv zeta; rewrite Hser;
      (split; [reflexivity|discriminate]).
  - assert (Hne : identifier p <> "name").
    { intros E. rewrite E in En. discriminate En. }
    assert (Hforce : mem (identifier p) ["name"] = false).
    { unfold mem. cbn [existsb]. rewrite En. reflexivity. }
    cbn [andb].
    assert (Hplain : kind p <> COLLECTION ->
                     (if negb (mem (identifier p) ["name"]) && is_readonly p
                      then each props acc
                      else properties' <- _serialize_prop h acc node p
                             (if mem (identifier p) ["name"] then None
                              else Some default_node) ;;
                           each props properties')
                     = each props acc).
    { intros Hk. rewrite Hforce. cbn [negb andb].
      destruct (is_readonly p) eqn:Hro; [reflexivity|].
      specialize (Hd Hne Hk eq_refl).
      unfold _serialize_prop. rewrite Hd.
      destruct (getattr h node (identifier p)); reflexivity. }
    destruct (kind p) eqn:Hk; cbv zeta;
      try (rewrite Hplain by discriminate; split; [reflexivity|discriminate]).
    split; [|reflexivity].
    unfold collection_records.
    destruct (attr h node (identifier p)) as [coll|e]; [|reflexivity]. cbn [bind].
    destruct (as_coll coll) as [items|e]; [|reflexivity]. reflexivity.
Qed.

(** No collection is written under the key of the name. *)
Lemma name_is_no_collection_key :
  forall (props : list rna_prop),
    (forall p, In p props -> default_unless_collection h node default_node skip_props p) ->
    ~ In "name" (keys_of_collections skip_props props).
Proof.
  intros props Hall Hin. unfold keys_of_collections in Hin.
  apply in_map_iff in Hin. destruct Hin as [p [Hkey Hp]].
  apply filter_In in Hp. destruct Hp as [Hp Hvis].
  apply short_prop_name_is_name in Hkey.
  unfold visible_collection in Hvis.
  destruct (mem (identifier p) skip_props) eqn:Hs; [discriminate Hvis|].
  destruct (is_hidden p) eqn:Hh; [discriminate Hvis|].
  destruct (Hall p Hp Hs Hh) as [Hn _]. destruct (Hn Hkey) as [_ Hc].
  destruct (kind p); try discriminate Hvis. apply Hc. reflexivity.
Qed.

(** What the loop has written when it returns. *)
Lemma iter_properties_loop :
  forall (props : list rna_prop) (acc out : pydict),
    (forall p, In p props -> default_unless_collection h node default_node skip_props p) ->
    each props acc = Ok out ->
    (has_name_prop props = true -> dict_get out "name" = Some (PStr name))
    /\ (forall key, ~ In key (keys_of_collections skip_props props) ->
                    (key = "name" -> has_name_prop props = false) ->
                    dict_get out key = dict_get acc key)
    /\ (forall key, In key (keys_of_collections skip_props props) ->
          exists prop dicts,
            In prop props
            /\ visible_collection skip_props prop = true
            /\ _short_prop_name (identifier prop) = key
            /\ collection_records depth h node (Some default_node) skip_props ["name"] prop
               = Ok dicts
            /\ dict_get out key = Some (PList (map PDict dicts))).
Proof.
  induction props as [|p props IH]; intros acc out Hall Hrun.
  - rewrite each_nil in Hrun. injection Hrun as <-.
    split; [discriminate|]. split; [reflexivity|intros key []].
  - assert (Hp := Hall p (or_introl eq_refl)).
    assert (Hrest : forall q, In q props ->
                              default_unless_collection h node default_node skip_props q)
      by (intros q Hq; apply Hall; right; exact Hq).
    pose proof (name_is_no_collection_key props Hrest) as Hnokey.
    destruct (iter_properties_turn p props acc Hp) as [Hturn Hexcl].
    rewrite Hturn in Hrun. clear Hturn.
    unfold has_name_prop, keys_of_collections. cbn [existsb filter].
    fold (has_name_prop props).
    destruct (visible_collection skip_props p) eqn:Hvis.
    + rewrite (Hexcl eq_refl). cbn [orb map]. fold (keys_of_collections skip_props props).
      apply bind_ok_inv in Hrun. destruct Hrun as [dicts [Hrec Hrun]].
      destruct (IH _ _ Hrest Hrun) as [I1 [I2 I3]].
      assert (Hkeyname : _short_prop_name (identifier p) <> "name").
      { intros E. apply short_prop_name_is_name in E.
        unfold is_name in Hexcl. rewrite E in Hexcl. cbn in Hexcl.
        unfold visible_collection in Hvis.
        destruct (is_hidden p); [rewrite Bool.andb_false_r in Hvis; discriminate Hvis|].
        specialize (Hexcl eq_refl). discriminate Hexcl. }
      split; [exact I1|]. split.
      * intros key Hnot Hnm.
        rewrite (I2 key); [|intros Hin; apply Hnot; right; exact Hin|exact Hnm].
        apply dict_get_set_other. intros E. apply Hnot. left. symmetry. exact E.
      * intros key Hin.
        destruct (in_dec string_dec key (keys_of_collections skip_props props)) as [Hk|Hk].
        -- destruct (I3 key Hk) as [prop [ds [Hq H]]].
           exists prop, ds. split; [right; exact Hq|exact H].
        -- destruct Hin as [Hin|Hin]; [|contradiction]. subst key.
           exists p, dicts. split; [left; reflexivity|]. split; [exact Hvis|].
           split; [reflexivity|]. split; [exact Hrec|].
           rewrite (I2 _ Hk); [apply dict_get_set_same|].
           intros E. contradiction.
    + clear Hexcl. fold (keys_of_collections skip_props props).
      destruct (is_name p && negb (is_hidden p)) eqn:Hnm; cbn [orb].
      * destruct (IH _ _ Hrest Hrun) as [I1 [I2 I3]].
        split; [|split].
        -- intros _. destruct (has_name_prop props) eqn:Hmore; [apply I1; reflexivity|].
           rewrite (I2 "name" Hnokey (fun _ => eq_refl)). apply dict_get_set_same.
        -- intros key Hnot Hkey.
           assert (Hne : key <> "name") by (intros E; specialize (Hkey E); discriminate Hkey).
           rewrite (I2 key Hnot); [|intros E; contradiction].
           apply dict_get_set_other. exact Hne.
        -- intros key Hin. destruct (I3 key Hin) as [prop [ds [Hq H]]].
           exists prop, ds. split; [right; exact Hq|exact H].
      * destruct (IH _ _ Hrest Hrun) as [I1 [I2 I3]].
        split; [exact I1|]. split; [exact I2|].
        intros key Hin. destruct (I3 key Hin) as [prop [ds [Hq H]]].
        exists prop, ds. split; [right; exact Hq|exact H].
Qed.

(** The loop returns when the items of every visible collection can be
    read. *)
Lemma iter_properties_loop_returns :
  forall (props : list rna_prop) (acc : pydict),
    (forall p, In p props -> default_unless_collection h node default_node skip_props p) ->
    (forall p, In p props -> visible_collection skip_props p = true ->
               exists dicts, collection_records depth h node (Some default_node)
                                                skip_props ["name"] p = Ok dicts) ->
    exists out, each props acc = Ok out.
Proof.
  induction props as [|p props IH]; intros acc Hall Hread.
  - exists acc. apply each_nil.
  - assert (Hp := Hall p (or_introl eq_refl)).
    assert (Hrest : forall q, In q props ->
                              default_unless_collection h node default_node skip_props q)
      by (intros q Hq; apply Hall; right; exact Hq).
    assert (Hread' : forall q, In q props -> visible_collection skip_props q = true ->
               exists dicts, collection_records depth h node (Some default_node)
                                                skip_props ["name"] q = Ok dicts)
      by (intros q Hq; apply Hread; right; exact Hq).
    destruct (iter_properties_turn p props acc Hp) as [Hturn _]. rewrite Hturn.
    destruct (visible_collection skip_props p) eqn:Hvis.
    + destruct (Hread p (or_introl eq_refl) Hvis) as [dicts Hrec]. rewrite Hrec.
      cbn [bind]. apply IH; assumption.
    + destruct (is_name p && negb (is_hidden p)); apply IH; assumption.
Qed.

End Default_props.

(** C3, as amended (default-diff minimality).  Take a node whose name is a
    string held by a visible [name] property that is neither a pointer nor
    a collection, and let every other property that is neither skipped,
    hidden, read-only nor a collection equal the default node's.  Then the
    [props] of its record, as [_serialize_nodes] computes them, hold the
    name, and besides the name exactly one key for every visible
    collection, under which the properties of its items are listed: a
    collection is written whether or not it equals the default's.  The
    props are computed whenever the items of the visible collections can
    be read, and they hold the name and nothing else when the node has no
    visible collection. *)
Theorem default_node_props_hold_name_and_collections :
  forall (depth : nat) (h : bpy) (node default_node : oid) (skip_props : list string)
         (name : string),
    mem "name" skip_props = false ->
    getattr h node "name" = VStr name ->
    (exists prop, In prop (properties_of h node)
                  /\ identifier prop = "name" /\ is_hidden prop = false) ->
    (forall prop, In prop (properties_of h node) ->
                  default_unless_collection h node default_node skip_props prop) ->
    (forall out,
        _iter_properties (S depth) h node (Some default_node) skip_props ["name"] = Ok out ->
        dict_get out "name" = Some (PStr name)
        /\ (forall key, In key (map fst out)
                        <-> key = "name" \/ In key (collection_keys h node skip_props))
        /\ (forall key, In key (collection_keys h node skip_props) ->
              exists prop dicts,
                In prop (properties_of h node)
                /\ visible_collection skip_props prop = true
                /\ _short_prop_name (identifier prop) = key
                /\ collection_records depth h node (Some default_node)
                                      skip_props ["name"] prop = Ok dicts
                /\ dict_get out key = Some (PList (map PDict dicts))))
    /\ ((forall prop, In prop (properties_of h node) ->
                      visible_collection skip_props prop = true ->
                      exists dicts, collection_records depth h node (Some default_node)
                                                       skip_props ["name"] prop = Ok dicts) ->
        exists out,
          _iter_properties (S depth) h node (Some default_node) skip_props ["name"] = Ok out)
    /\ (collection_keys h node skip_props = [] ->
        _iter_properties (S depth) h node (Some default_node) skip_props ["name"]
        = Ok [("name", PStr name)]).
Proof.
  intros depth h node default_node skip_props name Hskip Hname Hhas Hdef.
  assert (Honly : collection_keys h node skip_props = [] ->
                  _iter_properties (S depth) h node (Some default_node) skip_props ["name"]
                  = Ok [("name", PStr name)]).
  { intros Hnone. apply props_without_collections_hold_only_name; try assumption.
    intros prop Hin Hs Hh. destruct (Hdef prop Hin Hs Hh) as [Hn Hd].
    assert (Hk : kind prop <> COLLECTION).
    { intros Hk.
      assert (Hkey : In (_short_prop_name (identifier prop))
                        (collection_keys h node skip_props)).
      { unfold collection_keys, keys_of_collections.
        apply in_map_iff. exists prop. split; [reflexivity|].
        apply filter_In. split; [exact Hin|].
        unfold visible_collection. rewrite Hs, Hh, Hk. reflexivity. }
      rewrite Hnone in Hkey. destruct Hkey. }
    split; [exact Hk|]. split.
    - intros E. apply (Hn E).
    - intros E Hro. apply (Hd E Hk Hro). }
  destruct Hhas as [p0 [Hin0 [Hid0 Hvis0]]].
  set (props := sort_props (properties_of h node)).
  assert (Hall : forall p, In p props ->
                           default_unless_collection h node default_node skip_props p).
  { intros p Hp. apply Hdef. apply sort_props_In. exact Hp. }
  assert (Hname_prop : has_name_prop props = true).
  { apply existsb_exists. exists p0. split; [apply sort_props_In; exact Hin0|].
    unfold is_name. rewrite Hid0, Hvis0. reflexivity. }
  split; [|split; [|exact Honly]]; cbn [_iter_properties]; fold props.
  - match goal with |- forall out, ?f props [] = _ -> _ => set (each := f) end.
    intros out Hrun.
    destruct (iter_properties_loop depth h node default_node skip_props name Hskip Hname
                each (fun acc => eq_refl) (fun p ps acc => eq_refl)
                props [] out Hall Hrun) as [I1 [I2 I3]].
    split; [apply I1; exact Hname_prop|]. split.
    + intros key. rewrite dict_get_keys. unfold collection_keys.
      rewrite <- (keys_of_collections_sorted skip_props (properties_of h node) key).
      fold props. split.
      * intros Hsome. destruct (string_dec key "name") as [E|E]; [left; exact E|].
        right.
        destruct (in_dec string_dec key (keys_of_collections skip_props props)) as [Hk|Hk];
          [exact Hk|].
        exfalso. apply Hsome. rewrite (I2 key Hk); [reflexivity|].
        intros E'. contradiction.
      * intros [->|Hk]; [rewrite (I1 Hname_prop); discriminate|].
        destruct (I3 key Hk) as [prop [ds [_ [_ [_ [_ Hget]]]]]]. rewrite Hget. discriminate.
    + intros key Hk. unfold collection_keys in Hk.
      apply keys_of_collections_sorted in Hk. fold props in Hk.
      destruct (I3 key Hk) as [prop [ds [Hq H]]].
      exists prop, ds. split; [apply sort_props_In; exact Hq|exact H].
  - match goal with |- _ -> exists out, ?f props [] = _ => set (each := f) end.
    intros Hread.
    apply (iter_properties_loop_returns depth h node default_node skip_props name
             Hskip Hname each (fun acc => eq_refl) (fun p ps acc => eq_refl)
             props [] Hall).
    intros p Hp Hv. apply Hread; [apply sort_props_In; exact Hp|exact Hv].
Qed.

(** C3, the amended statement at two nodes nobody has touched.  The props
    of a Capture Attribute node, which has the collection [capture_items],
    hold the name and that collection and nothing else; the props of a Math
    node, which has no collection, hold the name alone. *)
Lemma default_node_props_hold_name_and_collections_witness :
  collection_keys (fresh_node_host "GeometryNodeTree" "GeometryNodeCaptureAttribute")
                  4 node_skip_props = ["capture_items"]
  /\ (forall out,
         _iter_properties (S 999)
                          (fresh_node_host "GeometryNodeTree" "GeometryNodeCaptureAttribute")
                          4 (Some 8) node_skip_props ["name"] = Ok out ->
         dict_get out "name" = Some (PStr "Capture Attribute")
         /\ (forall key, In key (map fst out) <-> key = "name" \/ key = "capture_items"))
  /\ _iter_properties (S 999)
                      (fresh_node_host "GeometryNodeTree" "GeometryNodeCaptureAttribute")
                      4 (Some 8) node_skip_props ["name"]
     = Ok [("capture_items", PList []); ("name", PStr "Capture Attribute")]
  /\ collection_keys (fresh_node_host "ShaderNodeTree" "ShaderNodeMath") 4 node_skip_props
     = []
  /\ _iter_properties (S 999) (fresh_node_host "ShaderNodeTree" "ShaderNodeMath")
                      4 (Some 11) node_skip_props ["name"]
     = Ok [("name", PStr "Math")].
Proof.
  assert (Hkeys : collection_keys
                    (fresh_node_host "GeometryNodeTree" "GeometryNodeCaptureAttribute")
                    4 node_skip_props = ["capture_items"])
    by (vm_compute; reflexivity).
  assert (Hnone : collection_keys (fresh_node_host "ShaderNodeTree" "ShaderNodeMath")
                                  4 node_skip_props = [])
    by (vm_compute; reflexivity).
  destruct (default_node_props_hold_name_and_collections
              999 (fresh_node_host "GeometryNodeTree" "GeometryNodeCaptureAttribute")
              4 8 node_skip_props "Capture Attribute") as [Hout _].
  { vm_compute; reflexivity. }
  { vm_compute; reflexivity. }
  { apply has_name_prop_spec. vm_compute; reflexivity. }
  { intros prop Hin. apply default_unless_collection_b_spec. revert prop Hin.
    apply forallb_forall. vm_compute; reflexivity. }
  destruct (default_node_props_hold_name_and_collections
              999 (fresh_node_host "ShaderNodeTree" "ShaderNodeMath")
              4 11 node_skip_props "Math") as [_ [_ Honly]].
  { vm_compute; reflexivity. }
  { vm_compute; reflexivity. }
  { apply has_name_prop_spec. vm_compute; reflexivity. }
  { intros prop Hin. apply default_unless_collection_b_spec. revert prop Hin.
    apply forallb_forall. vm_compute; reflexivity. }
  split; [exact Hkeys|]. split.
  - intros out Hrun. destruct (Hout out Hrun) as [Hn [Hk _]]. split; [exact Hn|].
    intros key. rewrite (Hk key), Hkeys. cbn [In]. split.
    + intros [E|[E|[]]]; [left; exact E|right; symmetry; exact E].
    + intros [E|E]; [left; exact E|right; left; symmetry; exact E].
  - split; [vm_compute; reflexivity|]. split; [exact Hnone|].
    apply Honly. exact Hnone.
Defined.

(** C3 as stated does not hold: a collection is written whatever it holds.
    A Capture Attribute node nobody has touched equals the default node in
    every property, its collection [capture_items] included (both are
    empty), and the props of its record have the keys [capture_items] and
    [name]. *)
Lemma default_node_with_collection_records_it :
  fresh_node "GeometryNodeTree" "GeometryNodeCaptureAttribute" = (4, 8)
  /\ equals_default (fresh_node_host "GeometryNodeTree" "GeometryNodeCaptureAttribute") 4 8
     = true
  /\ fresh_node_record "GeometryNodeTree" "GeometryNodeCaptureAttribute"
     = Ok (PDict [("bl_idname", PStr "GeometryNodeCaptureAttribute");
                  ("props", PDict [("capture_items", PList []);
                                   ("name", PStr "Capture Attribute")])])
  /\ props_keys (fresh_node_record "GeometryNodeTree" "GeometryNodeCaptureAttribute")
     = ["capture_items"; "name"].
Proof. repeat split; vm_compute; reflexivity. Qed.

(** ** The version of a document *)

(** Two computations that agree at every state, bound to continuations that
    agree at every value and state, agree. *)
Lemma mbind_ext :
  forall (A B : Type) (c c' : M A) (k k' : A -> M B) (h : bpy),
    c h = c' h ->
    (forall a h', k a h' = k' a h') ->
    mbind c k h = mbind c' k' h.
Proof.
  intros A B c c' k k' h Hc Hk. unfold mbind. rewrite Hc.
  destruct (c' h) as [[a | e] h']; [apply Hk | reflexivity].
Qed.

Section Version.

Variables d d' : pydict.
Hypothesis Hsame : same_but_version d d'.

Lemma other_key : forall key, String.eqb key "version" = false -> dict_get d key = dict_get d' key.
Proof.
  intros key Hk. apply Hsame. intros E. rewrite E in Hk. discriminate Hk.
Qed.

Lemma validate_schema_same_but_version :
  validate_schema (PDict d) SCHEMA "root" = validate_schema (PDict d') SCHEMA "root".
Proof.
  destruct Hsame as [[v Hv] [[v' Hv'] _]].
  unfold SCHEMA. cbn [validate_schema]. rewrite Hv, Hv'. cbn [isinstance bind].
  rewrite (other_key "type" eq_refl), (other_key "app_version" eq_refl),
    (other_key "nodes" eq_refl), (other_key "node_trees" eq_refl).
  reflexivity.
Qed.

Lemma must_recreate_same_but_version :
  forall (h : bpy) (reuse_existing : bool) (td : pyval) (node_group : option oid),
    must_recreate h reuse_existing (PDict d) td node_group
    = must_recreate h reuse_existing (PDict d') td node_group.
Proof.
  intros h reuse_existing td node_group. unfold must_recreate, py_item.
  cbn [py_dict bind]. rewrite (other_key "type" eq_refl). reflexivity.
Qed.

Lemma resolve_trees_same_but_version :
  forall (target_tree : oid) (reuse_existing : bool) (raw_trees todo : pydict)
         (trees : list (string * oid)) (h : bpy),
    resolve_trees target_tree reuse_existing (PDict d) raw_trees todo trees h
    = resolve_trees target_tree reuse_existing (PDict d') raw_trees todo trees h.
Proof.
  intros target_tree reuse_existing raw_trees todo.
  induction todo as [|[name td] rest IH]; intros trees h; [reflexivity|].
  cbn [resolve_trees].
  apply mbind_ext; [reflexivity|]. intros existing h1.
  apply mbind_ext; [unfold read; rewrite must_recreate_same_but_version; reflexivity|].
  intros recreate h2.
  apply mbind_ext; [reflexivity|]. intros node_group h3. apply IH.
Qed.

Lemma dict_to_nodes_same_but_version :
  forall (target_tree : oid) (target_location : option (pyfloat * pyfloat))
         (reuse_existing : bool) (h : bpy),
    dict_to_nodes target_tree target_location (PDict d) reuse_existing h
    = dict_to_nodes target_tree target_location (PDict d') reuse_existing h.
Proof.
  intros target_tree target_location reuse_existing h.
  unfold dict_to_nodes, py_entries, py_get, py_item. cbn [py_dict bind].
  rewrite (other_key "node_trees" eq_refl), (other_key "nodes" eq_refl).
  apply mbind_ext; [reflexivity|]. intros raw_trees h1.
  apply mbind_ext; [apply resolve_trees_same_but_version|]. intros trees h2.
  reflexivity.
Qed.

End Version.

(** C6, as amended (version handling).  The reader checks that [version]
    is an integer and never looks at its value: two parsed documents that
    differ in the integer version only are treated alike by the paste
    operator, with the same reports, the same status or exception, and the
    same state of the file afterwards. *)
Theorem paste_document_never_compares_version :
  forall (edit_tree : oid) (cursor_location : pyfloat * pyfloat) (reuse_existing : bool)
         (d d' : pydict) (h : bpy),
    same_but_version d d' ->
    paste_document edit_tree cursor_location reuse_existing (PDict d) h
    = paste_document edit_tree cursor_location reuse_existing (PDict d') h.
Proof.
  intros edit_tree cursor_location reuse_existing d d' h Hsame.
  unfold paste_document. rewrite (validate_schema_same_but_version d d' Hsame).
  destruct (validate_schema (PDict d') SCHEMA "root") as [[] | e]; [|reflexivity].
  apply mbind_ext; [reflexivity|]. intros nodes h1.
  apply mbind_ext; [reflexivity|]. intros [] h2.
  apply mbind_ext; [apply dict_to_nodes_same_but_version; exact Hsame|].
  intros [] h3. reflexivity.
Qed.

(** C6, the amended statement at a document: the document of one Value node
    marked with version 3 is pasted as the one marked with version 2 is. *)
Lemma paste_document_never_compares_version_witness :
  same_but_version (versioned_entries 3) (versioned_entries 2)
  /\ paste_document other_file_target (float_zero, float_zero) true
                    (versioned_document 3) other_file
     = paste_document other_file_target (float_zero, float_zero) true
                      (versioned_document 2) other_file.
Proof.
  assert (Hsame : same_but_version (versioned_entries 3) (versioned_entries 2)).
  { split; [exists 3%Z; reflexivity|]. split; [exists 2%Z; reflexivity|].
    intros key Hkey. unfold versioned_entries. cbn [dict_get].
    destruct (String.eqb "version" key) eqn:E; [|reflexivity].
    apply String.eqb_eq in E. symmetry in E. contradiction. }
  split; [exact Hsame|].
  apply (paste_document_never_compares_version
           other_file_target (float_zero, float_zero) true
           (versioned_entries 3) (versioned_entries 2) other_file Hsame).
Defined.

(** C6 as stated does not hold: the schema version of the engine is 2, and
    a document marked with version 3 (or -7) passes the paste operator with
    the status [FINISHED] and no report at all, its node made in the edited
    tree. *)
Lemma paste_document_accepts_other_version :
  JSON_SCHEMA_VERSION = 2%Z
  /\ paste_outcome (versioned_document 3) = Ok ([], FINISHED)
  /\ pasted_names (versioned_document 3) = ["Value"]
  /\ paste_outcome (versioned_document (-7)) = Ok ([], FINISHED)
  /\ pasted_names (versioned_document (-7)) = ["Value"].
Proof. repeat split; vm_compute; reflexivity. Qed.

(** * Further properties of the engine *)

(** ** Abbreviated property names *)

Lemma long_prop_name_of_short :
  forall (name : string),
    name <> "_loc" -> name <> "_val" ->
    _long_prop_name (_short_prop_name name) = name.
Proof.
  intros name Hloc Hval. unfold _short_prop_name, _long_prop_name.
  cbn [_long_to_short_prop_name dict_get].
  destruct (String.eqb "location_absolute" name) eqn:E1.
  - apply String.eqb_eq in E1. subst name. reflexivity.
  - destruct (String.eqb "default_value" name) eqn:E2.
    + apply String.eqb_eq in E2. subst name. reflexivity.
    + change _short_to_long_prop_name
        with [("_loc", "location_absolute"); ("_val", "default_value")].
      cbn [dict_get].
      destruct (String.eqb "_loc" name) eqn:E3;
        [apply String.eqb_eq in E3; congruence|].
      destruct (String.eqb "_val" name) eqn:E4;
        [apply String.eqb_eq in E4; congruence|].
      reflexivity.
Qed.

Lemma short_prop_name_of_long :
  forall (name : string),
    name <> "location_absolute" -> name <> "default_value" ->
    _short_prop_name (_long_prop_name name) = name.
Proof.
  intros name Hloc Hval. unfold _short_prop_name, _long_prop_name.
  change _short_to_long_prop_name
    with [("_loc", "location_absolute"); ("_val", "default_value")].
  cbn [_long_to_short_prop_name dict_get].
  destruct (String.eqb "_loc" name) eqn:E1.
  - apply String.eqb_eq in E1. subst name. reflexivity.
  - destruct (String.eqb "_val" name) eqn:E2.
    + apply String.eqb_eq in E2. subst name. reflexivity.
    + cbn [dict_get].
      destruct (String.eqb "location_absolute" name) eqn:E3;
        [apply String.eqb_eq in E3; congruence|].
      destruct (String.eqb "default_value" name) eqn:E4;
        [apply String.eqb_eq in E4; congruence|].
      reflexivity.
Qed.

(** The abbreviation of property names is undone on reading: the long name
    of the short name of [name] is [name] again, for every name that is not
    itself one of the abbreviations [_loc] and [_val] (such a property would
    come back as [location_absolute] or [default_value]); and the other way
    round for every name that is not one of the two abbreviated names. *)
Theorem prop_name_abbreviation_round_trip :
  forall (name : string),
    (name <> "_loc" -> name <> "_val" ->
     _long_prop_name (_short_prop_name name) = name)
    /\ (name <> "location_absolute" -> name <> "default_value" ->
        _short_prop_name (_long_prop_name name) = name)
    /\ _long_prop_name (_short_prop_name "_loc") = "location_absolute"
    /\ _long_prop_name (_short_prop_name "_val") = "default_value".
Proof.
  intros name. split; [apply long_prop_name_of_short|].
  split; [apply short_prop_name_of_long|]. split; reflexivity.
Qed.

(** ** The index of a socket *)

Lemma socket_index_from_spec :
  forall (sockets : list oid) (s : oid) (i : nat),
    (In s sockets ->
     exists k, _socket_index_from i sockets s = Ok (i + k)
               /\ nth_error sockets k = Some s
               /\ (forall j, j < k -> nth_error sockets j <> Some s))
    /\ (~ In s sockets -> _socket_index_from i sockets s = socket_not_found (VRef s)).
Proof.
  induction sockets as [|x rest IH]; intros s i; split.
  - intros [].
  - reflexivity.
  - intros Hin. cbn [_socket_index_from].
    destruct (Nat.eqb x s) eqn:E.
    + apply Nat.eqb_eq in E. subst x. exists 0. rewrite Nat.add_0_r.
      split; [reflexivity|]. split; [reflexivity|]. intros j Hj. lia.
    + assert (Hin' : In s rest).
      { destruct Hin as [->|H]; [rewrite Nat.eqb_refl in E; discriminate E|exact H]. }
      destruct (proj1 (IH s (S i)) Hin') as [k [Hk [Hnth Hfirst]]].
      exists (S k). split; [rewrite Hk; f_equal; lia|]. split; [exact Hnth|].
      intros [|j] Hj; cbn [nth_error].
      * intros H. injection H as ->. rewrite Nat.eqb_refl in E. discriminate E.
      * apply Hfirst. lia.
  - intros Hnot. cbn [_socket_index_from].
    destruct (Nat.eqb x s) eqn:E.
    + apply Nat.eqb_eq in E. subst x. exfalso. apply Hnot. left. reflexivity.
    + apply (IH s (S i)). intros H. apply Hnot. right. exact H.
Qed.

(** [_socket_index] returns the first position at which the socket is in the
    list, and raises [ValueError] exactly when the socket is not in it; the
    message is then the representation of the socket followed by
    [ not found in sockets]. *)
Theorem socket_index_is_first_position :
  forall (sockets : list oid) (s : oid),
    (In s sockets ->
     exists k, _socket_index sockets s = Ok k
               /\ nth_error sockets k = Some s
               /\ (forall j, j < k -> nth_error sockets j <> Some s))
    /\ (~ In s sockets ->
        _socket_index sockets s
        = Raise (ValueError (repr_of_value (VRef s) ++ " not found in sockets")))
    /\ ((exists k, _socket_index sockets s = Ok k) <-> In s sockets).
Proof.
  intros sockets s. unfold _socket_index.
  destruct (socket_index_from_spec sockets s 0) as [Hin Hout].
  split; [exact Hin|]. split; [exact Hout|]. split.
  - intros [k Hk]. destruct (in_dec Nat.eq_dec s sockets) as [Hi|Hn]; [exact Hi|].
    rewrite (Hout Hn) in Hk. discriminate Hk.
  - intros Hi. destruct (Hin Hi) as [k [Hk _]]. exists k. exact Hk.
Qed.

(** ** The order of the nested trees *)

Lemma pop_app :
  forall (A : Type) (l rest : list A) (x : A),
    pop l = Some (rest, x) -> l = (rest ++ [x])%list.
Proof.
  intros A l. induction l as [|a l IH]; intros rest x H; [discriminate|].
  destruct l as [|b l].
  - injection H as <- <-. reflexivity.
  - change (pop (a :: b :: l)) with
      (match pop (b :: l) with Some (rest', y) => Some (a :: rest', y) | None => None end) in H.
    destruct (pop (b :: l)) as [[rest' y]|]; [|discriminate].
    injection H as <- <-. rewrite (IH rest' y eq_refl). reflexivity.
Qed.

Lemma mem_oid_In : forall (x : oid) (l : list oid), mem_oid x l = true <-> In x l.
Proof.
  intros x l. unfold mem_oid. rewrite existsb_exists. split.
  - intros [y [Hin E]]. apply Nat.eqb_eq in E. subst y. exact Hin.
  - intros Hin. exists x. split; [exact Hin|apply Nat.eqb_refl].
Qed.

Lemma oid_get_In :
  forall (V : Type) (d : list (oid * V)) (k : oid),
    In k (map fst d) <-> oid_get d k <> None.
Proof.
  intros V d k. induction d as [|[k' v] d IH]; cbn [map fst In oid_get].
  - split; [intros []|intros H; apply H; reflexivity].
  - destruct (Nat.eqb k' k) eqn:E.
    + apply Nat.eqb_eq in E. split; [discriminate|]. intros _. left. exact E.
    + rewrite <- IH. split; [|intros H; right; exact H].
      intros [H|H]; [subst; rewrite Nat.eqb_refl in E; discriminate E|exact H].
Qed.

(** Unwinding moves trees from the stack to the order; it loses none and
    fails only on a tree that is no key. *)
Lemma unwind_spec :
  forall (n : nat) (g : graph) (v : oid) (stack order : list oid),
    (forall x, In x stack -> oid_get g x <> None) ->
    exists stack' order',
      unwind n g v stack order = Ok (stack', order')
      /\ Permutation (order' ++ stack') (order ++ stack).
Proof.
  induction n as [|n IH]; intros g v stack order Hkeys.
  - exists stack, order. split; reflexivity.
  - cbn [unwind]. destruct (pop stack) as [[rest top]|] eqn:Hpop.
    + apply pop_app in Hpop. subst stack.
      assert (Htop : oid_get g top <> None).
      { apply Hkeys. apply in_or_app. right. left. reflexivity. }
      unfold graph_get. destruct (oid_get g top) as [children|]; [|contradiction].
      cbn [bind]. destruct (negb (mem_oid v children)).
      * destruct (IH g v rest (order ++ [top])%list) as [stack' [order' [Hrun Hperm]]].
        { intros x Hx. apply Hkeys. apply in_or_app. left. exact Hx. }
        exists stack', order'. split; [exact Hrun|].
        rewrite Hperm. rewrite <- app_assoc. apply Permutation_app_head.
        apply Permutation_app_comm.
      * exists (rest ++ [top])%list, order. split; reflexivity.
    + exists stack, order. split; reflexivity.
Qed.

Lemma topo_loop_spec :
  forall (fuel : nat) (g : graph) (seen stack order q : list oid) (r : result (list oid)),
    (forall x, In x q -> oid_get g x <> None) ->
    (forall k cs c, oid_get g k = Some cs -> In c cs -> oid_get g c <> None) ->
    (forall x, In x seen -> oid_get g x <> None) ->
    NoDup (order ++ stack) ->
    (forall x, In x (order ++ stack) <-> In x seen) ->
    topo_loop fuel g seen stack order q = Some r ->
    exists l, r = Ok l /\ NoDup l
              /\ (forall x, In x seen \/ In x q -> In x l)
              /\ (forall x, In x l -> oid_get g x <> None).
Proof.
  induction fuel as [|fuel IH]; intros g seen stack order q r Hq Hclosed Hseen Hnd Hsame Hrun;
    [discriminate|].
  cbn [topo_loop] in Hrun. destruct (pop q) as [[q' v]|] eqn:Hpop.
  - apply pop_app in Hpop. subst q.
    destruct (mem_oid v seen) eqn:Hv; cbn [negb] in Hrun.
    + destruct (IH g seen stack order q' r) as [l [Hr [Hl [Hin Hkeys]]]]; try assumption.
      { intros x Hx. apply Hq. apply in_or_app. left. exact Hx. }
      exists l. split; [exact Hr|]. split; [exact Hl|]. split; [|exact Hkeys].
      intros x [Hx|Hx]; [apply Hin; left; exact Hx|].
      apply in_app_or in Hx. destruct Hx as [Hx|[<-|[]]].
      * apply Hin. right. exact Hx.
      * apply Hin. left. apply mem_oid_In. exact Hv.
    + assert (Hvkey : oid_get g v <> None).
      { apply Hq. apply in_or_app. right. left. reflexivity. }
      unfold graph_get in Hrun.
      destruct (oid_get g v) as [children|] eqn:Hget; [|contradiction].
      destruct (unwind_spec (length stack) g v stack order) as [stack' [order' [Hu Hperm]]].
      { intros x Hx. apply Hseen. apply Hsame. apply in_or_app. right. exact Hx. }
      rewrite Hu in Hrun.
      assert (Hnew : ~ In v seen).
      { intros H. apply mem_oid_In in H. rewrite H in Hv. discriminate Hv. }
      destruct (IH g (v :: seen) (stack' ++ [v])%list order' (q' ++ children)%list r)
        as [l [Hr [Hl [Hin Hkeys]]]]; try assumption.
      * intros x Hx. apply in_app_or in Hx. destruct Hx as [Hx|Hx].
        -- apply Hq. apply in_or_app. left. exact Hx.
        -- apply (Hclosed v children x Hget Hx).
      * intros x [<-|Hx]; [rewrite Hget; discriminate|apply Hseen; exact Hx].
      * rewrite app_assoc. apply (Permutation_NoDup (l := v :: (order ++ stack))).
        -- rewrite <- Hperm. apply Permutation_cons_append.
        -- constructor; [|exact Hnd]. intros H. apply Hnew. apply Hsame. exact H.
      * intros x. rewrite app_assoc. rewrite in_app_iff. cbn [In].
        rewrite <- Hsame. split.
        -- intros [Hx|[<-|[]]]; [right; apply (Permutation_in x Hperm Hx)|left; reflexivity].
        -- intros [<-|Hx]; [right; left; reflexivity|].
           left. apply (Permutation_in x (Permutation_sym Hperm) Hx).
      * exists l. split; [exact Hr|]. split; [exact Hl|]. split; [|exact Hkeys].
        intros x [Hx|Hx].
        -- apply Hin. left. right. exact Hx.
        -- apply in_app_or in Hx. destruct Hx as [Hx|[<-|[]]].
           ++ apply Hin. right. apply in_or_app. left. exact Hx.
           ++ apply Hin. left. left. reflexivity.
  - injection Hrun as <-. exists (order ++ stack)%list.
    split; [reflexivity|]. split; [exact Hnd|]. split.
    + intros x [Hx|Hx]; [apply Hsame; exact Hx|].
      destruct q as [|a q]; [destruct Hx|].
      exfalso. clear - Hpop. revert a Hpop. induction q as [|b q IHq]; intros a Hpop;
        [discriminate|].
      change (pop (a :: b :: q)) with
        (match pop (b :: q) with Some (rest', y) => Some (a :: rest', y) | None => None end)
        in Hpop.
      destruct (pop (b :: q)) as [[rest' y]|] eqn:E; [discriminate|].
      apply (IHq b E).
    + intros x Hx. apply Hseen. apply Hsame. exact Hx.
Qed.

Lemma oid_get_In_pair :
  forall (V : Type) (d : list (oid * V)) (k : oid) (v : V),
    oid_get d k = Some v -> In (k, v) d.
Proof.
  intros V d k v. induction d as [|[k' v'] d IH]; cbn [oid_get]; [discriminate|].
  destruct (Nat.eqb k' k) eqn:E.
  - apply Nat.eqb_eq in E. subst k'. intros H. injection H as ->. left. reflexivity.
  - intros H. right. apply IH. exact H.
Qed.

(** On a graph with distinct keys in which every tree used is a key,
    [_topological_sort] returns, and its result lists every key of the graph
    exactly once: no tree is lost and none is written twice. *)
Theorem topological_sort_permutes_the_trees :
  forall (g : graph),
    NoDup (map fst g) ->
    closed_graph g ->
    exists order, _topological_sort g = Ok order /\ Permutation order (map fst g).
Proof.
  intros g Hnd Hclosed.
  destruct (topological_sort_terminates g) as [r [Hloop Hr]].
  destruct (topo_loop_spec (topo_fuel g) g [] [] [] (map fst g) r) as [l [Hl [Hndl [Hin Hkeys]]]].
  - intros x Hx. apply oid_get_In. exact Hx.
  - intros k cs c Hget Hc. apply oid_get_In.
    apply (Hclosed k cs c (oid_get_In_pair _ g k cs Hget) Hc).
  - intros x [].
  - constructor.
  - intros x. split; intros [].
  - exact Hloop.
  - exists l. split; [rewrite Hr; exact Hl|].
    apply NoDup_Permutation; [exact Hndl|exact Hnd|].
    intros x. split.
    + intros Hx. apply oid_get_In. apply Hkeys. exact Hx.
    + intros Hx. apply Hin. right. exact Hx.
Qed.

Lemma topological_sort_permutes_the_trees_witness :
  exists order, _topological_sort graph_chain = Ok order
                /\ Permutation order [3; 2; 1]%nat.
Proof.
  apply (topological_sort_permutes_the_trees graph_chain).
  - repeat constructor; cbn; intuition discriminate.
  - intros k cs c Hin Hc. cbn in Hin.
    repeat (destruct Hin as [Hin|Hin];
            [injection Hin as <- <-; cbn in Hc |- *; intuition|]).
    destruct Hin.
Defined.

(** ** The links of an input socket *)

Lemma attr_getattr :
  forall (h : bpy) (o : oid) (name : string) (v : value),
    attr h o name = Ok v -> getattr h o name = v.
Proof.
  intros h o name v. unfold attr, getattr.
  destruct (heap_get (heap h) o) as [x|]; [|discriminate].
  destruct (dict_get (attrs x) name); [|discriminate].
  intros H. injection H as ->. reflexivity.
Qed.

Lemma recorded_link_more :
  forall (h : bpy) (node_names : list string) (link : oid) (links : list oid)
         (recs : list pyval),
    Forall (recorded_link h node_names links) recs ->
    Forall (recorded_link h node_names (link :: links)) recs.
Proof.
  intros h node_names link links recs HF. eapply Forall_impl; [|exact HF].
  intros r [l0 [f [n [o [s [k [Hin Hrest]]]]]]].
  exists l0, f, n, o, s, k. split; [right; exact Hin|exact Hrest].
Qed.

(** When the links of an input socket are serialized, every record is the
    pair of the name of a node of the batch and the position of the link's
    source socket among that node's outputs (never negative, always in
    range); links from a node outside the batch leave no record. *)
Theorem serialize_links_names_only_the_batch :
  forall (h : bpy) (node_names : list string) (links : list oid) (recorded : list pyval),
    serialize_links h node_names links = Ok recorded ->
    Forall (recorded_link h node_names links) recorded
    /\ length recorded <= length links.
Proof.
  intros h node_names links. induction links as [|link rest IH]; intros recorded H.
  - injection H as <-. split; [constructor|apply Nat.le_refl].
  - cbn [serialize_links] in H.
    apply bind_ok_inv in H. destruct H as [from_node [Hfrom H]].
    apply bind_ok_inv in H. destruct H as [name [Hname H]].
    apply bind_ok_inv in H. destruct H as [name_s [Hstr H]].
    destruct (mem name_s node_names) eqn:Hmem.
    + apply bind_ok_inv in H. destruct H as [outputs [Houts H]].
      apply bind_ok_inv in H. destruct H as [outs [Hcoll H]].
      apply bind_ok_inv in H. destruct H as [from_socket [Hsock H]].
      apply bind_ok_inv in H. destruct H as [idx [Hidx H]].
      apply bind_ok_inv in H. destruct H as [more [Hmore H]].
      injection H as <-.
      destruct (IH more Hmore) as [HF Hlen].
      split; [|cbn [length]; lia].
      constructor; [|apply recorded_link_more; exact HF].
      destruct from_socket as [| | | | | |s|]; try discriminate Hidx.
      destruct name; try discriminate Hstr. injection Hstr as ->.
      destruct outputs; try discriminate Hcoll. injection Hcoll as ->.
      destruct from_node as [| | | | | |fn|]; try discriminate Hname.
      assert (Hins : In s outs).
      { destruct (in_dec Nat.eq_dec s outs) as [Hi|Hn]; [exact Hi|].
        unfold _socket_index in Hidx.
        rewrite (proj2 (socket_index_from_spec outs s 0) Hn) in Hidx.
        discriminate Hidx. }
      destruct (proj1 (socket_index_from_spec outs s 0) Hins) as [k [Hk [Hnth _]]].
      unfold _socket_index in Hidx. rewrite Hk in Hidx. injection Hidx as <-.
      exists link, fn, name_s, outs, s, k.
      split; [left; reflexivity|].
      split; [apply attr_getattr; exact Hfrom|].
      split; [apply attr_getattr; exact Hname|].
      split; [apply attr_getattr; exact Houts|].
      split; [apply attr_getattr; exact Hsock|].
      split; [apply existsb_exists in Hmem; destruct Hmem as [y [Hy E]];
              apply String.eqb_eq in E; subst y; exact Hy|].
      split; [exact Hnth|reflexivity].
    + destruct (IH recorded H) as [HF Hlen].
      split; [apply recorded_link_more; exact HF|cbn [length]; lia].
Qed.

Lemma serialize_links_names_only_the_batch_witness :
  serialize_links linked_host ["Value"; "Math"] [10] = Ok [PTuple [PStr "Value"; PInt 0]]
  /\ Forall (recorded_link linked_host ["Value"; "Math"] [10])
            [PTuple [PStr "Value"; PInt 0]]
  /\ 1 <= 1.
Proof.
  split; [vm_compute; reflexivity|].
  apply (serialize_links_names_only_the_batch linked_host ["Value"; "Math"] [10]).
  vm_compute. reflexivity.
Defined.

(** ** The paste operator *)

(** A document the schema rejects never gets past the paste operator: the
    operator reports the schema error, returns [CANCELLED], and leaves the
    file as it was (not even the selection is cleared). *)
Theorem paste_document_rejected_by_schema :
  forall (edit_tree : oid) (cursor_location : pyfloat * pyfloat) (reuse_existing : bool)
         (nodes_dict : pyval) (h : bpy),
    validate_schema nodes_dict SCHEMA "root" <> Ok tt ->
    exists msg,
      validate_schema nodes_dict SCHEMA "root" = Raise (TypeError msg)
      /\ paste_document edit_tree cursor_location reuse_existing nodes_dict h
         = (Ok ([("ERROR", "Schema error in JSON: " ++ msg)], CANCELLED), h).
Proof.
  intros edit_tree cursor_location reuse_existing nodes_dict h Hbad.
  unfold paste_document.
  destruct (validate_schema nodes_dict SCHEMA "root") as [[]|e] eqn:Hv;
    [exfalso; apply Hbad; reflexivity|].
  destruct (validate_schema_sound SCHEMA nodes_dict "root" e Hv) as [p [v [_ He]]].
  subst e. eexists. split; reflexivity.
Qed.

Lemma paste_document_rejected_by_schema_witness :
  exists msg,
    validate_schema doc_missing_name SCHEMA "root" = Raise (TypeError msg)
    /\ paste_document other_file_target (float_zero, float_zero) true doc_missing_name
                      other_file
       = (Ok ([("ERROR", "Schema error in JSON: " ++ msg)], CANCELLED), other_file).
Proof.
  apply paste_document_rejected_by_schema. vm_compute. discriminate.
Defined.

(** ** The document of a selection *)

Lemma map_result_length :
  forall (A B : Type) (f : A -> result B) (items : list A) (out : list B),
    map_result f items = Ok out -> length out = length items.
Proof.
  intros A B f items. induction items as [|x rest IH]; intros out H.
  - injection H as <-. reflexivity.
  - cbn [map_result] in H.
    apply bind_ok_inv in H. destruct H as [y [_ H]].
    apply bind_ok_inv in H. destruct H as [ys [Hys H]].
    injection H as <-. cbn [length]. rewrite (IH ys Hys). reflexivity.
Qed.

(** What [nodes_to_dict] has put in the document when it enters its [try]
    block. *)
Lemma prepare_defaults_document (first : oid) (nodes : list oid) (include_groups : bool)
      (h h1 : bpy) (d : defaults) :
  prepare_defaults first nodes include_groups h = (Ok d, h1) ->
  (exists type major minor patch,
      d_result d = [("version", PInt JSON_SCHEMA_VERSION); ("type", type);
                    ("app_version", PTuple [PInt major; PInt minor; PInt patch])])
  /\ (include_groups = false -> d_trees d = []).
Proof.
  unfold prepare_defaults. intros H.
  apply mbind_ok_inv in H as (collected & h0 & E & H).
  assert (Htrees : include_groups = false -> fst collected = []).
  { intros ->. unfold ret in E. injection E as <- _. reflexivity. }
  clear E.
  apply mbind_ok_inv in H as (id_data & h2 & _ & H).
  apply mbind_ok_inv in H as (tree_type & h3 & _ & H).
  apply mbind_ok_inv in H as (node_types & h4 & _ & H).
  apply mbind_ok_inv in H as (tree_idname & h5 & _ & H).
  apply mbind_ok_inv in H as (tree_idname_s & h6 & _ & H).
  apply mbind_ok_inv in H as (node_group & hA & _ & H).
  apply mbind_ok_inv in H as (default_nodes & hB & _ & H).
  apply mbind_ok_inv in H as (default_socket & hC & _ & H).
  apply mbind_ok_inv in H as ([] & hD & _ & H).
  apply mbind_ok_inv in H as (doc & h7 & E & H).
  unfold ret in H. injection H as <- _. cbn [d_result d_trees].
  split; [|exact Htrees].
  unfold read in E. destruct (app_version hD) as [[major minor] patch].
  injection E as <- _. exists (to_py tree_type), major, minor, patch. reflexivity.
Qed.

Lemma serialize_document_shape (h : bpy) (doc : pydict) (nodes trees : list oid)
      (default_nodes : list (type_key * oid)) (default_socket node_group : oid)
      (out : pyval) :
  serialize_document h doc nodes trees default_nodes default_socket node_group = Ok out ->
  exists recs,
    length recs = length nodes
    /\ (out = PDict (dict_set doc "nodes" (PList recs))
        \/ (trees <> []
            /\ exists recorded_trees,
                 out = PDict (dict_set (dict_set doc "nodes" (PList recs))
                                       "node_trees" (PDict recorded_trees)))).
Proof.
  unfold serialize_document. intros H.
  apply bind_ok_inv in H. destruct H as [recs [Hrecs H]].
  apply bind_ok_inv in H. destruct H as [trees_dict [Htrees H]].
  exists recs. split; [apply (map_result_length _ _ _ _ _ Hrecs)|].
  destruct trees_dict as [|e trees_dict].
  - injection H as <-. left. reflexivity.
  - injection H as <-. right. split; [|eexists; reflexivity].
    intros ->. discriminate Htrees.
Qed.

(** The document [nodes_to_dict] returns for a selection that is not empty
    has the keys [version] (the schema version 2), [type], [app_version]
    (three integers) and [nodes], in this order, where [nodes] has one
    record for each selected node; the one further key it may have is
    [node_trees], after the others, and never when [include_groups] is
    false. *)
Theorem nodes_to_dict_document_shape :
  forall (first : oid) (others : list oid) (include_groups : bool) (h h' : bpy)
         (doc : pyval),
    nodes_to_dict (first :: others) include_groups h = (Ok doc, h') ->
    exists type major minor patch recs,
      length recs = S (length others)
      /\ (doc = PDict [("version", PInt 2); ("type", type);
                       ("app_version", PTuple [PInt major; PInt minor; PInt patch]);
                       ("nodes", PList recs)]
          \/ (include_groups = true
              /\ exists recorded_trees,
                   doc = PDict [("version", PInt 2); ("type", type);
                                ("app_version",
                                 PTuple [PInt major; PInt minor; PInt patch]);
                                ("nodes", PList recs);
                                ("node_trees", PDict recorded_trees)])).
Proof.
  intros first others include_groups h h' doc H.
  unfold nodes_to_dict in H.
  apply mbind_ok_inv in H as (d & h1 & Hprep & H).
  destruct (prepare_defaults_document _ _ _ _ _ _ Hprep)
    as [[type [major [minor [patch Hdoc]]]] Hnone].
  unfold serialize_and_clean_up, try_finally, read in H.
  destruct (remove_defaults (d_node_group d) (d_default_nodes d) h1) as [[[]|e] h2];
    [|discriminate H].
  injection H as H _.
  destruct (serialize_document_shape _ _ _ _ _ _ _ _ H) as [recs [Hlen Hshape]].
  exists type, major, minor, patch, recs. split; [exact Hlen|].
  rewrite Hdoc in Hshape.
  destruct Hshape as [-> | [Htrees [recorded_trees ->]]].
  - left. reflexivity.
  - right. split.
    + destruct include_groups; [reflexivity|]. exfalso. apply Htrees. apply Hnone. reflexivity.
    + exists recorded_trees. reflexivity.
Qed.

Lemma nodes_to_dict_document_shape_witness :
  exists type major minor patch recs,
    length recs = 2
    /\ (nested_document
        = PDict [("version", PInt 2); ("type", type);
                 ("app_version", PTuple [PInt major; PInt minor; PInt patch]);
                 ("nodes", PList recs)]
        \/ (true = true
            /\ exists recorded_trees,
                 nested_document
                 = PDict [("version", PInt 2); ("type", type);
                          ("app_version",
                           PTuple [PInt major; PInt minor; PInt patch]);
                          ("nodes", PList recs);
                          ("node_trees", PDict recorded_trees)])).
Proof.
  apply (nodes_to_dict_document_shape 13 [14] true nested_host
           (state_after (nodes_to_dict [13; 14] true) nested_host) nested_document).
  vm_compute. reflexivity.
Defined.

(** ** Collecting the nested trees *)

Lemma collect_loop_without_groups :
  forall (h : bpy) (nodes : list oid) (budget : nat) (trees : graph) (all_nodes : list oid),
    (forall n, In n nodes -> node_tree_of h n = None) ->
    length nodes <= budget ->
    collect_loop budget h (map (fun n => (None, n)) nodes) trees all_nodes
    = Ok (trees, (all_nodes ++ nodes)%list).
Proof.
  intros h nodes. induction nodes as [|n rest IH]; intros budget trees all_nodes Hplain Hlen.
  - destruct budget; cbn; rewrite app_nil_r; reflexivity.
  - destruct budget as [|budget]; [cbn in Hlen; lia|].
    cbn [map collect_loop]. rewrite (Hplain n (or_introl eq_refl)).
    rewrite IH.
    + rewrite <- app_assoc. reflexivity.
    + intros m Hm. apply Hplain. right. exact Hm.
    + cbn in Hlen. lia.
Qed.

(** A selection without group nodes has no nested trees: [_collect_trees]
    returns no tree and the selected nodes as they are, as long as the
    selection fits in memory. *)
Theorem collect_trees_without_group_nodes :
  forall (h : bpy) (nodes : list oid),
    (forall n, In n nodes -> node_tree_of h n = None) ->
    length nodes <= memory_limit h ->
    _collect_trees h nodes = Ok ([], nodes).
Proof.
  intros h nodes Hplain Hlen. unfold _collect_trees.
  rewrite (collect_loop_without_groups h nodes (memory_limit h) [] [] Hplain Hlen).
  reflexivity.
Qed.

Lemma collect_trees_without_group_nodes_witness :
  _collect_trees linked_host [4; 6] = Ok ([], [4; 6]).
Proof.
  apply collect_trees_without_group_nodes.
  - intros n [<-|[<-|[]]]; vm_compute; reflexivity.
  - vm_compute. repeat constructor.
Defined.

(** ** Comparing a record with a live interface *)

(** A record with more interface items than the live interface has is never
    found equal (the answer is [False], unless an earlier item already
    raised); a record with no items is equal to whatever the live interface
    holds. *)
Theorem has_equal_interface_length_shortfall :
  forall (h : bpy) (tree_dict : pyval) (node_group : oid)
         (items : list pyval) (live : list oid),
    recorded_items tree_dict = Ok items ->
    live_items h node_group = Ok live ->
    (length live < length items -> _has_equal_interface h tree_dict node_group <> Ok true)
    /\ (items = [] -> _has_equal_interface h tree_dict node_group = Ok true).
Proof.
  intros h tree_dict node_group items live Hrec Hlive.
  unfold recorded_items in Hrec. unfold live_items in Hlive.
  apply bind_ok_inv in Hrec. destruct Hrec as [interface_rec [E1 Hrec]].
  apply bind_ok_inv in Hrec. destruct Hrec as [items_tree [E2 E3]].
  apply bind_ok_inv in Hlive. destruct Hlive as [interface [E4 Hlive]].
  apply bind_ok_inv in Hlive. destruct Hlive as [live_v [E5 E6]].
  unfold _has_equal_interface. rewrite E1. cbn [bind]. rewrite E2. cbn [bind].
  rewrite E3. cbn [bind]. rewrite E4. cbn [bind]. rewrite E5. cbn [bind].
  rewrite E6. cbn [bind].
  split; [|intros ->; reflexivity].
  match goal with |- _ -> ?f 0 items <> _ => set (each := f) end.
  assert (Hloop : forall items i,
             i <= length live -> length live < i + length items ->
             each i items <> Ok true).
  { clear. intros items. induction items as [|item rest IH]; intros i Hle Hlt.
    - cbn [length] in Hlt. lia.
    - cbn [each]. destruct (nth_error live i) as [id_item|] eqn:Hnth; [|discriminate].
      assert (Hi : i < length live).
      { apply nth_error_Some. rewrite Hnth. discriminate. }
      destruct (py_dict item) as [entries|e]; [|discriminate]. cbn [bind].
      match goal with |- bind ?c _ <> _ => destruct c as [[|]|e] end;
        cbn [bind]; try discriminate.
      apply IH; [lia|cbn [length] in Hlt; lia]. }
  intros Hshort. apply Hloop; lia.
Qed.

Lemma has_equal_interface_length_shortfall_witness :
  _has_equal_interface reuse_host (tree_record "Value" (PFloat float_one)) reuse_target
  <> Ok true.
Proof.
  apply (proj1 (has_equal_interface_length_shortfall
                  reuse_host (tree_record "Value" (PFloat float_one)) reuse_target
                  [PDict [("in_out", PStr "INPUT"); ("name", PStr "Value");
                          ("_val", PFloat float_one)]]
                  [] eq_refl eq_refl)).
  cbn. apply Nat.lt_0_1.
Defined.

(** ** Pasting at a location *)

Lemma bounding_box_without_locations :
  forall (nodes : list pyval) (minmax : option ((pyfloat * pyfloat) * (pyfloat * pyfloat))),
    forallb without_location nodes = true ->
    bounding_box nodes minmax = Ok minmax.
Proof.
  intros nodes minmax. induction nodes as [|nd rest IH]; intros H; [reflexivity|].
  cbn [forallb] in H. apply andb_prop in H. destruct H as [Hnd Hrest].
  cbn [bounding_box]. unfold without_location in Hnd.
  destruct nd as [| | | | | | |d]; try discriminate Hnd.
  unfold py_get at 1. cbn [py_dict bind].
  destruct (dict_get d "props") as [[| | | | | | |p]|]; try discriminate Hnd.
  - unfold py_get. cbn [py_dict bind].
    change (_short_prop_name "location_absolute") with "_loc".
    destruct (dict_get p "_loc") as [loc|].
    + rewrite Hnd. apply IH. exact Hrest.
    + apply IH. exact Hrest.
  - cbn [bind]. apply IH. exact Hrest.
Qed.

(** Pasting at a location needs a recorded location: when the document has
    no nested trees and none of its node records has a [_loc] (as for nodes
    that sit at the default location, or an empty list of nodes),
    [dict_to_nodes] with a target location raises [TypeError] before any node
    is made, and the file is left as it was. *)
Theorem dict_to_nodes_needs_a_recorded_location :
  forall (target_tree : oid) (target_location : pyfloat * pyfloat) (entries : pydict)
         (nodes : list pyval) (reuse_existing : bool) (h : bpy),
    dict_get entries "node_trees" = None ->
    dict_get entries "nodes" = Some (PList nodes) ->
    forallb without_location nodes = true ->
    dict_to_nodes target_tree (Some target_location) (PDict entries) reuse_existing h
    = (Raise (TypeError "'NoneType' object is not subscriptable"), h).
Proof.
  intros target_tree [tx ty] entries nodes reuse_existing h Htrees Hnodes Hloc.
  unfold dict_to_nodes, py_entries, py_get, py_item. cbn [py_dict bind].
  rewrite Htrees, Hnodes. cbn [py_seq].
  unfold mbind, lift. cbn [resolve_trees ret].
  change (py_seq (PList nodes)) with (Ok nodes).
  cbv beta iota. rewrite (bounding_box_without_locations nodes None Hloc). reflexivity.
Qed.

Lemma dict_to_nodes_needs_a_recorded_location_witness :
  dict_to_nodes other_file_target (Some (float_zero, float_zero)) doc_math true other_file
  = (Raise (TypeError "'NoneType' object is not subscriptable"), other_file).
Proof.
  apply (dict_to_nodes_needs_a_recorded_location
           other_file_target (float_zero, float_zero) _
           [PDict [("bl_idname", PStr "ShaderNodeMath");
                   ("props", PDict [("name", PStr "Math")])]] true other_file);
    reflexivity.
Defined.

(** ** The compact printer on short documents *)

Lemma string_length_app :
  forall (a b : string), String.length (a ++ b) = String.length a + String.length b.
Proof.
  intros a b. induction a as [|c a IH]; cbn; [reflexivity|]. rewrite IH. reflexivity.
Qed.

Lemma string_app_assoc :
  forall (a b c : string), ((a ++ b) ++ c = a ++ (b ++ c))%string.
Proof.
  intros a b c. induction a as [|x a IH]; cbn; [reflexivity|]. rewrite IH. reflexivity.
Qed.

Lemma join_length_item :
  forall (sep s : string) (items : list string),
    In s items -> String.length s <= String.length (join sep items).
Proof.
  intros sep s items. induction items as [|x rest IH]; intros Hin; [destruct Hin|].
  destruct rest as [|y rest].
  - destruct Hin as [<-|[]]. apply Nat.le_refl.
  - change (join sep (x :: y :: rest)) with (x ++ sep ++ join sep (y :: rest))%string.
    rewrite !string_length_app. destruct Hin as [<-|Hin]; [lia|].
    specialize (IH Hin). lia.
Qed.

Lemma list_all_In :
  forall (A : Type) (P : A -> Prop) (l : list A),
    list_all A P l -> forall x, In x l -> P x.
Proof.
  intros A P l H. induction H as [|a pa l Hl IH]; intros x Hin; [destruct Hin|].
  destruct Hin as [<-|Hin]; [exact pa|apply IH; exact Hin].
Qed.

Lemma entries_all_In :
  forall (P : pyval -> Prop) (entries : list (string * pyval)),
    list_all (string * pyval) (prod_all string (fun _ : string => unit) pyval P) entries ->
    forall kv, In kv entries -> P (snd kv).
Proof.
  intros P entries H. induction H as [|a pa l Hl IH]; intros kv Hin; [destruct Hin|].
  destruct Hin as [<-|Hin]; [destruct pa; assumption|apply IH; exact Hin].
Qed.

Section Short_documents.

Variable float_repr : pyfloat -> string.
Variables indent max_inline : nat.

Lemma render_short_list :
  forall (elems : list pyval) (level : nat),
    (forall x, In x elems ->
               render float_repr indent max_inline x (level + 1) = json_dumps float_repr x) ->
    String.length (json_dumps float_repr (PList elems)) <= max_inline ->
    render float_repr indent max_inline (PList elems) level
    = json_dumps float_repr (PList elems).
Proof.
  intros elems level Hitems Hlen. destruct elems as [|e elems]; [reflexivity|].
  cbn [render json_dumps] in Hlen |- *.
  rewrite (map_ext_in _ (json_dumps float_repr) (e :: elems) Hitems).
  apply Nat.leb_le in Hlen. rewrite Hlen. reflexivity.
Qed.

Lemma render_short_dict :
  forall (entries : pydict) (level : nat),
    (forall kv, In kv entries ->
                escape_chars (fst kv) = fst kv
                /\ render float_repr indent max_inline (snd kv) (level + 1)
                   = json_dumps float_repr (snd kv)) ->
    String.length (json_dumps float_repr (PDict entries)) <= max_inline ->
    render float_repr indent max_inline (PDict entries) level
    = json_dumps float_repr (PDict entries).
Proof.
  intros entries level Hitems Hlen. destruct entries as [|e entries]; [reflexivity|].
  cbn [render json_dumps] in Hlen |- *.
  assert (Hmap : map (fun kv : string * pyval =>
                        (dquote ++ fst kv ++ dquote ++ ": "
                           ++ render float_repr indent max_inline (snd kv) (level + 1))%string)
                     (e :: entries)
                 = map (fun kv : string * pyval =>
                          (json_string (fst kv) ++ ": " ++ json_dumps float_repr (snd kv))%string)
                       (e :: entries)).
  { apply map_ext_in. intros kv Hin. destruct (Hitems kv Hin) as [Hkey Hval].
    rewrite Hval. unfold json_string. rewrite Hkey.
    rewrite !string_app_assoc. reflexivity. }
  rewrite Hmap. apply Nat.leb_le in Hlen. rewrite Hlen. reflexivity.
Qed.

End Short_documents.
Lemma render_short_is_json_dumps :
  forall (float_repr : pyfloat -> string) (indent max_inline : nat) (x : pyval) (level : nat),
    plain_keys x = true ->
    String.length (json_dumps float_repr x) <= max_inline ->
    render float_repr indent max_inline x level = json_dumps float_repr x.
Proof.
  intros float_repr indent max_inline x.
  induction x as [| b | z | f | s | items IH | items IH | entries IH]
    using pyval_ind; intros level Hplain Hlen; try reflexivity.
  - apply render_short_list; [|exact Hlen].
    intros x Hin. apply (list_all_In _ _ _ IH x Hin).
    + cbn [plain_keys] in Hplain. rewrite forallb_forall in Hplain. apply Hplain. exact Hin.
    + cbn [json_dumps] in Hlen. rewrite !string_length_app in Hlen.
      pose proof (join_length_item ", " (json_dumps float_repr x)
                    (map (json_dumps float_repr) items) (in_map _ _ _ Hin)).
      lia.
  - apply render_short_dict; [|exact Hlen].
    intros kv Hin. cbn [plain_keys] in Hplain. rewrite forallb_forall in Hplain.
    specialize (Hplain kv Hin). apply andb_prop in Hplain. destruct Hplain as [Hkey Hval].
    split; [apply String.eqb_eq; exact Hkey|].
    apply (entries_all_In _ _ IH kv Hin); [exact Hval|].
    cbn [json_dumps] in Hlen. rewrite !string_length_app in Hlen.
    pose proof (join_length_item ", "
                  (json_string (fst kv) ++ ": " ++ json_dumps float_repr (snd kv))%string
                  (map (fun kv : string * pyval =>
                          (json_string (fst kv) ++ ": "
                             ++ json_dumps float_repr (snd kv))%string) entries)
                  (in_map _ _ _ Hin)) as Hitem.
    rewrite !string_length_app in Hitem. lia.
Qed.

(** A document that [json.dumps] writes in at most 90 characters, and whose
    keys need no escaping, is printed by [dumps_compact] exactly as
    [json.dumps] prints it, on one line. *)
Theorem dumps_compact_short_is_json_dumps :
  forall (float_repr : pyfloat -> string) (obj : pyval),
    plain_keys obj = true ->
    String.length (json_dumps float_repr obj) <= 90 ->
    dumps_compact float_repr obj = json_dumps float_repr obj.
Proof.
  intros float_repr obj Hplain Hlen. unfold dumps_compact.
  apply render_short_is_json_dumps; assumption.
Qed.

Lemma dumps_compact_short_is_json_dumps_witness :
  dumps_compact (fun _ => "0.0") doc_two_keys = json_dumps (fun _ => "0.0") doc_two_keys.
Proof.
  apply dumps_compact_short_is_json_dumps.
  - reflexivity.
  - vm_compute. repeat constructor.
Defined.

(** ** What the property walk writes *)

Lemma dict_set_keys :
  forall (V : Type) (d : list (string * V)) (key : string) (v : V) (k : string),
    In k (map fst (dict_set d key v)) -> In k (map fst d) \/ k = key.
Proof.
  intros V d key v k. induction d as [|[k0 w] d IH]; cbn [dict_set map fst In].
  - intros [<-|[]]. right. reflexivity.
  - destruct (String.eqb k0 key); cbn [map fst In].
    + intros H. left. exact H.
    + intros [H|H]; [left; left; exact H|].
      destruct (IH H) as [H'|H']; [left; right; exact H'|right; exact H'].
Qed.

Lemma serialize_prop_keys :
  forall (h : bpy) (properties : pydict) (idblock : oid) (prop : rna_prop)
         (defaults : option oid) (out : pydict),
    _serialize_prop h properties idblock prop defaults = Ok out ->
    forall k, In k (map fst out) ->
              In k (map fst properties) \/ k = _short_prop_name (identifier prop).
Proof.
  intros h properties idblock prop defaults out H k Hk.
  unfold _serialize_prop in H.
  assert (Hsame : Ok properties = Ok out ->
                  In k (map fst properties) \/ k = _short_prop_name (identifier prop)).
  { intros E. injection E as ->. left. exact Hk. }
  assert (Hset : forall v, Ok (dict_set properties (_short_prop_name (identifier prop)) v)
                           = Ok out ->
                  In k (map fst properties) \/ k = _short_prop_name (identifier prop)).
  { intros v E. injection E as <-. apply dict_set_keys in Hk. exact Hk. }
  destruct (getattr h idblock (identifier prop)) eqn:Hv; try (apply Hsame; exact H);
    match type of H with
    | (if ?c then _ else _) = _ => destruct c; [apply Hsame; exact H|]
    end;
    destruct (kind prop); try (eapply Hset; exact H); try discriminate H.
  match type of H with
  | (if ?c then _ else _) = _ => destruct c
  end.
  - apply bind_ok_inv in H. destruct H as [name [_ H]]. eapply Hset; exact H.
  - destruct (String.eqb (identifier prop) "parent"); [|apply Hsame; exact H].
    apply bind_ok_inv in H. destruct H as [nonneg [_ H]].
    destruct nonneg; [|apply Hsame; exact H].
    apply bind_ok_inv in H. destruct H as [idx [_ H]]. eapply Hset; exact H.
Qed.

(** Every key of the mapping [_iter_properties] returns is the (abbreviated)
    name of a property of the struct that is neither skipped nor hidden, and
    that is a collection, or writable, or one of the always included: a
    skipped, hidden or plain read-only property is never written. *)
Theorem iter_properties_writes_only_visible_props :
  forall (depth : nat) (h : bpy) (idblock : oid) (defaults : option oid)
         (skip_props always_include : list string) (properties : pydict),
    _iter_properties depth h idblock defaults skip_props always_include = Ok properties ->
    forall key, In key (map fst properties) ->
      exists prop, In prop (properties_of h idblock)
                   /\ key = _short_prop_name (identifier prop)
                   /\ may_be_written skip_props always_include prop.
Proof.
  intros depth h idblock defaults skip_props always_include properties H key Hkey.
  destruct depth as [|depth]; [discriminate H|].
  cbn [_iter_properties] in H.
  match type of H with ?f _ [] = _ => set (each := f) in H end.
  assert (Hloop : forall props acc out,
             each props acc = Ok out ->
             forall k, In k (map fst out) ->
               In k (map fst acc)
               \/ exists prop, In prop props
                               /\ k = _short_prop_name (identifier prop)
                               /\ may_be_written skip_props always_include prop).
  { clear H Hkey key properties.
    induction props as [|p props IH]; intros acc out H k Hk.
    - injection H as ->. left. exact Hk.
    - assert (Hskip : each props acc = Ok out ->
                      In k (map fst acc)
                      \/ exists prop, In prop (p :: props)
                                      /\ k = _short_prop_name (identifier prop)
                                      /\ may_be_written skip_props always_include prop).
      { intros E. destruct (IH acc out E k Hk) as [Hl|[q [Hq Hrest]]];
          [left; exact Hl|right; exists q; split; [right; exact Hq|exact Hrest]]. }
      assert (Hstep : forall acc', 
                 each props acc' = Ok out ->
                 (forall k', In k' (map fst acc') ->
                             In k' (map fst acc) \/ k' = _short_prop_name (identifier p)) ->
                 may_be_written skip_props always_include p ->
                 In k (map fst acc)
                 \/ exists prop, In prop (p :: props)
                                 /\ k = _short_prop_name (identifier prop)
                                 /\ may_be_written skip_props always_include prop).
      { intros acc' E Hacc' Hp.
        destruct (IH acc' out E k Hk) as [Hl|[q [Hq Hrest]]].
        - destruct (Hacc' k Hl) as [Ha|Hb]; [left; exact Ha|].
          right. exists p. split; [left; reflexivity|]. split; assumption.
        - right. exists q. split; [right; exact Hq|exact Hrest]. }
      cbn [each] in H.
      destruct (mem (identifier p) skip_props) eqn:Hs; [apply Hskip; exact H|].
      destruct (is_hidden p) eqn:Hh; [apply Hskip; exact H|].
      destruct (kind p) eqn:Hkind;
        try (cbv zeta in H;
             destruct (mem (identifier p) always_include) eqn:Hforce; cbn [negb andb] in H;
             [ apply bind_ok_inv in H; destruct H as [acc' [Hser H]];
               apply (Hstep acc' H (serialize_prop_keys _ _ _ _ _ _ Hser));
               split; [exact Hs|split; [exact Hh|right; right; exact Hforce]]
             | destruct (is_readonly p) eqn:Hro;
               [ apply Hskip; exact H
               | apply bind_ok_inv in H; destruct H as [acc' [Hser H]];
                 apply (Hstep acc' H (serialize_prop_keys _ _ _ _ _ _ Hser));
                 split; [exact Hs|split; [exact Hh|right; left; exact Hro]] ] ]).
      apply bind_ok_inv in H. destruct H as [coll [_ H]].
      apply bind_ok_inv in H. destruct H as [items [_ H]].
      apply bind_ok_inv in H. destruct H as [dicts [_ H]].
      apply (Hstep _ H).
      + intros k' Hk'. apply dict_set_keys in Hk'. exact Hk'.
      + split; [exact Hs|split; [exact Hh|left; exact Hkind]]. }
  destruct (Hloop _ _ _ H key Hkey) as [[]|[prop [Hin Hrest]]].
  exists prop. split; [apply sort_props_In; exact Hin|exact Hrest].
Qed.

Lemma iter_properties_writes_only_visible_props_witness :
  exists prop,
    In prop (properties_of (fresh_node_host "ShaderNodeTree" "ShaderNodeMath") 4)
    /\ "name" = _short_prop_name (identifier prop)
    /\ may_be_written node_skip_props ["name"] prop.
Proof.
  apply (iter_properties_writes_only_visible_props
           (S 999) (fresh_node_host "ShaderNodeTree" "ShaderNodeMath") 4 (Some 11)
           node_skip_props ["name"] [("name", PStr "Math")]).
  - vm_compute. reflexivity.
  - left. reflexivity.
Defined.

(** ** Validation after a trip through JSON *)

Lemma dict_get_tuples_as_lists :
  forall (d : pydict) (key : string),
    dict_get (map (fun kv => (fst kv, tuples_as_lists (snd kv))) d) key
    = option_map tuples_as_lists (dict_get d key).
Proof.
  intros d key. induction d as [|[k v] d IH]; [reflexivity|].
  cbn [map dict_get fst snd]. destruct (String.eqb k key); [reflexivity|exact IH].
Qed.

Lemma bind_unit_ok_inv :
  forall (r k : result unit), (r ;;; k) = Ok tt -> r = Ok tt /\ k = Ok tt.
Proof.
  intros r k H. apply bind_ok_inv in H. destruct H as [[] [Hr Hk]]. split; assumption.
Qed.

(** A document that passes the schema still passes it after JSON has
    turned its tuples into lists (as [app_version] and the recorded links
    are turned between copy and paste). *)
Theorem validate_schema_survives_tuples_as_lists :
  forall (sch : schema) (obj : pyval) (path : string),
    validate_schema obj sch path = Ok tt ->
    validate_schema (tuples_as_lists obj) sch path = Ok tt.
Proof.
  induction sch as [t | elems IH | fields IH | elems IH | vs IH]; intros obj path H.
  - destruct obj; destruct t; try discriminate H; exact H.
  - destruct obj as [| | | | |items| |]; try discriminate H.
    destruct elems as [|s0 elems]; [reflexivity|].
    inversion IH as [|? IH0 ? _]; subst.
    cbn [validate_schema tuples_as_lists] in H |- *.
    revert H. generalize 0. induction items as [|item items IHi]; intros i H;
      [reflexivity|].
    cbn [map]. apply bind_unit_ok_inv in H. destruct H as [H1 H2].
    rewrite (IH0 _ _ H1). cbn [bind]. apply IHi. exact H2.
  - destruct obj as [| | | | | | |d]; try discriminate H.
    cbn [validate_schema tuples_as_lists] in H |- *.
    induction IH as [|[k sub] Hk fields Hfields IHf]; [reflexivity|].
    inversion Hk as [? _ ? Hsub]; subst.
    destruct k as [key|key]; cbn [bind] in H |- *; rewrite dict_get_tuples_as_lists;
      destruct (dict_get d key) as [v|]; cbn [option_map]; try discriminate H.
    + apply bind_unit_ok_inv in H. destruct H as [H1 H2].
      rewrite (Hsub _ _ H1). cbn [bind]. apply IHf. exact H2.
    + apply bind_unit_ok_inv in H. destruct H as [H1 H2].
      rewrite (Hsub _ _ H1). cbn [bind]. apply IHf. exact H2.
    + apply IHf. exact H.
  - assert (Hcheck : forall items,
               validate_schema (PList items) (STuple elems) path = Ok tt ->
               validate_schema (PList (map tuples_as_lists items)) (STuple elems) path
               = Ok tt).
    { clear H obj. intros items. cbn [validate_schema]. rewrite length_map.
      destruct (negb (Nat.eqb (length items) (length elems))); [discriminate|].
      generalize 0. revert items.
      induction IH as [|s Hs elems Helems IHe]; intros items i Hi.
      - destruct items; reflexivity.
      - destruct items as [|item items]; [reflexivity|].
        cbn [map]. apply bind_unit_ok_inv in Hi. destruct Hi as [H1 H2].
        rewrite (Hs _ _ H1). cbn [bind]. apply IHe. exact H2. }
    destruct obj as [| | | | |items|items|]; try discriminate H;
      cbn [tuples_as_lists]; apply Hcheck; exact H.
  - destruct obj as [| | | | | | |d]; try discriminate H.
    cbn [validate_schema tuples_as_lists] in H |- *.
    induction d as [|[k v] d IHd]; [reflexivity|].
    cbn [map fst snd]. apply bind_unit_ok_inv in H. destruct H as [H1 H2].
    rewrite (IH _ _ H1). cbn [bind]. apply IHd. exact H2.
Qed.

Lemma validate_schema_survives_tuples_as_lists_witness :
  validate_schema (tuples_as_lists nested_document) SCHEMA "root" = Ok tt.
Proof.
  apply validate_schema_survives_tuples_as_lists. vm_compute. reflexivity.
Defined.

(** ** Links that have nothing to attach to *)

(** Recorded links whose source is not in the batch, or whose index is at
    or above the number of outputs of the source node, are passed over: the
    loop over such links makes no link, raises nothing and leaves the file
    as it was. *)
Theorem dangling_links_are_dropped :
  forall (target_tree : oid) (created : created_map) (from_socket : oid)
         (recorded : list pyval) (h : bpy),
    Forall (dangling_link h created) recorded ->
    for_each recorded (create_link target_tree created from_socket) h = (Ok tt, h).
Proof.
  intros target_tree created from_socket recorded h Hall.
  induction Hall as [|link rest Hlink _ IH]; [reflexivity|].
  cbn [for_each]. unfold mbind at 1.
  assert (Hone : create_link target_tree created from_socket link h = (Ok tt, h)).
  { destruct Hlink as [name [index [-> Hcase]]].
    unfold create_link, mbind, lift, ret, read.
    change (py_seq (PList [PStr name; PInt index])) with (Ok [PStr name; PInt index]).
    cbv beta iota. change (py_str (PStr name)) with (Ok name). cbv beta iota.
    destruct Hcase as [Hnone | [nd [other [outputs [Hsome [Houts Hle]]]]]].
    - rewrite Hnone. reflexivity.
    - rewrite Hsome, Houts. apply Z.leb_le in Hle. rewrite Hle. reflexivity. }
  rewrite Hone. exact IH.
Qed.

Lemma dangling_links_are_dropped_witness :
  for_each [link_to "Ghost" 0; link_to "Phantom" 5]
           (create_link other_file_target [] 2) other_file
  = (Ok tt, other_file).
Proof.
  apply dangling_links_are_dropped.
  repeat constructor; eexists _, _; (split; [reflexivity|left; reflexivity]).
Defined.

(** ** Finding the collection of a datablock type *)

Lemma data_collection_name_spec :
  forall (table : list (string * string)) (chain : list string) (r : string),
    data_collection_name table chain = Some r
    <-> exists before t after,
          chain = (before ++ t :: after)%list
          /\ after <> []
          /\ dict_get table t = Some r
          /\ (forall u, In u before -> dict_get table u = None).
Proof.
  intros table chain r. induction chain as [|t chain IH].
  - split; [discriminate|]. intros [before [t [after [E _]]]].
    destruct before; discriminate E.
  - cbn [data_collection_name]. destruct chain as [|b chain].
    + split; [discriminate|]. intros [before [u [after [E [Hne _]]]]].
      destruct before as [|x [|y before]]; cbn in E.
      * injection E as _ E. symmetry in E. contradiction.
      * injection E as _ E. discriminate E.
      * injection E as _ E. discriminate E.
    + destruct (dict_get table t) as [r0|] eqn:Ht.
      * split.
        -- intros E. injection E as ->. exists [], t, (b :: chain).
           split; [reflexivity|]. split; [discriminate|]. split; [exact Ht|intros u []].
        -- intros [before [u [after [E [Hne [Hu Hbefore]]]]]].
           destruct before as [|x before]; cbn in E.
           ++ injection E as -> _. rewrite Ht in Hu. exact Hu.
           ++ injection E as -> _. rewrite (Hbefore x (or_introl eq_refl)) in Ht.
              discriminate Ht.
      * rewrite IH. split.
        -- intros [before [u [after [E [Hne [Hu Hbefore]]]]]].
           exists (t :: before), u, after. split; [cbn; rewrite E; reflexivity|].
           split; [exact Hne|]. split; [exact Hu|].
           intros x [<-|Hx]; [exact Ht|apply Hbefore; exact Hx].
        -- intros [before [u [after [E [Hne [Hu Hbefore]]]]]].
           destruct before as [|x before]; cbn in E.
           ++ injection E as -> _. rewrite Ht in Hu. discriminate Hu.
           ++ injection E as _ E. exists before, u, after.
              split; [exact E|]. split; [exact Hne|]. split; [exact Hu|].
              intros y Hy. apply Hbefore. right. exact Hy.
Qed.

(** [_get_data_collection] follows the chain of base types and returns the
    [bpy.data] collection of the first type that has one, unless that type
    is the last of the chain: the root type (whose base is [None]) is never
    resolved, even when the table has an entry for it. *)
Theorem get_data_collection_resolves_nearest_base :
  forall (h : bpy) (chain : list string) (c : list oid),
    _get_data_collection h chain = Some c
    <-> exists before t after r,
          chain = (before ++ t :: after)%list
          /\ after <> []
          /\ dict_get (_bpy_type_to_data_collection h) t = Some r
          /\ (forall u, In u before -> dict_get (_bpy_type_to_data_collection h) u = None)
          /\ c = match dict_get (data h) r with Some x => x | None => [] end.
Proof.
  intros h chain c. unfold _get_data_collection.
  destruct (data_collection_name (_bpy_type_to_data_collection h) chain) as [r|] eqn:E.
  - apply data_collection_name_spec in E.
    destruct E as [before [t [after [Hc [Hne [Ht Hb]]]]]]. split.
    + intros H. injection H as <-. exists before, t, after, r. repeat split; assumption.
    + intros [before' [t' [after' [r' [Hc' [Hne' [Ht' [Hb' ->]]]]]]]].
      assert (Hr : data_collection_name (_bpy_type_to_data_collection h) chain = Some r').
      { apply data_collection_name_spec. exists before', t', after'.
        repeat split; assumption. }
      assert (Hr0 : data_collection_name (_bpy_type_to_data_collection h) chain = Some r).
      { apply data_collection_name_spec. exists before, t, after.
        repeat split; assumption. }
      rewrite Hr in Hr0. injection Hr0 as ->. reflexivity.
  - split; [discriminate|].
    intros [before [t [after [r [Hc [Hne [Ht [Hb _]]]]]]]].
    assert (Hr : data_collection_name (_bpy_type_to_data_collection h) chain = Some r).
    { apply data_collection_name_spec. exists before, t, after. repeat split; assumption. }
    rewrite Hr in E. discriminate E.
Qed.

(** ** Storing one property *)

(** [_serialize_prop] changes at most the entry of the property's own
    (abbreviated) name, and changes nothing at all when the value is [None]
    or equals the default: a default value is never stored, and no other
    entry is ever overwritten. *)
Theorem serialize_prop_touches_only_its_key :
  forall (h : bpy) (properties : pydict) (idblock : oid) (prop : rna_prop)
         (defaults : option oid) (out : pydict),
    _serialize_prop h properties idblock prop defaults = Ok out ->
    (forall k, k <> _short_prop_name (identifier prop) ->
               dict_get out k = dict_get properties k)
    /\ (getattr h idblock (identifier prop) = VNone -> out = properties)
    /\ (value_eqb (getattr h idblock (identifier prop))
                  (match defaults with
                   | Some d => getattr h d (identifier prop)
                   | None => VNone
                   end) = true -> out = properties).
Proof.
  intros h properties idblock prop defaults out H.
  unfold _serialize_prop in H.
  assert (Hsame : Ok properties = Ok out ->
                  (forall k, k <> _short_prop_name (identifier prop) ->
                             dict_get out k = dict_get properties k)).
  { intros E. injection E as ->. reflexivity. }
  assert (Hset : forall v, Ok (dict_set properties (_short_prop_name (identifier prop)) v)
                           = Ok out ->
                  (forall k, k <> _short_prop_name (identifier prop) ->
                             dict_get out k = dict_get properties k)).
  { intros v E k Hk. injection E as <-. apply dict_get_set_other. exact Hk. }
  split; [|split].
  - destruct (getattr h idblock (identifier prop)) eqn:Hv; try (apply Hsame; exact H);
      match type of H with
      | (if ?c then _ else _) = _ => destruct c; [apply Hsame; exact H|]
      end;
      destruct (kind prop); try (eapply Hset; exact H); try discriminate H.
    match type of H with
    | (if ?c then _ else _) = _ => destruct c
    end.
    + apply bind_ok_inv in H. destruct H as [name [_ H]]. eapply Hset; exact H.
    + destruct (String.eqb (identifier prop) "parent"); [|apply Hsame; exact H].
      apply bind_ok_inv in H. destruct H as [nonneg [_ H]].
      destruct nonneg; [|apply Hsame; exact H].
      apply bind_ok_inv in H. destruct H as [idx [_ H]]. eapply Hset; exact H.
  - intros Hnone. rewrite Hnone in H. injection H as ->. reflexivity.
  - intros Heq. rewrite Heq in H.
    destruct (getattr h idblock (identifier prop)); injection H as ->; reflexivity.
Qed.

Lemma serialize_prop_touches_only_its_key_witness :
  (forall k, k <> _short_prop_name "name" ->
             dict_get [("label", PStr "x"); ("name", PStr "Math")] k
             = dict_get [("label", PStr "x")] k)
  /\ (getattr (fresh_node_host "ShaderNodeTree" "ShaderNodeMath") 4 "name" = VNone ->
      [("label", PStr "x"); ("name", PStr "Math")] = [("label", PStr "x")])
  /\ (value_eqb (getattr (fresh_node_host "ShaderNodeTree" "ShaderNodeMath") 4 "name") VNone
      = true ->
      [("label", PStr "x"); ("name", PStr "Math")] = [("label", PStr "x")]).
Proof.
  apply (serialize_prop_touches_only_its_key
           (fresh_node_host "ShaderNodeTree" "ShaderNodeMath") [("label", PStr "x")] 4
           (prop "name" STRING) None).
  vm_compute. reflexivity.
Defined.

(** ** What an accepted document holds *)

(** An accepted document has no offending location. *)
Lemma accepted_has_no_offence :
  forall (obj : pyval) (sch : schema) (path : string) (p : list step) (v : violation),
    validate_schema obj sch path = Ok tt -> ~ offends obj sch p v.
Proof.
  intros obj sch path p v Hok Hoff.
  destruct (validate_schema_complete obj sch p v Hoff path) as [e He].
  rewrite He in Hok. discriminate Hok.
Qed.

Lemma accepted_string :
  forall (x : pyval) (path : string),
    validate_schema x (SType Tstr) path = Ok tt -> exists s, x = PStr s.
Proof.
  intros x path H. destruct x; try discriminate H. eexists. reflexivity.
Qed.

Lemma accepted_required :
  forall (obj : pyval) (fields : list (skey * schema)) (path : string)
         (key : string) (sub : schema),
    validate_schema obj (SDict fields) path = Ok tt ->
    In (Required key, sub) fields ->
    exists d x, obj = PDict d /\ dict_get d key = Some x
                /\ validate_schema x sub (path ++ "." ++ key) = Ok tt.
Proof.
  intros obj fields path key sub Hok Hin.
  destruct obj as [| | | | | | |d]; try discriminate Hok.
  destruct (dict_get d key) as [x|] eqn:Hget.
  - exists d, x. split; [reflexivity|]. split; [exact Hget|].
    destruct (validate_schema x sub (path ++ "." ++ key)) as [[]|e] eqn:Hx; [reflexivity|].
    exfalso. destruct (validate_schema_sound sub x _ e Hx) as [p [v [Hoff _]]].
    apply (accepted_has_no_offence _ _ _ (Key key :: p) v Hok).
    apply (off_field d fields (Required key) sub x p v Hin Hget Hoff).
  - exfalso. apply (accepted_has_no_offence _ _ _ [] (MissingKey key) Hok).
    apply (off_missing d fields key sub Hin Hget).
Qed.

Lemma accepted_list :
  forall (obj : pyval) (s0 : schema) (elems : list schema) (path : string),
    validate_schema obj (SList (s0 :: elems)) path = Ok tt ->
    exists items, obj = PList items
                  /\ Forall (fun item => exists path', validate_schema item s0 path' = Ok tt)
                            items.
Proof.
  intros obj s0 elems path Hok.
  destruct obj as [| | | | |items| |]; try discriminate Hok.
  exists items. split; [reflexivity|]. apply Forall_forall. intros item Hin.
  apply In_nth_error in Hin. destruct Hin as [i Hi].
  exists (path ++ "[" ++ str_of_nat i ++ "]").
  destruct (validate_schema item s0 (path ++ "[" ++ str_of_nat i ++ "]")) as [[]|e] eqn:Hx;
    [reflexivity|].
  exfalso. destruct (validate_schema_sound s0 item _ e Hx) as [p [v [Hoff _]]].
  apply (accepted_has_no_offence _ _ _ (Idx i :: p) v Hok).
  apply (off_list_item items s0 elems i item p v Hi Hoff).
Qed.

Lemma accepted_dict :
  forall (obj : pyval) (fields : list (skey * schema)) (path : string),
    validate_schema obj (SDict fields) path = Ok tt -> exists d, obj = PDict d.
Proof.
  intros obj fields path Hok.
  destruct obj as [| | | | | | |d]; try discriminate Hok. exists d. reflexivity.
Qed.

Lemma accepted_field :
  forall (d : pydict) (fields : list (skey * schema)) (path : string)
         (k : skey) (sub : schema) (x : pyval),
    validate_schema (PDict d) (SDict fields) path = Ok tt ->
    In (k, sub) fields ->
    dict_get d (skey_name k) = Some x ->
    forall path', validate_schema x sub path' = Ok tt.
Proof.
  intros d fields path k sub x Hok Hin Hget path'.
  destruct (validate_schema x sub path') as [[]|e] eqn:Hx; [reflexivity|].
  exfalso. destruct (validate_schema_sound sub x _ e Hx) as [p [v [Hoff _]]].
  apply (accepted_has_no_offence _ _ _ (Key (skey_name k) :: p) v Hok).
  apply (off_field d fields k sub x p v Hin Hget Hoff).
Qed.

Lemma accepted_map :
  forall (obj : pyval) (value_schema : schema) (path : string),
    validate_schema obj (SMapOf value_schema) path = Ok tt ->
    exists d, obj = PDict d
              /\ forall k x, In (k, x) d ->
                             forall path', validate_schema x value_schema path' = Ok tt.
Proof.
  intros obj value_schema path Hok.
  destruct obj as [| | | | | | |d]; try discriminate Hok.
  exists d. split; [reflexivity|]. intros k x Hin path'.
  destruct (validate_schema x value_schema path') as [[]|e] eqn:Hx; [reflexivity|].
  exfalso. destruct (validate_schema_sound value_schema x _ e Hx) as [p [v [Hoff _]]].
  apply (accepted_has_no_offence _ _ _ (Key k :: p) v Hok).
  apply (off_map_value d value_schema k x p v Hin Hoff).
Qed.

(** A list accepted as [_NODES_SCHEMA] holds readable node records. *)
Lemma accepted_node_records :
  forall (nv : pyval) (path : string),
    validate_schema nv _NODES_SCHEMA path = Ok tt ->
    exists records, nv = PList records /\ Forall readable_node_record records.
Proof.
  intros nv path Hn. unfold _NODES_SCHEMA in Hn.
  destruct (accepted_list _ _ _ _ Hn) as [records [-> Hrecords]].
  exists records. split; [reflexivity|].
  eapply Forall_impl; [|exact Hrecords].
  intros nd [path' Hnd].
  destruct (accepted_required _ _ _ "bl_idname" (SType Tstr) Hnd)
    as [nd_entries [idv [-> [Hid Hidv]]]]; [left; reflexivity|].
  destruct (accepted_string _ _ Hidv) as [idname ->].
  destruct (accepted_required _ _ _ "props" (SDict [(Required "name", SType Tstr)]) Hnd)
    as [nd_entries1 [pv [E3 [Hprops Hpv]]]]; [right; left; reflexivity|].
  injection E3 as <-.
  destruct (accepted_required _ _ _ "name" (SType Tstr) Hpv)
    as [props [nv [-> [Hname Hnv]]]]; [left; reflexivity|].
  destruct (accepted_string _ _ Hnv) as [name ->].
  exists nd_entries, idname, props, name. repeat split; assumption.
Qed.

(** What the schema guarantees the reader.  A document [validate_schema]
    accepts is a mapping with an integer [version], a string [type] and a
    list [nodes] of records that each have a string [bl_idname] and a
    [props] mapping with a string [name]; its [node_trees], when it has
    them, is a mapping whose every record has such a list [nodes] and an
    [interface] mapping, the [items_tree] of which, when it is there, is a
    list of mappings.  Nothing makes [items_tree] itself be there. *)
Theorem validated_document_has_what_the_reader_indexes :
  forall (doc : pyval),
    validate_schema doc SCHEMA "root" = Ok tt ->
    exists entries version type records,
      doc = PDict entries
      /\ dict_get entries "version" = Some version
      /\ isinstance version Tint = true
      /\ dict_get entries "type" = Some (PStr type)
      /\ dict_get entries "nodes" = Some (PList records)
      /\ Forall readable_node_record records
      /\ (forall trees, dict_get entries "node_trees" = Some trees ->
            exists tds, trees = PDict tds
                        /\ Forall (fun ntd => readable_tree_record (snd ntd)) tds).
Proof.
  intros doc H. unfold SCHEMA in H.
  destruct (accepted_required _ _ _ "version" (SType Tint) H)
    as [entries [version [-> [Hversion Hv]]]]; [left; reflexivity|].
  destruct (accepted_required _ _ _ "type" (SType Tstr) H)
    as [entries1 [tv [E1 [Htype Ht]]]]; [right; left; reflexivity|].
  injection E1 as <-.
  destruct (accepted_required _ _ _ "nodes" _NODES_SCHEMA H)
    as [entries2 [nv [E2 [Hnodes Hn]]]]; [right; right; right; left; reflexivity|].
  injection E2 as <-.
  destruct (accepted_string _ _ Ht) as [type ->].
  destruct (accepted_node_records _ _ Hn) as [records [-> Hrecords]].
  exists entries, version, type, records.
  split; [reflexivity|]. split; [exact Hversion|].
  split; [cbn [validate_schema] in Hv;
          destruct (isinstance version Tint); [reflexivity|discriminate Hv]|].
  split; [exact Htype|]. split; [exact Hnodes|]. split; [exact Hrecords|].
  intros trees Htrees.
  match type of H with
  | validate_schema _ (SDict ?fields) _ = _ =>
      match fields with
      | context [(Optional "node_trees", ?sub)] =>
          pose proof (accepted_field entries fields "root" (Optional "node_trees") sub trees H)
            as Hsub
      end
  end.
  specialize (Hsub ltac:(right; right; right; right; left; reflexivity) Htrees "root").
  destruct (accepted_map _ _ _ Hsub) as [tds [-> Htds]].
  exists tds. split; [reflexivity|].
  apply Forall_forall. intros [tname td] Hin. cbn [snd].
  specialize (Htds tname td Hin "root").
  destruct (accepted_required _ _ _ "nodes" _NODES_SCHEMA Htds)
    as [td_entries [tnodes [-> [Htnodes Htn]]]]; [left; reflexivity|].
  destruct (accepted_node_records _ _ Htn) as [trecords [-> Htrecords]].
  destruct (accepted_required _ _ _ "interface"
              (SDict [(Optional "items_tree",
                       SList [SDict [(Optional "in_out", SType Tstr)]])]) Htds)
    as [td_entries1 [iv [E3 [Hiface Hiv]]]]; [right; left; reflexivity|].
  injection E3 as <-.
  destruct (accepted_dict _ _ _ Hiv) as [interface ->].
  exists td_entries, trecords, interface.
  split; [reflexivity|]. split; [exact Htnodes|]. split; [exact Htrecords|].
  split; [exact Hiface|].
  intros items Hitems.
  pose proof (accepted_field interface _ _ (Optional "items_tree")
                (SList [SDict [(Optional "in_out", SType Tstr)]]) items Hiv
                (or_introl eq_refl) Hitems "root") as Hit.
  destruct (accepted_list _ _ _ _ Hit) as [sds [-> Hsds]].
  exists sds. split; [reflexivity|].
  eapply Forall_impl; [|exact Hsds].
  intros sd [path' Hsd]. apply (accepted_dict _ _ _ Hsd).
Qed.

Lemma validated_document_has_what_the_reader_indexes_witness :
  exists entries version type records,
    group_document (tree_record "G" (PInt 1)) = PDict entries
    /\ dict_get entries "version" = Some version
    /\ isinstance version Tint = true
    /\ dict_get entries "type" = Some (PStr type)
    /\ dict_get entries "nodes" = Some (PList records)
    /\ Forall readable_node_record records
    /\ (forall trees, dict_get entries "node_trees" = Some trees ->
          exists tds, trees = PDict tds
                      /\ Forall (fun ntd => readable_tree_record (snd ntd)) tds).
Proof.
  apply validated_document_has_what_the_reader_indexes. vm_compute. reflexivity.
Defined.

(** ** Copy with nothing selected, then paste *)

Lemma empty_copy_lines :
  splitlines ("# " ++ _message ++ newline ++ "{}") = ["# " ++ _message; "{}"].
Proof. vm_compute. reflexivity. Qed.

(** Copying with no node selected and pasting the result: the copy puts the
    header line and [{}] on the clipboard and leaves the file alone; the
    paste drops the header line, reads [{}], and ends with the report
    [Schema error in JSON: root missing required key 'version'] and the
    status [CANCELLED], the file again unchanged. *)
Theorem copy_nothing_then_paste_reports_schema_error :
  forall (float_repr : pyfloat -> string) (json_loads : string -> pyval + string)
         (edit_tree : oid) (include_groups reuse_existing : bool)
         (cursor_location : pyfloat * pyfloat) (h : bpy),
    selected_nodes h edit_tree = Ok [] ->
    json_loads "{}" = inl (PDict []) ->
    copy_execute float_repr edit_tree include_groups h
    = (Ok ("# " ++ _message ++ newline ++ "{}", FINISHED), h)
    /\ execute json_loads ("# " ++ _message ++ newline ++ "{}")
               edit_tree cursor_location reuse_existing h
       = (Ok ([("ERROR", "Schema error in JSON: root missing required key 'version'")],
              CANCELLED), h).
Proof.
  intros float_repr json_loads edit_tree include_groups reuse_existing cursor_location h
         Hsel Hloads.
  split.
  - unfold copy_execute, mbind, read. rewrite Hsel. reflexivity.
  - unfold execute. rewrite empty_copy_lines.
    change (prefix_b "#" ("# " ++ _message)) with true. cbv iota.
    change (join newline ["{}"]) with "{}". rewrite Hloads. reflexivity.
Qed.

Lemma copy_nothing_then_paste_reports_schema_error_witness :
  copy_execute (fun _ => "0.0") other_file_target true other_file
  = (Ok ("# " ++ _message ++ newline ++ "{}", FINISHED), other_file)
  /\ execute (fun _ => inl (PDict [])) ("# " ++ _message ++ newline ++ "{}")
             other_file_target (float_zero, float_zero) true other_file
     = (Ok ([("ERROR", "Schema error in JSON: root missing required key 'version'")],
            CANCELLED), other_file).
Proof.
  apply copy_nothing_then_paste_reports_schema_error.
  - vm_compute. reflexivity.
  - reflexivity.
Defined.

(** ** The trees a selection uses *)






Section Collect.

Variable h : bpy.

(** No group node is itself used as the tree of a node. *)
Hypothesis nodes_are_no_trees :
  forall n m t, node_tree_of h n = Some t -> node_tree_of h m <> Some n.



End Collect.





(** ** A tree used before it is rebuilt *)

(** A record that uses a recorded tree which has not been rebuilt yet makes
    [_create_nodes] raise [ValueError: node group used before definition],
    with the node of that record already made in the target tree. *)
Theorem create_nodes_raises_on_forward_reference :
  forall (target_tree : oid) (location_offset : pyfloat * pyfloat)
         (nd : pyval) (rest : list pyval) (trees : list (string * oid))
         (raw_trees : pydict) (idname name : string) (node : oid) (h h1 : bpy),
    py_item nd "bl_idname" = Ok (PStr idname) ->
    py_get nd "node_tree" = Ok (Some (PStr name)) ->
    dict_get trees name = None ->
    dict_has raw_trees name = true ->
    nodes_new target_tree idname h = (Ok node, h1) ->
    _create_nodes target_tree location_offset (nd :: rest) trees raw_trees h
    = (Raise (ValueError ("node group used before definition: " ++ name)), h1).
Proof.
  intros target_tree location_offset nd rest trees raw_trees idname name node h h1
         Hid Htree Hnone Hraw Hnew.
  unfold _create_nodes. cbn [create_batch].
  unfold mbind, lift, raise. rewrite Hid. cbn [py_str]. rewrite Hnew, Htree.
  cbn [py_str]. rewrite Hnone, Hraw. reflexivity.
Qed.

Lemma create_nodes_raises_on_forward_reference_witness :
  _create_nodes other_file_target (float_zero, float_zero)
                [PDict [("bl_idname", PStr "ShaderNodeGroup"); ("node_tree", PStr "B");
                        ("props", PDict [("name", PStr "Group")])]]
                [] [("B", PDict [])] other_file
  = (Raise (ValueError ("node group used before definition: " ++ "B")),
     state_after (nodes_new other_file_target "ShaderNodeGroup") other_file).
Proof.
  apply (create_nodes_raises_on_forward_reference
           other_file_target (float_zero, float_zero) _ [] [] [("B", PDict [])]
           "ShaderNodeGroup" "B" 4 other_file); reflexivity.
Defined.

(** ** A recorded interface without [items_tree] *)

(** [_has_equal_interface] indexes [items_tree], which the schema leaves
    optional.  When the first recorded tree has an interface without
    [items_tree] and the file has a node group of its name and of the type
    of the document, [_has_equal_interface] raises [KeyError], and with
    [reuse_existing] set [dict_to_nodes] raises it before anything is
    made: the file is left as it was. *)
Theorem reusing_a_group_needs_items_tree :
  forall (h : bpy) (target_tree : oid) (target_location : option (pyfloat * pyfloat))
         (nodes_dict : pyval) (name : string) (td : pyval) (rest : pydict) (g : oid)
         (type : pyval) (entries interface : pydict),
    py_entries nodes_dict "node_trees" = Ok ((name, td) :: rest) ->
    find_by_name h (node_groups h) name = Some g ->
    py_item nodes_dict "type" = Ok type ->
    py_value_eqb type (getattr h g "type") = true ->
    td = PDict entries ->
    dict_get entries "interface" = Some (PDict interface) ->
    dict_get interface "items_tree" = None ->
    _has_equal_interface h td g = Raise (KeyError "items_tree")
    /\ dict_to_nodes target_tree target_location nodes_dict true h
       = (Raise (KeyError "items_tree"), h).
Proof.
  intros h target_tree target_location nodes_dict name td rest g type entries interface
         Htrees Hfind Htype Heq -> Hiface Hitems.
  assert (Hraise : _has_equal_interface h (PDict entries) g = Raise (KeyError "items_tree")).
  { unfold _has_equal_interface, py_item. cbn [py_dict bind].
    rewrite Hiface. cbn [py_dict bind]. rewrite Hitems. reflexivity. }
  split; [exact Hraise|].
  unfold dict_to_nodes, lift, mbind at 1. rewrite Htrees.
  unfold mbind at 1. cbn [resolve_trees]. unfold mbind at 1. rewrite Hfind.
  unfold mbind at 1, read at 1. unfold must_recreate. cbn [negb].
  rewrite Htype. cbn [bind]. rewrite Heq. cbn [negb]. rewrite Hraise. reflexivity.
Qed.

(** Such a document is accepted by [validate_schema]; pasted into the
    file that has the group [G] it raises, and with [reuse_existing]
    unset it is pasted as a new group. *)
Lemma reusing_a_group_needs_items_tree_witness :
  validate_schema (group_document bare_tree_record) SCHEMA "root" = Ok tt
  /\ _has_equal_interface reuse_host bare_tree_record reuse_group
     = Raise (KeyError "items_tree")
  /\ dict_to_nodes reuse_target None (group_document bare_tree_record) true reuse_host
     = (Raise (KeyError "items_tree"), reuse_host)
  /\ groups_after (group_document bare_tree_record) false = ["G"; "Target"; "G.001"].
Proof.
  split; [vm_compute; reflexivity|].
  assert (H := reusing_a_group_needs_items_tree reuse_host reuse_target None
                 (group_document bare_tree_record) "G" bare_tree_record [] reuse_group
                 (PStr "SHADER") [("nodes", PList []); ("interface", PDict [])] []).
  destruct H as [H1 H2]; try (vm_compute; reflexivity).
  split; [exact H1|]. split; [exact H2|]. vm_compute. reflexivity.
Defined.
